(** * RuleGo: the shared network-resource pool and the lazy connection wrapper

    A shallow embedding of
    - [engine/net_pool.go]   (NetPool, NodeNetPool, NetResourceCtx),
    - [api/types/net_pool.go] ([NetResource] as a capability of a node,
      [NetPool] as the pool a configuration points to),
    - [components/base]      (nodeUtils, NetResourceNode[T]),
    together with the pieces of the node context they call into.

    Go pointers are locations of a store; [sync.Map] is a finite map whose
    [Range] walks the keys present when the walk starts; calls into
    collaborators (the parser, the node-context constructor, [Destroy]) are
    recorded in a trace, so that "was not decoded", "was not constructed" and
    "was destroyed" are facts about a run. *)

From Stdlib Require Import ZArith Strings.Byte Strings.Ascii Strings.String.
From stdpp Require Import gmap strings list fin_maps.

Open Scope string_scope.
Set Warnings "-register-all".

(** ** Go basics *)

(** A pointer. *)
Abbreviation loc := positive (only parsing).

(** Go's [error]: the sentinel values of the embedded packages, the
    [fmt.Errorf] of the pool, and the errors of collaborators. *)
Inductive error : Type :=
  | ErrNotImplemented                 (* engine: "not net resource node" *)
  | ErrNetPoolNil                     (* base: "net pool is nil" *)
  | ErrClientNotInit                  (* base: "client not init" *)
  | ErrNotFound (id : string)         (* "net resource not found id=%s" *)
  | ErrNotSupport                     (* "not support this func" *)
  | ErrOther (msg : string).          (* parser, registry, component Init, dial *)

Definition Error (e : error) : string :=
  match e with
  | ErrNotImplemented => "not net resource node"
  | ErrNetPoolNil => "net pool is nil"
  | ErrClientNotInit => "client not init"
  | ErrNotFound id => "net resource not found id=" ++ id
  | ErrNotSupport => "not support this func"
  | ErrOther msg => msg
  end.

(** A Go [(T, error)] result. *)
Inductive result (A : Type) : Type :=
  | Ok (a : A)
  | Err (e : error).
Arguments Ok {A} a.
Arguments Err {A} e.

(** A call either returns or panics. *)
Inductive outcome (A : Type) : Type :=
  | Returns (a : A)
  | Panics (msg : string).
Arguments Returns {A} a.
Arguments Panics {A} msg.

(** An [interface{}] holding a connection: nil, or a dynamic type with a
    pointer to the client or server. *)
Inductive any : Type :=
  | AnyNil
  | Dyn (ty : string) (ptr : loc).

(** [strings.HasPrefix]. *)
Fixpoint HasPrefix (s p : string) {struct p} : bool :=
  match p, s with
  | EmptyString, _ => true
  | String c p', String d s' => if Ascii.eqb c d then HasPrefix s' p' else false
  | String _ _, EmptyString => false
  end.

(** The slice expression [s[n:]] for [n <= len(s)]. *)
Fixpoint slice_from (n : nat) (s : string) : string :=
  match n, s with
  | O, _ => s
  | S n', String _ s' => slice_from n' s'
  | S _, EmptyString => EmptyString
  end.

(** ** Package types *)
Module types.

(** A configuration value ([interface{}] decoded from JSON). *)
Inductive Value : Type :=
  | VNull
  | VBool (b : bool)
  | VNum (z : Z)
  | VStr (s : string)
  | VArr (l : list Value)
  | VObj (l : list (string * Value)).

(** [types.Configuration] is [map[string]interface{}]. *)
Abbreviation Configuration := (gmap string Value) (only parsing).

(** Modelled from the spec: [types.RuleNode], the definition of a node, is
    declared outside the embedded files.  The fields are the ones the
    embedded code and tests read or write ([Id], [Type], [Configuration]) and
    the ones of the definitions the tests decode ([name], [debugMode]). *)
Module RuleNode.
Record t : Type := mk {
    Id : string;
    Type' : string;
    Name : string;
    DebugMode : bool;
    Configuration : gmap string Value
  }.
End RuleNode.

(** Modelled from the spec: [types.RuleNodeId] is declared outside the
    embedded files; the pool reads its [Id]. *)
Module RuleNodeId.
Record t : Type := mk { Id : string }.
End RuleNodeId.

(** An initialised component instance, a value of the interface
    [types.Node], with the configuration it was initialised with.
    [GetNetResource] is [Some r] when the component implements
    [types.NetResource], [r] being what its [GetNetResource()] returns, and
    [None] when it does not: the type assertion [node.(types.NetResource)]
    is the test for [Some]. *)
Module Node.
Record t : Type := mk {
    Type' : string;
    Configuration : gmap string Value;
    GetNetResource : option (result any)
  }.
End Node.

(** Modelled from the spec: a component type of the registry, an external
    collaborator.  [New()] followed by [Init] on the resolved configuration
    gives the initialised instance or the component's own error. *)
Module Component.
Record t : Type := mk {
    Init : gmap string Value -> result Node.t
  }.
End Component.

(** Modelled from the spec: [types.Config] is declared outside the embedded
    files.  The fields are the ones the embedded code and tests read: the
    parser, the component registry, the process-wide properties, and
    [NetPool], a [types.NetPool] interface value: nil, or a pointer to the
    pool. *)
Module Config.
Record t : Type := mk {
    Parser : list byte -> result RuleNode.t;          (* Parser.DecodeRuleNode *)
    ComponentsRegistry : string -> option Component.t; (* ComponentsRegistry.NewNode *)
    Properties : option (gmap string string);
    NetPool : option loc
  }.
End Config.

(** Modelled from the spec: the constant
    [types.NodeConfigurationPrefixNetResource], the prefix of a configuration
    value that points to a pooled resource, is declared outside the embedded
    files; its value is the reference scheme of the spec's "configuration
    reference syntax" as the pool test writes it ([ref://my_mqtt_client01]). *)
Definition NodeConfigurationPrefixNetResource : string := "ref://".

End types.

(** ** Package engine: node contexts *)
Module engine.
Import types.

(** Modelled from the spec: the pipeline scope a chain context supplies to
    variable resolution, its declared [vars] and [decryptSecrets]. *)
Module RuleChainCtx.
Record t : Type := mk {
    vars : gmap string string;
    decryptSecrets : gmap string string
  }.
End RuleChainCtx.

(** The text before the first occurrence of [c], and the text after it. *)
Fixpoint cut (c : ascii) (s : string) : option (string * string) :=
  match s with
  | EmptyString => None
  | String d s' =>
      if Ascii.eqb d c then Some (EmptyString, s')
      else match cut c s' with
           | Some (a, b) => Some (String d a, b)
           | None => None
           end
  end.

(** Modelled from the spec: the value a placeholder body [scope.name] stands
    for.  [global] is looked up in the process-wide properties; [vars], when a
    pipeline scope is supplied, in the pipeline's declared [vars] merged with
    its [decryptSecrets]; an absent scope or name gives nothing. *)
Definition lookupVar (processScope : option (gmap string string))
    (pipelineScope : option RuleChainCtx.t) (body : string) : option string :=
  match cut "."%char body with
  | Some (scope, name) =>
      if String.eqb scope "global" then
        match processScope with
        | Some props => props !! name
        | None => None
        end
      else if String.eqb scope "vars" then
        match pipelineScope with
        | Some chain =>
            (RuleChainCtx.vars chain ∪ RuleChainCtx.decryptSecrets chain) !! name
        | None => None
        end
      else None
  | None => None
  end.

(** Modelled from the spec: one left-to-right scan of a string value.
    [pending] is [Some body] while inside a placeholder opened by [${]; a
    closed placeholder is replaced by its value, or left verbatim when it has
    none; an unterminated placeholder makes the scan fail. *)
Fixpoint scan (lookup : string -> option string) (pending : option string)
    (s : string) : option string :=
  match pending, s with
  | None, EmptyString => Some EmptyString
  | None, String c s' =>
      match s' with
      | String d s'' =>
          if Ascii.eqb c "$"%char && Ascii.eqb d "{"%char then scan lookup (Some EmptyString) s''
          else String c <$> scan lookup None s'
      | EmptyString => String c <$> scan lookup None s'
      end
  | Some body, EmptyString => None
  | Some body, String c s' =>
      if Ascii.eqb c "}"%char then
        (String.app (default ("${" ++ body ++ "}") (lookup body)))
          <$> scan lookup None s'
      else scan lookup (Some (body ++ String c EmptyString)) s'
  end.

(** Modelled from the spec: a string entry with malformed placeholder syntax
    is left unresolved as a whole. *)
Definition resolveString (lookup : string -> option string) (s : string) : string :=
  default s (scan lookup None s).

(** Modelled from the spec: a string value is resolved, any other value is
    copied. *)
Definition resolveValue (lookup : string -> option string) (v : Value) : Value :=
  match v with
  | VStr s => VStr (resolveString lookup s)
  | _ => v
  end.

(** Modelled from the spec: [processVariables] (the engine's variable
    resolver, outside the embedded files; only its test is embedded).  Every
    string entry is rewritten against the process-wide properties of [config]
    and the pipeline scope of [chainCtx]; other values are copied.  The scope
    sources are values here, so resolution does not fail. *)
Definition processVariables (config : Config.t) (chainCtx : option RuleChainCtx.t)
    (configuration : gmap string Value) : result (gmap string Value) :=
  Ok (resolveValue (lookupVar (Config.Properties config) chainCtx) <$> configuration).

(** Modelled from the spec: [RuleNodeCtx], one component instance with its
    current definition, is declared outside the embedded files; the fields
    are the ones the embedded code and tests read. *)
Module RuleNodeCtx.
Record t : Type := mk {
    ChainCtx : option RuleChainCtx.t;
    SelfDefinition : RuleNode.t;
    Node : Node.t;
    isInitNetResource : bool
  }.
End RuleNodeCtx.

(** Modelled from the spec: [InitRuleNodeCtx] (outside the embedded files).
    It instantiates the component through the registry, resolves the
    variables of the definition's configuration and initialises the
    component; an unregistered type or a failing [Init] gives no context.
    The error text of an unregistered type is the one the test expects. *)
Definition InitRuleNodeCtx (config : Config.t) (chainCtx : option RuleChainCtx.t)
    (selfDefinition : RuleNode.t) : result RuleNodeCtx.t :=
  match Config.ComponentsRegistry config (RuleNode.Type' selfDefinition) with
  | None =>
      Err (ErrOther ("nodeType:" ++ RuleNode.Type' selfDefinition
                     ++ " for id:" ++ RuleNode.Id selfDefinition
                     ++ " new error:component not found. componentType="
                     ++ RuleNode.Type' selfDefinition))
  | Some component =>
      match processVariables config chainCtx (RuleNode.Configuration selfDefinition) with
      | Err e => Err e
      | Ok configuration =>
          match Component.Init component configuration with
          | Err e => Err e
          | Ok node =>
              Ok (RuleNodeCtx.mk chainCtx selfDefinition node false)
          end
      end
  end.

(** Modelled from the spec: [InitNetResourceNodeCtx] (outside the embedded
    files) builds the node context of a pooled resource; the pool test reads
    [isInitNetResource] as true on the context it gets back. *)
Definition InitNetResourceNodeCtx (config : Config.t) (chainCtx : option RuleChainCtx.t)
    (selfDefinition : RuleNode.t) : result RuleNodeCtx.t :=
  match InitRuleNodeCtx config chainCtx selfDefinition with
  | Err e => Err e
  | Ok ctx =>
      Ok (RuleNodeCtx.mk (RuleNodeCtx.ChainCtx ctx) (RuleNodeCtx.SelfDefinition ctx)
            (RuleNodeCtx.Node ctx) true)
  end.

(** Modelled from the spec: [GetNodeId] (outside the embedded files) is the
    id of the context's current definition. *)
Definition GetNodeId (rn : RuleNodeCtx.t) : RuleNodeId.t :=
  RuleNodeId.mk (RuleNode.Id (RuleNodeCtx.SelfDefinition rn)).

(** Modelled from the spec: [ReloadChild] on a node context (outside the
    embedded files; only its test is embedded).  A node context wraps a
    single non-composite component: the call changes nothing and returns the
    "operation not supported" error, whose text is the one the test names. *)
Definition ReloadChild (rn : RuleNodeCtx.t) (childId : RuleNodeId.t) (dsl : list byte)
    : outcome (option error) * RuleNodeCtx.t :=
  (Returns (Some ErrNotSupport), rn).

(** The test [notSupportThisFunc]: its deferred [recover] compares the value
    of a panic with the text "not support this func" and asserts nothing
    when the call returns. *)
Definition notSupportThisFunc (o : outcome (option error)) : bool :=
  match o with
  | Panics e => String.eqb e "not support this func"
  | Returns _ => true
  end.

(** ** Package engine: the store and sync.Map *)

(** Calls into collaborators, in the order they happen. *)
Inductive Event : Type :=
  | EvDecode (dsl : list byte)        (* Parser.DecodeRuleNode(dsl) *)
  | EvInit (def : RuleNode.t)         (* InitNetResourceNodeCtx(.., &def) *)
  | EvDestroy (ctx : loc).            (* ctx.Destroy() *)

(** The node contexts allocated so far, and the trace of the run. *)
Module Store.
Record t : Type := mk {
    ctxs : gmap loc RuleNodeCtx.t;
    trace : list Event
  }.
End Store.

Definition emit (e : Event) (σ : Store.t) : Store.t :=
  Store.mk (Store.ctxs σ) (Store.trace σ ++ [e]).

(** [&RuleNodeCtx{...}]: a pointer no live context has. *)
Definition alloc (ctx : RuleNodeCtx.t) (σ : Store.t) : loc * Store.t :=
  let l := fresh (dom (Store.ctxs σ)) in
  (l, Store.mk (<[l := ctx]> (Store.ctxs σ)) (Store.trace σ)).

(** Modelled from the spec: [ReloadSelf] on the node context at [rn]
    (outside the embedded files; its tests are embedded).  The bytes are
    decoded with the parser of [config], the configuration the context was
    built with, and a replacement is built from the decoded definition, of
    the decoded type and under the decoded id; when either step fails the
    error is returned and the context is left as it is.  On success the
    definition and the instance are replaced in place: the pointer, and so
    every pool slot that holds it, stays.  The trace records the calls of the
    pool; those of a reload are no part of it. *)
Definition ReloadSelf (config : Config.t) (rn : loc) (dsl : list byte) (σ : Store.t)
    : outcome (option error) * Store.t :=
  match Store.ctxs σ !! rn with
  | None => (Panics "invalid memory address or nil pointer dereference", σ)
  | Some ctx =>
      match Config.Parser config dsl with
      | Err err => (Returns (Some err), σ)
      | Ok def =>
          match InitRuleNodeCtx config (RuleNodeCtx.ChainCtx ctx) def with
          | Err err => (Returns (Some err), σ)
          | Ok new =>
              (Returns None,
               Store.mk
                 (<[rn := RuleNodeCtx.mk (RuleNodeCtx.ChainCtx ctx)
                            (RuleNodeCtx.SelfDefinition new) (RuleNodeCtx.Node new)
                            (RuleNodeCtx.isInitNetResource ctx)]> (Store.ctxs σ))
                 (Store.trace σ))
          end
      end
  end.

(** [sync.Map.LoadOrStore]: the value in the map afterwards, and the map. *)
Definition LoadOrStore {V : Type} (m : gmap string V) (key : string) (value : V)
    : V * gmap string V :=
  match m !! key with
  | Some actual => (actual, m)
  | None => (value, <[key := value]> m)
  end.

(** [sync.Map.Range] with a callback that always returns true: the callback
    runs once for each entry present when the walk starts, on the state the
    earlier callbacks left. *)
Definition Range {V S : Type} (m : gmap string V) (f : string -> V -> S -> S) (s : S) : S :=
  foldl (fun acc kv => f kv.1 kv.2 acc) s (map_to_list m).

(** ** NetResourceCtx

    [NetResourceCtx] embeds the [*RuleNodeCtx] it wraps and has no field of
    its own: a pooled context is the pointer to its node context. *)
Module NetResourceCtx.

(** [NewNetResourceCtx]. *)
Definition New (ctx : loc) : loc := ctx.

(** [GetNetResource]: the connection of the node, which must implement
    [types.NetResource].  A pointer to nothing is a nil dereference. *)
Definition GetNetResource (n : loc) (σ : Store.t) : outcome (result any) :=
  match Store.ctxs σ !! n with
  | Some rn =>
      match Node.GetNetResource (RuleNodeCtx.Node rn) with
      | Some r => Returns r
      | None => Returns (Err ErrNotImplemented)
      end
  | None => Panics "invalid memory address or nil pointer dereference"
  end.

(** Modelled from the spec: [Destroy] on a node context (outside the
    embedded files) calls the instance's [Destroy]; the call is recorded. *)
Definition Destroy (n : loc) (σ : Store.t) : Store.t := emit (EvDestroy n) σ.

End NetResourceCtx.

(** ** NodeNetPool: the sub-pool of one node type *)
Module NodeNetPool.

Record t : Type := mk {
    Config : Config.t;
    NodeType : string;
    entries : gmap string loc          (* key: resourceId *)
  }.

Definition with_entries (n : t) (entries' : gmap string loc) : t :=
  mk (Config n) (NodeType n) entries'.

Definition NewFromDef (n : t) (def : RuleNode.t) (σ : Store.t)
    : result loc * t * Store.t :=
  match entries n !! RuleNode.Id def with
  | Some v => (Ok v, n, σ)
  | None =>
      let σ := emit (EvInit def) σ in
      match InitNetResourceNodeCtx (Config n) None def with
      | Ok ctx =>
          let '(rCtx, σ) := alloc ctx σ in
          let rCtx := NetResourceCtx.New rCtx in
          match Node.GetNetResource (RuleNodeCtx.Node ctx) with
          | None => (Err ErrNotImplemented, n, σ)
          | Some _ =>
              (Ok rCtx,
               with_entries n (<[RuleNodeId.Id (GetNodeId ctx) := rCtx]> (entries n)),
               σ)
          end
      | Err err => (Err err, n, σ)
      end
  end.

Definition New (n : t) (id : string) (dsl : list byte) (σ : Store.t)
    : result loc * t * Store.t :=
  match entries n !! id with
  | Some v => (Ok v, n, σ)
  | None =>
      let σ := emit (EvDecode dsl) σ in
      match Config.Parser (Config n) dsl with
      | Ok nodeDef =>
          let nodeDef :=
            if decide (id ≠ "") then
              RuleNode.mk id (RuleNode.Type' nodeDef) (RuleNode.Name nodeDef)
                (RuleNode.DebugMode nodeDef) (RuleNode.Configuration nodeDef)
            else nodeDef in
          NewFromDef n nodeDef σ
      | Err err => (Err err, n, σ)
      end
  end.

Definition Get (n : t) (id : string) : option loc := entries n !! id.

Definition GetNetResource (n : t) (id : string) (σ : Store.t) : outcome (result any) :=
  match Get n id with
  | Some ctx => NetResourceCtx.GetNetResource ctx σ
  | None => Returns (Err (ErrNotFound id))
  end.

Definition Del (n : t) (id : string) (σ : Store.t) : t * Store.t :=
  match entries n !! id with
  | Some v =>
      let σ := NetResourceCtx.Destroy v σ in
      (with_entries n (delete id (entries n)), σ)
  | None => (n, σ)
  end.

Definition Stop (n : t) (σ : Store.t) : t * Store.t :=
  Range (entries n) (fun key _ '(n, σ) => Del n key σ) (n, σ).

Definition GetAll (n : t) : list loc :=
  Range (entries n) (fun _ value items => (items ++ [value])%list) [].

End NodeNetPool.

Definition NewNodeNetPool (config : Config.t) (nodeType : string) : NodeNetPool.t :=
  NodeNetPool.mk config nodeType ∅.

(** ** NetPool: node type to sub-pool

    The outer map holds pointers to sub-pools, and nothing else does: a
    sub-pool is kept by value, and a call on it writes the sub-pool back. *)
Module NetPool.

Record t : Type := mk {
    Config : Config.t;
    nodeNetPoolMap : gmap string NodeNetPool.t   (* key: nodeType *)
  }.

Definition with_map (n : t) (m : gmap string NodeNetPool.t) : t := mk (Config n) m.

Definition New (n : t) (nodeType id : string) (dsl : list byte) (σ : Store.t)
    : result loc * t * Store.t :=
  let '(v, m) := LoadOrStore (nodeNetPoolMap n) nodeType (NewNodeNetPool (Config n) nodeType) in
  let '(r, v, σ) := NodeNetPool.New v id dsl σ in
  (r, with_map n (<[nodeType := v]> m), σ).

Definition NewFromDef (n : t) (def : RuleNode.t) (σ : Store.t)
    : result loc * t * Store.t :=
  let '(v, m) :=
    LoadOrStore (nodeNetPoolMap n) (RuleNode.Type' def)
      (NewNodeNetPool (Config n) (RuleNode.Type' def)) in
  let '(r, v, σ) := NodeNetPool.NewFromDef v def σ in
  (r, with_map n (<[RuleNode.Type' def := v]> m), σ).

Definition Get (n : t) (nodeType id : string) : option loc :=
  match nodeNetPoolMap n !! nodeType with
  | Some v => NodeNetPool.Get v id
  | None => None
  end.

Definition GetNetResource (n : t) (nodeType id : string) (σ : Store.t)
    : outcome (result any) :=
  match nodeNetPoolMap n !! nodeType with
  | Some v => NodeNetPool.GetNetResource v id σ
  | None => Returns (Err (ErrNotFound id))
  end.

Definition Del (n : t) (nodeType id : string) (σ : Store.t) : t * Store.t :=
  match nodeNetPoolMap n !! nodeType with
  | Some v =>
      let '(v, σ) := NodeNetPool.Del v id σ in
      (with_map n (<[nodeType := v]> (nodeNetPoolMap n)), σ)
  | None => (n, σ)
  end.

Definition Stop (n : t) (σ : Store.t) : t * Store.t :=
  Range (nodeNetPoolMap n)
    (fun key value '(n, σ) =>
       let '(_, σ) := NodeNetPool.Stop value σ in
       (with_map n (delete key (nodeNetPoolMap n)), σ))
    (n, σ).

Definition GetAll (n : t) : gmap string (list loc) :=
  Range (nodeNetPoolMap n)
    (fun key value nodeTypeItems => <[key := NodeNetPool.GetAll value]> nodeTypeItems)
    ∅.

End NetPool.

Definition NewNetPool (config : Config.t) : NetPool.t := NetPool.mk config ∅.

End engine.

(** ** Package base: nodeUtils and the lazy connection wrapper *)
Module base.
Import types.

Module NodeUtils.

Definition IsNetPool (config : Config.t) (server : string) : bool :=
  HasPrefix server NodeConfigurationPrefixNetResource.

Definition GetNetResourceId (config : Config.t) (server : string) : string :=
  if IsNetPool config server then
    slice_from (String.length NodeConfigurationPrefixNetResource) server
  else "".

End NodeUtils.

(** [NetResourceNode[T]].  [W] is the state the dial function works on (the
    network, and the client the component keeps for itself); a [func] value
    is nil or a function; [Connecting] is an [int32]. *)
Module NetResourceNode.

Record t (T W : Type) : Type := mk {
    RuleConfig : Config.t;
    NodeType : string;
    NetResourceId : string;
    InitNetResourceFunc : option (W -> result T * W);
    Connecting : Z
  }.
Arguments mk {T W}.
Arguments RuleConfig {T W}.
Arguments NodeType {T W}.
Arguments NetResourceId {T W}.
Arguments InitNetResourceFunc {T W}.
Arguments Connecting {T W}.

Section Methods.
Context {T W : Type}.

(** The type assertion [p.(T)]: the value when [p] holds a [T]. *)
Variable assertT : any -> option T.

Definition Init (x : t T W) (ruleConfig : Config.t) (nodeType server : string)
    (initNetResourceFunc : option (W -> result T * W)) (w : W)
    : outcome (option error) * t T W * W :=
  let x := mk ruleConfig (NodeType x) (NetResourceId x) (InitNetResourceFunc x) (Connecting x) in
  let x := mk (RuleConfig x) nodeType (NetResourceId x) (InitNetResourceFunc x) (Connecting x) in
  let netResourceId := NodeUtils.GetNetResourceId ruleConfig server in
  if decide (netResourceId = "") then
    let x := mk (RuleConfig x) (NodeType x) (NetResourceId x) initNetResourceFunc (Connecting x) in
    match InitNetResourceFunc x with
    | Some f =>
        let '(r, w) := f w in
        (Returns (match r with Ok _ => None | Err err => Some err end), x, w)
    | None => (Panics "invalid memory address or nil pointer dereference", x, w)
    end
  else
    let x := mk (RuleConfig x) (NodeType x) netResourceId (InitNetResourceFunc x) (Connecting x) in
    (Returns None, x, w).

(** [GetClient].  [pools] is what the pool pointers of the process point to,
    [σ] the store of node contexts. *)
Definition GetClient (x : t T W) (pools : gmap loc engine.NetPool.t)
    (σ : engine.Store.t) (w : W) : outcome (result T) * W :=
  if decide (NetResourceId x ≠ "") then
    match Config.NetPool (RuleConfig x) with
    | None => (Returns (Err ErrNetPoolNil), w)
    | Some pool =>
        match pools !! pool with
        | Some netPool =>
            match engine.NetPool.GetNetResource netPool (NodeType x) (NetResourceId x) σ with
            | Returns (Ok p) =>
                match assertT p with
                | Some client => (Returns (Ok client), w)
                | None => (Panics "interface conversion", w)
                end
            | Returns (Err err) => (Returns (Err err), w)
            | Panics msg => (Panics msg, w)
            end
        | None => (Panics "invalid memory address or nil pointer dereference", w)
        end
    end
  else
    match InitNetResourceFunc x with
    | Some f => let '(r, w) := f w in (Returns r, w)
    | None => (Returns (Err ErrClientNotInit), w)
    end.

(** [atomic.CompareAndSwapInt32(&x.Connecting, 0, 1)]. *)
Definition Connect (x : t T W) : bool * t T W :=
  if decide (Connecting x = 0%Z) then
    (true, mk (RuleConfig x) (NodeType x) (NetResourceId x) (InitNetResourceFunc x) 1%Z)
  else (false, x).

(** [atomic.LoadInt32(&x.Connecting) == 1]. *)
Definition IsConnecting (x : t T W) : bool := bool_decide (Connecting x = 1%Z).

(** [atomic.StoreInt32(&x.Connecting, 0)]. *)
Definition Connected (x : t T W) : t T W :=
  mk (RuleConfig x) (NodeType x) (NetResourceId x) (InitNetResourceFunc x) 0%Z.

(** The three guard operations, and a run of them on one wrapper: each
    operation is atomic, so any interleaving of callers is such a run. *)
Inductive GuardOp : Type := OpConnect | OpIsConnecting | OpConnected.

Definition guardStep (x : t T W) (op : GuardOp) : option bool * t T W :=
  match op with
  | OpConnect => let '(b, x) := Connect x in (Some b, x)
  | OpIsConnecting => (Some (IsConnecting x), x)
  | OpConnected => (None, Connected x)
  end.

Fixpoint guardRun (x : t T W) (ops : list GuardOp) : list (option bool) * t T W :=
  match ops with
  | [] => ([], x)
  | op :: ops' =>
      let '(r, x) := guardStep x op in
      let '(rs, x) := guardRun x ops' in
      (r :: rs, x)
  end.

End Methods.
End NetResourceNode.

End base.

(** ** A small configuration to run the code on

    Two registered components, as in the pool test: [mqttClient] implements
    [types.NetResource], [jsFilter] does not.  The parser reads a definition
    written [type/id]. *)
Module fixture.
Import types engine.

Definition mqttClient : Component.t :=
  Component.mk (fun configuration =>
    Ok (Node.mk "mqttClient" configuration (Some (Ok (Dyn "*mqtt.Client" 1%positive))))).

Definition jsFilter : Component.t :=
  Component.mk (fun configuration => Ok (Node.mk "jsFilter" configuration None)).

Definition registry (componentType : string) : option Component.t :=
  if String.eqb componentType "mqttClient" then Some mqttClient
  else if String.eqb componentType "jsFilter" then Some jsFilter
  else None.

Definition parser (dsl : list byte) : result RuleNode.t :=
  match cut "/"%char (string_of_list_byte dsl) with
  | Some (type, id) => Ok (RuleNode.mk id type "" false ∅)
  | None => Err (ErrOther "unexpected end of JSON input")
  end.

Definition config : Config.t := Config.mk parser registry (Some ∅) (Some 1%positive).

Definition mqttDsl : list byte := list_byte_of_string "mqttClient/my_mqtt_client".
Definition jsFilterDsl : list byte := list_byte_of_string "jsFilter/my_jsFilter".

Definition jsFilterDef : RuleNode.t := RuleNode.mk "my_jsFilter" "jsFilter" "" false ∅.

(** A definition that leaves its id empty, and the pool that pools it. *)
Definition anonymousDef : RuleNode.t := RuleNode.mk "" "mqttClient" "" false ∅.

Definition emptyStore : Store.t := Store.mk ∅ [].

(** The pool after its first creation, as the pool test starts. *)
Definition created : result loc * NetPool.t * Store.t :=
  NetPool.New (NewNetPool config) "mqttClient" "my_mqtt_client01" mqttDsl emptyStore.
Definition pool1 : NetPool.t := created.1.2.
Definition store1 : Store.t := created.2.
Definition sub1 : NodeNetPool.t :=
  NodeNetPool.mk config "mqttClient" {["my_mqtt_client01" := 1%positive]}.
Definition anonymous : result loc * NetPool.t * Store.t :=
  NetPool.NewFromDef (NewNetPool config) anonymousDef emptyStore.

(** A wrapper over [*mqtt.Client], modelled by its pointer; the state of
    its dial function counts the dials. *)
Definition assertClient (p : any) : option loc :=
  match p with
  | Dyn ty ptr => if String.eqb ty "*mqtt.Client" then Some ptr else None
  | AnyNil => None
  end.

Definition dial (w : nat) : result loc * nat := (Ok 7%positive, S w).

Definition node0 : base.NetResourceNode.t loc nat :=
  base.NetResourceNode.mk (Config.mk parser registry None None) "" "" None 0%Z.

Definition pools1 : gmap loc NetPool.t := {[1%positive := pool1]}.

End fixture.

(** ** Predicates the properties are stated with *)
Module inv.
Import types engine.

(** A failed pooled creation leaves no context behind: whatever the call
    allocated has had [Destroy] called when the error is returned. *)
Definition ReleasesOnFailure (n : NodeNetPool.t) (def : RuleNode.t) (σ : Store.t) : Prop :=
  forall err n' σ',
    NodeNetPool.NewFromDef n def σ = (Err err, n', σ') ->
    forall l, l ∈ dom (Store.ctxs σ') -> l ∉ dom (Store.ctxs σ) ->
              EvDestroy l ∈ Store.trace σ'.

(** Every entry of a sub-pool points to a live context whose own node id is
    the key it is stored under. *)
Definition EntriesKeyedByOwnId (v : NodeNetPool.t) (σ : Store.t) : Prop :=
  forall id e, NodeNetPool.entries v !! id = Some e ->
    exists ctx, Store.ctxs σ !! e = Some ctx /\ RuleNodeId.Id (GetNodeId ctx) = id.

Definition KeyedByOwnId (n : NetPool.t) (σ : Store.t) : Prop :=
  forall nodeType v, NetPool.nodeNetPoolMap n !! nodeType = Some v ->
    EntriesKeyedByOwnId v σ.

(** The character [c] does not occur in [s]. *)
Fixpoint noChar (c : ascii) (s : string) : bool :=
  match s with
  | EmptyString => true
  | String d s' => negb (Ascii.eqb d c) && noChar c s'
  end.







(** A server string that carries the pool-reference prefix makes [Init]
    record the text after the prefix as the resource id and dial nothing. *)
Definition PrefixMeansPooled {T W : Type} (x : base.NetResourceNode.t T W)
    (ruleConfig : Config.t) (nodeType server : string)
    (f : W -> result T * W) (w : W) : Prop :=
  base.NodeUtils.IsNetPool ruleConfig server = true ->
  base.NetResourceNode.NetResourceId
    (base.NetResourceNode.Init x ruleConfig nodeType server (Some f) w).1.2
  = slice_from (String.length NodeConfigurationPrefixNetResource) server /\
  (base.NetResourceNode.Init x ruleConfig nodeType server (Some f) w).2 = w.

End inv.

(** ** Predicates of the pool as a whole *)
Module poolinv.
Import types engine.

(** The sub-pool a creation call works on: the one stored under the node
    type, or the new one [LoadOrStore] stores. *)
Definition subPool (n : NetPool.t) (nodeType : string) : NodeNetPool.t :=
  default (NewNodeNetPool (NetPool.Config n) nodeType)
          (NetPool.nodeNetPoolMap n !! nodeType).

(** [e] is pooled under [(nodeType, id)]. *)
Definition Pooled (n : NetPool.t) (nodeType id : string) (e : loc) : Prop :=
  exists v, NetPool.nodeNetPoolMap n !! nodeType = Some v /\
            NodeNetPool.entries v !! id = Some e.

(** Every pooled entry points to a live context whose node implements
    [types.NetResource]. *)
Definition PooledAreNetResources (n : NetPool.t) (σ : Store.t) : Prop :=
  forall nodeType id e, Pooled n nodeType id e ->
    exists ctx r, Store.ctxs σ !! e = Some ctx /\
                  Node.GetNetResource (RuleNodeCtx.Node ctx) = Some r.

(** Every pooled entry points to a live context, and no context is pooled
    under two keys. *)
Definition NoAlias (n : NetPool.t) (σ : Store.t) : Prop :=
  (forall nodeType id e, Pooled n nodeType id e -> is_Some (Store.ctxs σ !! e)) /\
  (forall nodeType1 id1 nodeType2 id2 e,
     Pooled n nodeType1 id1 e -> Pooled n nodeType2 id2 e ->
     nodeType1 = nodeType2 /\ id1 = id2).

(** Each sub-pool carries the node type it is stored under and the
    configuration of the pool. *)
Definition TypeKeyed (n : NetPool.t) : Prop :=
  forall nodeType v, NetPool.nodeNetPoolMap n !! nodeType = Some v ->
    NodeNetPool.NodeType v = nodeType /\ NodeNetPool.Config v = NetPool.Config n.

(** The contexts of [σ] are contexts of [σ'], unchanged. *)
Definition StoreExtends (σ σ' : Store.t) : Prop :=
  forall e ctx, Store.ctxs σ !! e = Some ctx -> Store.ctxs σ' !! e = Some ctx.

(** What a creation call on the sub-pool of [nodeType] can leave behind:
    either no entry is added (the call returned a pooled entry, or failed),
    or one entry is added under some id: a context at a fresh pointer whose
    node implements [types.NetResource]. *)
Definition CreationOutcome (n : NetPool.t) (nodeType : string) (σ : Store.t)
    (R : result loc * NetPool.t * Store.t) : Prop :=
  NetPool.Config R.1.2 = NetPool.Config n /\
  ((NetPool.nodeNetPoolMap R.1.2 = <[nodeType := subPool n nodeType]> (NetPool.nodeNetPoolMap n) /\
    (forall e, R.1.1 = Ok e -> exists id, NodeNetPool.entries (subPool n nodeType) !! id = Some e) /\
    StoreExtends σ R.2) \/
   (exists ctx cap id,
      Store.ctxs σ !! fresh (dom (Store.ctxs σ)) = None /\
      R.1.1 = Ok (fresh (dom (Store.ctxs σ))) /\
      NetPool.nodeNetPoolMap R.1.2
      = <[nodeType := NodeNetPool.with_entries (subPool n nodeType)
                        (<[id := fresh (dom (Store.ctxs σ))]>
                           (NodeNetPool.entries (subPool n nodeType)))]>
          (NetPool.nodeNetPoolMap n) /\
      Store.ctxs R.2 = <[fresh (dom (Store.ctxs σ)) := ctx]> (Store.ctxs σ) /\
      Node.GetNetResource (RuleNodeCtx.Node ctx) = Some cap)).

End poolinv.

(** ** Package base: the environment of a message *)
Module nodeUtils.
Import types.

(** Modelled from the spec: [types.RuleMsg] is declared outside the embedded
    files; the fields are the ones the embedded code reads.  [Metadata] is a
    [map[string]string], [Ts] an [int64], [DataType] a string type. *)
Module RuleMsg.
Record t : Type := mk {
    Ts : Z;
    Id : string;
    DataType : string;
    Type' : string;
    Data : string;
    Metadata : gmap string string
  }.
End RuleMsg.

(** The constants of package types the environment is keyed by, declared
    outside the embedded files: [types.IdKey], [types.TsKey], ... and the
    data type [types.JSON].  They are taken as given. *)
Module Keys.
Record t : Type := mk {
    IdKey : string;
    TsKey : string;
    DataKey : string;
    MsgKey : string;
    MetadataKey : string;
    MsgTypeKey : string;
    TypeKey : string;
    DataTypeKey : string;
    JSON : string
  }.
End Keys.

(** A value of the environment, a [map[string]interface{}]: a string, an
    [int64], a [types.DataType], the metadata map, or decoded JSON. *)
Inductive EnvValue : Type :=
  | EString (s : string)
  | EInt64 (z : Z)
  | EDataType (d : string)
  | EMetadata (m : gmap string string)
  | EJson (v : Value).

(** [getEvnAndMetadata].  [Unmarshal] is [json.Unmarshal] into an
    [interface{}]: the decoded value, or nothing when it returns an error.
    The [range] over the metadata visits each of its entries once. *)
Definition getEvnAndMetadata (keys : Keys.t) (Unmarshal : string -> option Value)
    (msg : RuleMsg.t) (useMetadata : bool) : gmap string EnvValue :=
  let data :=
    if String.eqb (RuleMsg.DataType msg) (Keys.JSON keys) then
      match Unmarshal (RuleMsg.Data msg) with
      | Some v => EJson v
      | None => EString (RuleMsg.Data msg)
      end
    else EString (RuleMsg.Data msg) in
  let evn : gmap string EnvValue := ∅ in
  let evn := <[Keys.IdKey keys := EString (RuleMsg.Id msg)]> evn in
  let evn := <[Keys.TsKey keys := EInt64 (RuleMsg.Ts msg)]> evn in
  let evn := <[Keys.DataKey keys := EString (RuleMsg.Data msg)]> evn in
  let evn := <[Keys.MsgKey keys := data]> evn in
  let evn := <[Keys.MetadataKey keys := EMetadata (RuleMsg.Metadata msg)]> evn in
  let evn := <[Keys.MsgTypeKey keys := EString (RuleMsg.Type' msg)]> evn in
  let evn := <[Keys.TypeKey keys := EString (RuleMsg.Type' msg)]> evn in
  let evn := <[Keys.DataTypeKey keys := EDataType (RuleMsg.DataType msg)]> evn in
  if useMetadata then
    foldl (fun evn kv => <[kv.1 := EString kv.2]> evn) evn
          (map_to_list (RuleMsg.Metadata msg))
  else evn.

Definition GetEvn (keys : Keys.t) (Unmarshal : string -> option Value)
    (msg : RuleMsg.t) : gmap string EnvValue :=
  getEvnAndMetadata keys Unmarshal msg false.

Definition GetEvnAndMetadata (keys : Keys.t) (Unmarshal : string -> option Value)
    (msg : RuleMsg.t) : gmap string EnvValue :=
  getEvnAndMetadata keys Unmarshal msg true.

(** [GetVars]; [Vars] is the constant [types.Vars].  The result is nil or a
    new map. *)
Definition GetVars (Vars : string) (configuration : gmap string Value)
    : option (gmap string Value) :=
  match configuration !! Vars with
  | Some v => Some (<[Vars := v]> ∅)
  | None => None
  end.

(** [IsInitNetResource]; the key is the constant
    [types.NodeConfigurationKeyIsInitNetResource]. *)
Definition IsInitNetResource (NodeConfigurationKeyIsInitNetResource : string)
    (configuration : gmap string Value) : bool :=
  match configuration !! NodeConfigurationKeyIsInitNetResource with
  | Some _ => true
  | None => false
  end.

End nodeUtils.

(** ** Package external: the REST call node, message handling *)
Module external.
Import types nodeUtils.

(** Metadata keys. *)
Definition statusMetadataKey : string := "status".
Definition statusCodeMetadataKey : string := "statusCode".
Definition errorBodyMetadataKey : string := "errorBody".
Definition eventTypeMetadataKey : string := "eventType".

(** [*http.Response], the fields [OnMsg] reads.  The client hands out a
    response whose [Body] is not nil. *)
Module Response.
Record t (Body : Type) : Type := mk {
    Status : string;
    StatusCode : Z;
    Body : Body
  }.
Arguments mk {Body}.
Arguments Status {Body}.
Arguments StatusCode {Body}.
Arguments Body {Body}.
End Response.

(** What [httpClient.Do] returns: an error, with or without a response, or a
    response and no error. *)
Inductive DoResult (Body : Type) : Type :=
  | DoErr (response : option (Response.t Body)) (err : error)
  | DoOk (response : Response.t Body).
Arguments DoErr {Body}.
Arguments DoOk {Body}.

(** The libraries [OnMsg] calls into, taken as given: the templates of
    [utils/str], [net/http], [io], [bufio], [strconv], [strings],
    [encoding/json], and the constants of package types.  [Scan] is the run
    of a [bufio.Scanner] over a body: the lines [Scan]/[Text] give, then what
    [Err] returns. *)
Module Lib.
Record t : Type := mk {
    Template : Type;
    IsNotVar : Template -> bool;
    Execute : Template -> option (gmap string EnvValue) -> string;
    Request : Type;
    NewRequest : string -> string -> option string -> result Request;
    HeaderSet : Request -> string -> string -> Request;
    Client : Type;
    Body : Type;
    Do : Client -> Request -> DoResult Body;
    ReadAll : Body -> string * option error;
    Scan : Body -> list string * option error;
    isEOF : error -> bool;
    Itoa : Z -> string;
    TrimSpace : string -> string;
    Unmarshal : string -> option Value;
    keys : Keys.t;
    Failure : string
  }.
End Lib.

(** [ctx.TellSuccess], [ctx.TellFailure], [ctx.TellNext]: the message is
    passed by value, so a call carries the message as it is at the call. *)
Inductive Tell : Type :=
  | TellSuccess (msg : RuleMsg.t)
  | TellFailure (msg : RuleMsg.t) (err : error)
  | TellNext (msg : RuleMsg.t) (relationTypes : list string).

(** What [OnMsg] does to the outside, in order: a call on the rule context,
    or the deferred [response.Body.Close()]. *)
Inductive Effect : Type :=
  | ETell (t : Tell)
  | EClose.

(** [msg.Metadata.PutValue(key, value)]. *)
Definition PutValue (msg : RuleMsg.t) (key value : string) : RuleMsg.t :=
  RuleMsg.mk (RuleMsg.Ts msg) (RuleMsg.Id msg) (RuleMsg.DataType msg) (RuleMsg.Type' msg)
    (RuleMsg.Data msg) (<[key := value]> (RuleMsg.Metadata msg)).

(** [msg.Data = data]. *)
Definition SetData (msg : RuleMsg.t) (data : string) : RuleMsg.t :=
  RuleMsg.mk (RuleMsg.Ts msg) (RuleMsg.Id msg) (RuleMsg.DataType msg) (RuleMsg.Type' msg)
    data (RuleMsg.Metadata msg).

(** [strings.SplitN(s, sep, 2)] for a separator of one character. *)
Definition SplitN2 (s : string) (sep : ascii) : list string :=
  match engine.cut sep s with
  | Some (before, after) => [before; after]
  | None => [s]
  end.

(** The node after [Init]: configuration, client and templates are set.
    [headersTemplate] is a Go map from template to template; it is kept as
    the list of its entries in the order [range] visits them. *)
Module RestApiCallNode.
Record t (lib : Lib.t) : Type := mk {
    RequestMethod : string;
    WithoutRequestBody : bool;
    httpClient : Lib.Client lib;
    isStream : bool;
    urlTemplate : Lib.Template lib;
    headersTemplate : list (Lib.Template lib * Lib.Template lib);
    hasVar : bool
  }.
Arguments mk {lib}.
Arguments RequestMethod {lib}.
Arguments WithoutRequestBody {lib}.
Arguments httpClient {lib}.
Arguments isStream {lib}.
Arguments urlTemplate {lib}.
Arguments headersTemplate {lib}.
Arguments hasVar {lib}.
End RestApiCallNode.

(** The loop of [readFromStream] over the lines of the scanner: the calls on
    the rule context, and the message as the loop leaves it. *)
Fixpoint readLines (lib : Lib.t) (msg : RuleMsg.t) (lines : list string)
    : list Tell * RuleMsg.t :=
  match lines with
  | [] => ([], msg)
  | line :: rest =>
      if decide (line = "") then readLines lib msg rest
      else if HasPrefix line ":" then readLines lib msg rest
      else
        let parts := SplitN2 line ":"%char in
        if decide (length parts ≠ 2) then readLines lib msg rest
        else
          let eventType := Lib.TrimSpace lib (nth 0 parts "") in
          let eventData := Lib.TrimSpace lib (nth 1 parts "") in
          let msg := PutValue msg eventTypeMetadataKey eventType in
          let msg := SetData msg eventData in
          let '(tells, msg') := readLines lib msg rest in
          (TellSuccess msg :: tells, msg')
  end.

(** [readFromStream]. *)
Definition readFromStream (lib : Lib.t) (msg : RuleMsg.t)
    (resp : Response.t (Lib.Body lib)) : list Tell :=
  let '(lines, scanErr) := Lib.Scan lib (Response.Body resp) in
  let '(tells, msg) := readLines lib msg lines in
  match scanErr with
  | Some err =>
      if negb (Lib.isEOF lib err) then (tells ++ [TellFailure msg err])%list else tells
  | None => tells
  end.

(** [OnMsg]. *)
Definition OnMsg (lib : Lib.t) (x : RestApiCallNode.t lib) (msg : RuleMsg.t) : list Effect :=
  let evn :=
    if negb (Lib.IsNotVar lib (RestApiCallNode.urlTemplate x)) || RestApiCallNode.hasVar x
    then Some (GetEvnAndMetadata (Lib.keys lib) (Lib.Unmarshal lib) msg)
    else None in
  let endpointUrl := Lib.Execute lib (RestApiCallNode.urlTemplate x) evn in
  let req :=
    if RestApiCallNode.WithoutRequestBody x then
      Lib.NewRequest lib (RestApiCallNode.RequestMethod x) endpointUrl None
    else
      Lib.NewRequest lib (RestApiCallNode.RequestMethod x) endpointUrl
        (Some (RuleMsg.Data msg)) in
  match req with
  | Err err => [ETell (TellFailure msg err)]
  | Ok req =>
      let req :=
        foldl (fun req kv =>
                 Lib.HeaderSet lib req (Lib.Execute lib kv.1 evn) (Lib.Execute lib kv.2 evn))
              req (RestApiCallNode.headersTemplate x) in
      match Lib.Do lib (RestApiCallNode.httpClient x) req with
      | DoErr response err =>
          let msg := PutValue msg errorBodyMetadataKey (Error err) in
          (ETell (TellFailure msg err)
           :: match response with Some _ => [EClose] | None => [] end)
      | DoOk response =>
          ((if RestApiCallNode.isStream x then
              let msg := PutValue msg statusMetadataKey (Response.Status response) in
              let msg := PutValue msg statusCodeMetadataKey
                           (Lib.Itoa lib (Response.StatusCode response)) in
              if decide (Response.StatusCode response = 200%Z) then
                ETell <$> readFromStream lib msg response
              else
                let '(b, _) := Lib.ReadAll lib (Response.Body response) in
                let msg := PutValue msg errorBodyMetadataKey b in
                [ETell (TellNext msg [Lib.Failure lib])]
            else
              match Lib.ReadAll lib (Response.Body response) with
              | (b, Some err) =>
                  let msg := PutValue msg errorBodyMetadataKey (Error err) in
                  [ETell (TellFailure msg err)]
              | (b, None) =>
                  let msg := PutValue msg statusMetadataKey (Response.Status response) in
                  let msg := PutValue msg statusCodeMetadataKey
                               (Lib.Itoa lib (Response.StatusCode response)) in
                  if decide (Response.StatusCode response = 200%Z) then
                    let msg := SetData msg b in
                    [ETell (TellSuccess msg)]
                  else
                    let strB := b in
                    let msg := PutValue msg errorBodyMetadataKey strB in
                    [ETell (TellFailure msg (ErrOther strB))]
              end) ++ [EClose])%list
      end
  end.

(** The first part of [OnMsg], up to the call of the client: the request
    for the resolved url, with the payload as its body unless the node is
    configured without one, and with the resolved headers set; or the error
    of [http.NewRequest]. *)
Definition requestOf (lib : Lib.t) (x : RestApiCallNode.t lib) (msg : RuleMsg.t)
    : result (Lib.Request lib) :=
  let evn :=
    if negb (Lib.IsNotVar lib (RestApiCallNode.urlTemplate x)) || RestApiCallNode.hasVar x
    then Some (GetEvnAndMetadata (Lib.keys lib) (Lib.Unmarshal lib) msg)
    else None in
  let endpointUrl := Lib.Execute lib (RestApiCallNode.urlTemplate x) evn in
  let req :=
    if RestApiCallNode.WithoutRequestBody x then
      Lib.NewRequest lib (RestApiCallNode.RequestMethod x) endpointUrl None
    else
      Lib.NewRequest lib (RestApiCallNode.RequestMethod x) endpointUrl
        (Some (RuleMsg.Data msg)) in
  match req with
  | Err err => Err err
  | Ok req =>
      Ok (foldl (fun req kv =>
                   Lib.HeaderSet lib req (Lib.Execute lib kv.1 evn)
                     (Lib.Execute lib kv.2 evn))
                req (RestApiCallNode.headersTemplate x))
  end.

(** The message a call on the rule context carries. *)
Definition told (t : Tell) : RuleMsg.t :=
  match t with
  | TellSuccess msg => msg
  | TellFailure msg _ => msg
  | TellNext msg _ => msg
  end.

(** The calls on the rule context among the effects. *)
Definition tells (effects : list Effect) : list Tell :=
  omap (fun e => match e with ETell t => Some t | EClose => None end) effects.

(** The event a line of a stream stands for, if any: nothing for an empty
    line, a comment line, or a line without colon; else the text before the
    first colon and the text after it, both trimmed. *)
Definition eventOf (lib : Lib.t) (line : string) : option (string * string) :=
  if decide (line = "") then None
  else if HasPrefix line ":" then None
  else match engine.cut ":"%char line with
       | Some (before, after) => Some (Lib.TrimSpace lib before, Lib.TrimSpace lib after)
       | None => None
       end.

(** The messages told for a list of events, each built on the one before. *)
Fixpoint eventMsgs (msg : RuleMsg.t) (events : list (string * string)) : list RuleMsg.t :=
  match events with
  | [] => []
  | (eventType, eventData) :: rest =>
      let msg := SetData (PutValue msg eventTypeMetadataKey eventType) eventData in
      msg :: eventMsgs msg rest
  end.

(** [m] is [msg] up to its payload and the four metadata keys of the node:
    same id, timestamp, type and data type, and the same metadata under
    every other key. *)
Definition Framed (msg m : RuleMsg.t) : Prop :=
  RuleMsg.Id m = RuleMsg.Id msg /\
  RuleMsg.Ts m = RuleMsg.Ts msg /\
  RuleMsg.Type' m = RuleMsg.Type' msg /\
  RuleMsg.DataType m = RuleMsg.DataType msg /\
  forall k, k ∉ [statusMetadataKey; statusCodeMetadataKey; errorBodyMetadataKey;
                 eventTypeMetadataKey] ->
            RuleMsg.Metadata m !! k = RuleMsg.Metadata msg !! k.

(** The message with the status line and the status code of a response in
    its metadata. *)
Definition withStatus (lib : Lib.t) (msg : RuleMsg.t) (resp : Response.t (Lib.Body lib))
    : RuleMsg.t :=
  PutValue (PutValue msg statusMetadataKey (Response.Status resp))
    statusCodeMetadataKey (Lib.Itoa lib (Response.StatusCode resp)).

(** The ways through [OnMsg], each with the effects it has: the request
    cannot be built; the client returns an error; a streaming node gets
    status 200, or another status; a plain node cannot read the body, gets
    status 200, or another status. *)
Inductive OnMsgCase (lib : Lib.t) (x : RestApiCallNode.t lib) (msg : RuleMsg.t)
    : list Effect -> Prop :=
  | CaseRequest err :
      OnMsgCase lib x msg [ETell (TellFailure msg err)]
  | CaseTransport (response : option (Response.t (Lib.Body lib))) err :
      OnMsgCase lib x msg
        (ETell (TellFailure (PutValue msg errorBodyMetadataKey (Error err)) err)
         :: match response with Some _ => [EClose] | None => [] end)
  | CaseStream resp :
      RestApiCallNode.isStream x = true ->
      Response.StatusCode resp = 200%Z ->
      OnMsgCase lib x msg
        ((ETell <$> readFromStream lib (withStatus lib msg resp) resp) ++ [EClose])%list
  | CaseStreamStatus resp :
      RestApiCallNode.isStream x = true ->
      Response.StatusCode resp ≠ 200%Z ->
      OnMsgCase lib x msg
        [ETell (TellNext
                  (PutValue (withStatus lib msg resp) errorBodyMetadataKey
                     (Lib.ReadAll lib (Response.Body resp)).1)
                  [Lib.Failure lib]);
         EClose]
  | CaseRead resp b err :
      RestApiCallNode.isStream x = false ->
      Lib.ReadAll lib (Response.Body resp) = (b, Some err) ->
      OnMsgCase lib x msg
        [ETell (TellFailure (PutValue msg errorBodyMetadataKey (Error err)) err); EClose]
  | CaseSuccess resp b :
      RestApiCallNode.isStream x = false ->
      Lib.ReadAll lib (Response.Body resp) = (b, None) ->
      Response.StatusCode resp = 200%Z ->
      OnMsgCase lib x msg
        [ETell (TellSuccess (SetData (withStatus lib msg resp) b)); EClose]
  | CaseStatus resp b :
      RestApiCallNode.isStream x = false ->
      Lib.ReadAll lib (Response.Body resp) = (b, None) ->
      Response.StatusCode resp ≠ 200%Z ->
      OnMsgCase lib x msg
        [ETell (TellFailure (PutValue (withStatus lib msg resp) errorBodyMetadataKey b)
                  (ErrOther b));
         EClose].

End external.

(** ** A server to run the REST call node on

    Templates without variables, a request that is its URL, and a client
    that answers by the URL: the body is the list of its lines. *)
Module restfixture.
Import types nodeUtils external.

Fixpoint trimLeft (s : string) : string :=
  match s with
  | String c s' => if Ascii.eqb c " "%char then trimLeft s' else s
  | EmptyString => EmptyString
  end.

Definition reverse (s : string) : string :=
  string_of_list_ascii (rev (list_ascii_of_string s)).

Definition trim (s : string) : string := reverse (trimLeft (reverse (trimLeft s))).

Definition answer (url : string) : DoResult (list string) :=
  if String.eqb url "http://sse" then
    DoOk (Response.mk "200 OK" 200%Z [": comment"; ""; "event: add"; "data: a:b"; "noise"])
  else if String.eqb url "http://ok" then
    DoOk (Response.mk "200 OK" 200%Z ["done"])
  else if String.eqb url "http://missing" then
    DoOk (Response.mk "404 Not Found" 404%Z ["no such page"])
  else DoErr None (ErrOther "connection refused").

Definition lib : Lib.t :=
  Lib.mk string (fun _ => true) (fun t _ => t)
    string (fun _ url _ => Ok url) (fun req _ _ => req)
    unit (list string) (fun _ req => answer req)
    (fun body => (String.concat "" body, None))
    (fun body => (body, None))
    (fun _ => false)
    (fun z => if decide (z = 200%Z) then "200" else "404")
    trim
    (fun _ => None)
    (Keys.mk "id" "ts" "data" "msg" "metadata" "msgType" "type" "dataType" "JSON")
    "Failure".

Definition node (url : string) (isStream : bool) : RestApiCallNode.t lib :=
  RestApiCallNode.mk (lib := lib) "POST" false tt isStream url [] false.

Definition msg : RuleMsg.t :=
  RuleMsg.mk 0 "m1" "JSON" "TELEMETRY_MSG" "{}" {["productType" := "test01"]}.




End restfixture.

(** * Properties *)

Import types engine inv.

(** ** Record and map bookkeeping *)

Lemma with_entries_id (n : NodeNetPool.t) :
  NodeNetPool.with_entries n (NodeNetPool.entries n) = n.
Proof. by destruct n. Qed.

Lemma with_map_id (n : NetPool.t) :
  NetPool.with_map n (NetPool.nodeNetPoolMap n) = n.
Proof. by destruct n. Qed.

Lemma LoadOrStore_hit {V : Type} (m : gmap string V) key value actual :
  m !! key = Some actual -> LoadOrStore m key value = (actual, m).
Proof. intros H. unfold LoadOrStore. by rewrite H. Qed.

Lemma LoadOrStore_miss {V : Type} (m : gmap string V) key value :
  m !! key = None -> LoadOrStore m key value = (value, <[key := value]> m).
Proof. intros H. unfold LoadOrStore. by rewrite H. Qed.

(** ** Creation returns what is pooled already *)

Lemma NodeNetPool_New_hit (n : NodeNetPool.t) id dsl σ e :
  NodeNetPool.entries n !! id = Some e ->
  NodeNetPool.New n id dsl σ = (Ok e, n, σ).
Proof. intros H. unfold NodeNetPool.New. by rewrite H. Qed.

Lemma NodeNetPool_NewFromDef_hit (n : NodeNetPool.t) def σ e :
  NodeNetPool.entries n !! RuleNode.Id def = Some e ->
  NodeNetPool.NewFromDef n def σ = (Ok e, n, σ).
Proof. intros H. unfold NodeNetPool.NewFromDef. by rewrite H. Qed.

(** C1. When an entry for (type, id) is pooled, [NetPool.New] returns that
    very entry (the same pointer) and leaves the pool, the store of node
    contexts and the trace as they were: the definition bytes are not decoded
    and no context is constructed, whatever [dsl] holds.  The same goes for
    [NetPool.NewFromDef] and a definition whose type and id are pooled. *)
Theorem New_existing_entry_idempotent
    (n : NetPool.t) (nodeType id : string) (v : NodeNetPool.t) (e : loc) (σ : Store.t) :
  NetPool.nodeNetPoolMap n !! nodeType = Some v ->
  NodeNetPool.entries v !! id = Some e ->
  (forall dsl, NetPool.New n nodeType id dsl σ = (Ok e, n, σ)) /\
  (forall def, RuleNode.Type' def = nodeType -> RuleNode.Id def = id ->
     NetPool.NewFromDef n def σ = (Ok e, n, σ)).
Proof.
  intros Hv He. split.
  - intros dsl. unfold NetPool.New.
    rewrite (LoadOrStore_hit _ _ _ _ Hv), (NodeNetPool_New_hit _ _ _ _ _ He).
    by rewrite insert_id, with_map_id.
  - intros def <- <-. unfold NetPool.NewFromDef.
    rewrite (LoadOrStore_hit _ _ _ _ Hv), (NodeNetPool_NewFromDef_hit _ _ _ _ He).
    by rewrite insert_id, with_map_id.
Qed.

Lemma New_existing_entry_idempotent_witness :
  let sub := NodeNetPool.mk fixture.config "mqttClient" {["my_mqtt_client01" := 1%positive]} in
  let pool := NetPool.mk fixture.config {["mqttClient" := sub]} in
  NetPool.New pool "mqttClient" "my_mqtt_client01" fixture.jsFilterDsl fixture.emptyStore
  = (Ok 1%positive, pool, fixture.emptyStore).
Proof.
  intros sub pool.
  apply (proj1 (New_existing_entry_idempotent pool "mqttClient" "my_mqtt_client01" sub
                  1%positive fixture.emptyStore eq_refl eq_refl)).
Defined.

(** ** Creation of a component that is no network resource *)

Lemma NewFromDef_miss (n : NodeNetPool.t) def σ :
  NodeNetPool.entries n !! RuleNode.Id def = None ->
  NodeNetPool.NewFromDef n def σ =
    match InitNetResourceNodeCtx (NodeNetPool.Config n) None def with
    | Ok ctx =>
        let l := fresh (dom (Store.ctxs σ)) in
        let σ' := Store.mk (<[l := ctx]> (Store.ctxs σ)) (Store.trace σ ++ [EvInit def]) in
        match Node.GetNetResource (RuleNodeCtx.Node ctx) with
        | None => (Err ErrNotImplemented, n, σ')
        | Some _ =>
            (Ok l,
             NodeNetPool.with_entries n
               (<[RuleNodeId.Id (GetNodeId ctx) := l]> (NodeNetPool.entries n)),
             σ')
        end
    | Err err => (Err err, n, emit (EvInit def) σ)
    end.
Proof.
  intros H. unfold NodeNetPool.NewFromDef. rewrite H.
  destruct (InitNetResourceNodeCtx _ _ _) as [ctx|err]; [|done].
  by destruct (Node.GetNetResource _).
Qed.

(** C2. When [NodeNetPool.NewFromDef] instantiates the component of a
    definition (no entry is pooled under the definition's id and the node
    context is constructed) and the component does not implement
    [types.NetResource], the call returns [ErrNotImplemented] and no context,
    and the sub-pool, hence its set of entries, is what it was. *)
Theorem NewFromDef_not_net_resource
    (n : NodeNetPool.t) (def : RuleNode.t) (σ : Store.t) (ctx : RuleNodeCtx.t) :
  NodeNetPool.entries n !! RuleNode.Id def = None ->
  InitNetResourceNodeCtx (NodeNetPool.Config n) None def = Ok ctx ->
  Node.GetNetResource (RuleNodeCtx.Node ctx) = None ->
  (NodeNetPool.NewFromDef n def σ).1.1 = Err ErrNotImplemented /\
  (NodeNetPool.NewFromDef n def σ).1.2 = n /\
  NodeNetPool.entries (NodeNetPool.NewFromDef n def σ).1.2 = NodeNetPool.entries n.
Proof.
  intros Hmiss Hinit Hcap.
  rewrite (NewFromDef_miss _ _ _ Hmiss), Hinit. cbn. by rewrite Hcap.
Qed.

Lemma NewFromDef_not_net_resource_witness :
  let n := NewNodeNetPool fixture.config "jsFilter" in
  (NodeNetPool.NewFromDef n fixture.jsFilterDef fixture.emptyStore).1.1 = Err ErrNotImplemented /\
  (NodeNetPool.NewFromDef n fixture.jsFilterDef fixture.emptyStore).1.2 = n /\
  NodeNetPool.entries (NodeNetPool.NewFromDef n fixture.jsFilterDef fixture.emptyStore).1.2
    = NodeNetPool.entries n.
Proof.
  intros n.
  apply (NewFromDef_not_net_resource n fixture.jsFilterDef fixture.emptyStore
           (RuleNodeCtx.mk None fixture.jsFilterDef (Node.mk "jsFilter" ∅ None) true)).
  - reflexivity.
  - vm_compute. reflexivity.
  - reflexivity.
Defined.

(** ** What a failed creation leaves behind *)

(** The claim that a failed pooled creation destroys the context it had
    constructed does not hold: pooling the [jsFilter] definition allocates
    and initialises a context, returns [ErrNotImplemented], and the trace of
    the call holds no [Destroy]. *)
Lemma NewFromDef_failure_not_released :
  ~ ReleasesOnFailure (NewNodeNetPool fixture.config "jsFilter")
      fixture.jsFilterDef fixture.emptyStore.
Proof.
  intros H.
  specialize (H ErrNotImplemented (NewNodeNetPool fixture.config "jsFilter")
                (NodeNetPool.NewFromDef (NewNodeNetPool fixture.config "jsFilter")
                   fixture.jsFilterDef fixture.emptyStore).2 eq_refl 1%positive).
  assert (Hin : EvDestroy 1%positive ∈ [EvInit fixture.jsFilterDef]).
  { apply H.
    - apply elem_of_dom. by eexists.
    - rewrite elem_of_dom. intros [x Hx]. discriminate Hx. }
  apply list_elem_of_singleton in Hin. discriminate Hin.
Qed.

(** C3 (amended). When [NodeNetPool.NewFromDef] fails, the sub-pool is what
    it was and the call has made one call into a collaborator, the
    construction of the node context; it has called no [Destroy].  Either the
    construction itself failed, and then nothing was allocated; or the
    component is no network resource, and then the constructed context stays
    allocated at a fresh pointer that the call neither stores nor returns. *)
Theorem NewFromDef_failure_effects
    (n n' : NodeNetPool.t) (def : RuleNode.t) (σ σ' : Store.t) (err : error) :
  NodeNetPool.NewFromDef n def σ = (Err err, n', σ') ->
  n' = n /\
  Store.trace σ' = (Store.trace σ ++ [EvInit def])%list /\
  ((InitNetResourceNodeCtx (NodeNetPool.Config n) None def = Err err /\
    Store.ctxs σ' = Store.ctxs σ) \/
   (exists ctx,
      InitNetResourceNodeCtx (NodeNetPool.Config n) None def = Ok ctx /\
      Node.GetNetResource (RuleNodeCtx.Node ctx) = None /\
      err = ErrNotImplemented /\
      Store.ctxs σ !! fresh (dom (Store.ctxs σ)) = None /\
      Store.ctxs σ' = <[fresh (dom (Store.ctxs σ)) := ctx]> (Store.ctxs σ))).
Proof.
  intros Hcall.
  destruct (NodeNetPool.entries n !! RuleNode.Id def) as [e|] eqn:Hload.
  { rewrite (NodeNetPool_NewFromDef_hit _ _ _ _ Hload) in Hcall. discriminate Hcall. }
  rewrite (NewFromDef_miss _ _ _ Hload) in Hcall.
  destruct (InitNetResourceNodeCtx _ _ _) as [ctx|err0] eqn:Hinit.
  - cbn in Hcall.
    destruct (Node.GetNetResource (RuleNodeCtx.Node ctx)) eqn:Hcap; [discriminate Hcall|].
    injection Hcall as <- <- <-. repeat split; [|done..].
    right. exists ctx. repeat split; try done.
    apply not_elem_of_dom, is_fresh.
  - injection Hcall as <- <- <-. repeat split; try done. by left.
Qed.

Lemma NewFromDef_failure_effects_witness :
  let n := NewNodeNetPool fixture.config "jsFilter" in
  let σ' := (NodeNetPool.NewFromDef n fixture.jsFilterDef fixture.emptyStore).2 in
  Store.trace σ' = [EvInit fixture.jsFilterDef] /\
  exists ctx, Store.ctxs σ' = {[1%positive := ctx]}.
Proof.
  intros n σ'.
  destruct (NewFromDef_failure_effects n n fixture.jsFilterDef fixture.emptyStore σ'
              ErrNotImplemented eq_refl) as (_ & Htrace & Hctxs).
  split; [exact Htrace|].
  destruct Hctxs as [[Hinit _]|(ctx & _ & _ & _ & _ & Hctxs)].
  - vm_compute in Hinit. discriminate Hinit.
  - exists ctx. exact Hctxs.
Defined.

(** ** Stop *)

Lemma Del_unfold (n : NodeNetPool.t) id σ :
  NodeNetPool.Del n id σ =
    (NodeNetPool.with_entries n (delete id (NodeNetPool.entries n)),
     match NodeNetPool.entries n !! id with
     | Some v => emit (EvDestroy v) σ
     | None => σ
     end).
Proof.
  unfold NodeNetPool.Del.
  destruct (NodeNetPool.entries n !! id) eqn:H; [done|].
  by rewrite delete_id, with_entries_id.
Qed.

(** Deleting the keys of a list one after the other: the keys are gone, the
    node contexts are untouched, and each entry that was deleted has been
    destroyed. *)
Lemma Del_each (kvs : list (string * loc)) : forall (n : NodeNetPool.t) (σ : Store.t),
  let r := foldl (fun acc kv =>
                    (fun key (_ : loc) '(n, σ) => NodeNetPool.Del n key σ) kv.1 kv.2 acc)
                 (n, σ) kvs in
  (forall k, NodeNetPool.entries r.1 !! k
             = if decide (k ∈ kvs.*1) then None else NodeNetPool.entries n !! k) /\
  Store.ctxs r.2 = Store.ctxs σ /\
  exists evs, Store.trace r.2 = (Store.trace σ ++ evs)%list /\
    (forall k e, k ∈ kvs.*1 -> NodeNetPool.entries n !! k = Some e -> EvDestroy e ∈ evs) /\
    (forall ev, ev ∈ evs ->
       exists k e, NodeNetPool.entries n !! k = Some e /\ ev = EvDestroy e).
Proof.
  induction kvs as [|[k1 e1] kvs IH]; intros n σ r.
  - subst r. cbn. split; [|split; [done|]].
    + intros k. case_decide as Hk; [|done]. by apply elem_of_nil in Hk.
    + exists []. rewrite app_nil_r. split; [done|]. split.
      * intros k e Hk. by apply elem_of_nil in Hk.
      * intros ev Hev. by apply elem_of_nil in Hev.
  - subst r. cbn [foldl fst snd]. rewrite Del_unfold.
    specialize (IH (NodeNetPool.with_entries n (delete k1 (NodeNetPool.entries n)))
                   (match NodeNetPool.entries n !! k1 with
                    | Some v => emit (EvDestroy v) σ
                    | None => σ
                    end)).
    cbn zeta in IH. destruct IH as (Hlook & Hctxs & evs & Htrace & Hall & Honly).
    cbn [fmap list_fmap fst]. split; [|split].
    + intros k. rewrite Hlook.
      destruct (decide (k = k1)) as [->|Hne].
      * rewrite (decide_True (P := k1 ∈ k1 :: kvs.*1)) by apply list_elem_of_here.
        case_decide; [done|]. cbn. apply lookup_delete_eq.
      * case_decide as Hin.
        -- by rewrite decide_True by (by apply list_elem_of_further).
        -- rewrite decide_False.
           ++ cbn. by apply lookup_delete_ne.
           ++ intros [?|?]%elem_of_cons; done.
    + rewrite Hctxs. by destruct (NodeNetPool.entries n !! k1).
    + destruct (NodeNetPool.entries n !! k1) as [v1|] eqn:H1.
      * exists (EvDestroy v1 :: evs). split; [|split].
        -- rewrite Htrace. cbn. by rewrite <- app_assoc.
        -- intros k e [->|Hk]%elem_of_cons Hke.
           ++ rewrite H1 in Hke. injection Hke as <-. apply list_elem_of_here.
           ++ destruct (decide (k = k1)) as [->|Hne].
              ** rewrite H1 in Hke. injection Hke as <-. apply list_elem_of_here.
              ** apply list_elem_of_further, (Hall k e Hk).
                 cbn. by rewrite lookup_delete_ne.
        -- intros ev [->|Hev]%elem_of_cons; [by exists k1, v1|].
           destruct (Honly ev Hev) as (k & e & Hke & ->).
           cbn in Hke. apply lookup_delete_Some in Hke as [_ Hke]. by exists k, e.
      * exists evs. split; [done|]. split.
        -- intros k e [->|Hk]%elem_of_cons Hke; [congruence|].
           apply (Hall k e Hk). cbn. rewrite lookup_delete_ne; [done|congruence].
        -- intros ev Hev. destruct (Honly ev Hev) as (k & e & Hke & ->).
           cbn in Hke. apply lookup_delete_Some in Hke as [_ Hke]. by exists k, e.
Qed.

(** What [NodeNetPool.Stop] does to a sub-pool. *)
Lemma NodeNetPool_Stop_spec (n : NodeNetPool.t) (σ : Store.t) :
  NodeNetPool.entries (NodeNetPool.Stop n σ).1 = ∅ /\
  Store.ctxs (NodeNetPool.Stop n σ).2 = Store.ctxs σ /\
  exists evs, Store.trace (NodeNetPool.Stop n σ).2 = (Store.trace σ ++ evs)%list /\
    (forall id e, NodeNetPool.entries n !! id = Some e -> EvDestroy e ∈ evs) /\
    (forall ev, ev ∈ evs ->
       exists id e, NodeNetPool.entries n !! id = Some e /\ ev = EvDestroy e).
Proof.
  unfold NodeNetPool.Stop, Range.
  destruct (Del_each (map_to_list (NodeNetPool.entries n)) n σ)
    as (Hlook & Hctxs & evs & Htrace & Hall & Honly).
  split; [|split; [done|]].
  - apply map_empty. intros k. rewrite Hlook. case_decide as Hin; [done|].
    destruct (NodeNetPool.entries n !! k) as [e|] eqn:Hk; [|done].
    exfalso. apply Hin. apply list_elem_of_fmap. exists (k, e). split; [done|].
    by apply elem_of_map_to_list.
  - exists evs. split; [done|]. split; [|done].
    intros id e Hid. apply (Hall id e); [|done].
    apply list_elem_of_fmap. exists (id, e). split; [done|].
    by apply elem_of_map_to_list.
Qed.

(** Stopping the sub-pools of a list one after the other and deleting their
    keys from the outer map. *)
Lemma Stop_each (kvs : list (string * NodeNetPool.t)) : forall (n : NetPool.t) (σ : Store.t),
  let r := foldl (fun acc kv =>
                    (fun key value '(n, σ) =>
                       let '(_, σ) := NodeNetPool.Stop value σ in
                       (NetPool.with_map n (delete key (NetPool.nodeNetPoolMap n)), σ))
                      kv.1 kv.2 acc)
                 (n, σ) kvs in
  (forall k, NetPool.nodeNetPoolMap r.1 !! k
             = if decide (k ∈ kvs.*1) then None else NetPool.nodeNetPoolMap n !! k) /\
  Store.ctxs r.2 = Store.ctxs σ /\
  exists evs, Store.trace r.2 = (Store.trace σ ++ evs)%list /\
    (forall k v id e, (k, v) ∈ kvs -> NodeNetPool.entries v !! id = Some e ->
       EvDestroy e ∈ evs) /\
    (forall ev, ev ∈ evs ->
       exists k v id e, (k, v) ∈ kvs /\ NodeNetPool.entries v !! id = Some e /\
                        ev = EvDestroy e).
Proof.
  induction kvs as [|[k1 v1] kvs IH]; intros n σ r.
  - subst r. cbn. split; [|split; [done|]].
    + intros k. case_decide as Hk; [|done]. by apply elem_of_nil in Hk.
    + exists []. rewrite app_nil_r. split; [done|]. split.
      * intros k v id e Hk. by apply elem_of_nil in Hk.
      * intros ev Hev. by apply elem_of_nil in Hev.
  - subst r. cbn [foldl fst snd].
    destruct (NodeNetPool_Stop_spec v1 σ) as (_ & Hc1 & evs1 & Ht1 & Hall1 & Honly1).
    destruct (NodeNetPool.Stop v1 σ) as [v1' σ1]. cbn [fst snd] in Hc1, Ht1.
    specialize (IH (NetPool.with_map n (delete k1 (NetPool.nodeNetPoolMap n))) σ1).
    cbn zeta in IH. destruct IH as (Hlook & Hctxs & evs & Htrace & Hall & Honly).
    cbn [fmap list_fmap fst]. split; [|split].
    + intros k. rewrite Hlook.
      destruct (decide (k = k1)) as [->|Hne].
      * rewrite (decide_True (P := k1 ∈ k1 :: kvs.*1)) by apply list_elem_of_here.
        case_decide; [done|]. cbn. apply lookup_delete_eq.
      * case_decide as Hin.
        -- by rewrite decide_True by (by apply list_elem_of_further).
        -- rewrite decide_False.
           ++ cbn. by apply lookup_delete_ne.
           ++ intros [?|?]%elem_of_cons; done.
    + by rewrite Hctxs.
    + exists (evs1 ++ evs)%list. split; [|split].
      * by rewrite Htrace, Ht1, app_assoc.
      * intros k v id e [Heq|Hk]%elem_of_cons Hid; apply elem_of_app.
        -- injection Heq as -> ->. left. by apply (Hall1 id e).
        -- right. by apply (Hall k v id e).
      * intros ev [Hev|Hev]%elem_of_app.
        -- destruct (Honly1 ev Hev) as (id & e & Hid & ->).
           exists k1, v1, id, e. split; [apply list_elem_of_here|done].
        -- destruct (Honly ev Hev) as (k & v & id & e & Hk & Hid & ->).
           exists k, v, id, e. split; [by apply list_elem_of_further|done].
Qed.

Lemma GetAll_empty_map (n : NetPool.t) :
  NetPool.nodeNetPoolMap n = ∅ -> NetPool.GetAll n = ∅.
Proof. intros H. unfold NetPool.GetAll, Range. by rewrite H, map_to_list_empty. Qed.

(** C7. [NetPool.Stop] destroys and removes every entry of every node type:
    when it returns, the outer map holds no sub-pool, so [GetAll] returns a
    collection without a key and [Get] finds nothing; each sub-pool, as its
    own [Stop] leaves it, holds no entry; and the events the call added to
    the trace are exactly the [Destroy] calls of the entries that were
    pooled, one at least for each of them.  The node contexts themselves are
    not touched. *)
Theorem Stop_destroys_and_removes_all (n : NetPool.t) (σ : Store.t) :
  NetPool.nodeNetPoolMap (NetPool.Stop n σ).1 = ∅ /\
  NetPool.GetAll (NetPool.Stop n σ).1 = ∅ /\
  (forall nodeType, NetPool.GetAll (NetPool.Stop n σ).1 !! nodeType = None) /\
  (forall nodeType id, NetPool.Get (NetPool.Stop n σ).1 nodeType id = None) /\
  (forall v σ0, NodeNetPool.entries (NodeNetPool.Stop v σ0).1 = ∅ /\
                NodeNetPool.GetAll (NodeNetPool.Stop v σ0).1 = []) /\
  Store.ctxs (NetPool.Stop n σ).2 = Store.ctxs σ /\
  exists evs, Store.trace (NetPool.Stop n σ).2 = (Store.trace σ ++ evs)%list /\
    (forall nodeType v id e,
       NetPool.nodeNetPoolMap n !! nodeType = Some v ->
       NodeNetPool.entries v !! id = Some e -> EvDestroy e ∈ evs) /\
    (forall ev, ev ∈ evs ->
       exists nodeType v id e,
         NetPool.nodeNetPoolMap n !! nodeType = Some v /\
         NodeNetPool.entries v !! id = Some e /\ ev = EvDestroy e).
Proof.
  unfold NetPool.Stop, Range.
  destruct (Stop_each (map_to_list (NetPool.nodeNetPoolMap n)) n σ)
    as (Hlook & Hctxs & evs & Htrace & Hall & Honly).
  assert (Hempty : NetPool.nodeNetPoolMap
            (foldl (fun acc kv =>
                      (fun key value '(n, σ) =>
                         let '(_, σ) := NodeNetPool.Stop value σ in
                         (NetPool.with_map n (delete key (NetPool.nodeNetPoolMap n)), σ))
                        kv.1 kv.2 acc)
                   (n, σ) (map_to_list (NetPool.nodeNetPoolMap n))).1 = ∅).
  { apply map_empty. intros k. rewrite Hlook. case_decide as Hin; [done|].
    destruct (NetPool.nodeNetPoolMap n !! k) as [v|] eqn:Hk; [|done].
    exfalso. apply Hin. apply list_elem_of_fmap. exists (k, v). split; [done|].
    by apply elem_of_map_to_list. }
  split; [done|]. split; [by apply GetAll_empty_map|].
  split; [intros nodeType; by rewrite GetAll_empty_map|].
  split; [intros nodeType id; unfold NetPool.Get; by rewrite Hempty|].
  split.
  { intros v σ0. destruct (NodeNetPool_Stop_spec v σ0) as (He & _). split; [done|].
    unfold NodeNetPool.GetAll, Range. by rewrite He, map_to_list_empty. }
  split; [done|].
  exists evs. split; [done|]. split.
  - intros nodeType v id e Hv Hid. apply (Hall nodeType v id e); [|done].
    by apply elem_of_map_to_list.
  - intros ev Hev. destruct (Honly ev Hev) as (k & v & id & e & Hk & Hid & ->).
    exists k, v, id, e. split; [by apply elem_of_map_to_list|done].
Qed.

Lemma Stop_destroys_and_removes_all_witness :
  NetPool.GetAll (NetPool.Stop fixture.pool1 fixture.store1).1 = ∅ /\
  EvDestroy 1%positive ∈ Store.trace (NetPool.Stop fixture.pool1 fixture.store1).2.
Proof.
  destruct (Stop_destroys_and_removes_all fixture.pool1 fixture.store1)
    as (_ & HGetAll & _ & _ & _ & _ & evs & Htrace & Hall & _).
  split; [exact HGetAll|].
  rewrite Htrace. apply elem_of_app. right.
  apply (Hall "mqttClient" fixture.sub1 "my_mqtt_client01" 1%positive).
  - vm_compute. reflexivity.
  - vm_compute. reflexivity.
Defined.

(** ** Entries are keyed by their own node id *)

Lemma InitNetResourceNodeCtx_SelfDefinition config chainCtx def ctx :
  InitNetResourceNodeCtx config chainCtx def = Ok ctx ->
  RuleNodeCtx.SelfDefinition ctx = def.
Proof.
  unfold InitNetResourceNodeCtx, InitRuleNodeCtx.
  destruct (Config.ComponentsRegistry _ _); [|discriminate].
  destruct (processVariables _ _ _); [|discriminate].
  destruct (Component.Init _ _); [|discriminate].
  by intros [= <-].
Qed.

Lemma EntriesKeyedByOwnId_extend (v : NodeNetPool.t) (σ σ' : Store.t) :
  (forall e ctx, Store.ctxs σ !! e = Some ctx -> Store.ctxs σ' !! e = Some ctx) ->
  EntriesKeyedByOwnId v σ -> EntriesKeyedByOwnId v σ'.
Proof.
  intros Hext Hv id e He. destruct (Hv id e He) as (ctx & Hctx & Hid).
  exists ctx. split; [by apply Hext|done].
Qed.

Lemma EntriesKeyedByOwnId_fresh config nodeType σ :
  EntriesKeyedByOwnId (NewNodeNetPool config nodeType) σ.
Proof. intros id e He. cbn in He. by rewrite lookup_empty in He. Qed.

(** What a call of [NodeNetPool.NewFromDef] does: the contexts that were
    allocated stay, the sub-pool stays keyed by own id, and an entry it
    returns is pooled under the id of the definition. *)
Lemma NodeNetPool_NewFromDef_spec (n : NodeNetPool.t) def σ :
  let r := NodeNetPool.NewFromDef n def σ in
  (forall e ctx, Store.ctxs σ !! e = Some ctx -> Store.ctxs r.2 !! e = Some ctx) /\
  (EntriesKeyedByOwnId n σ -> EntriesKeyedByOwnId r.1.2 r.2) /\
  (forall e, r.1.1 = Ok e -> NodeNetPool.entries r.1.2 !! RuleNode.Id def = Some e) /\
  NodeNetPool.Config r.1.2 = NodeNetPool.Config n.
Proof.
  intros r. subst r.
  destruct (NodeNetPool.entries n !! RuleNode.Id def) as [v|] eqn:Hload.
  { rewrite (NodeNetPool_NewFromDef_hit _ _ _ _ Hload). cbn.
    repeat split; [done..|]. by intros e [= <-]. }
  rewrite (NewFromDef_miss _ _ _ Hload).
  destruct (InitNetResourceNodeCtx _ _ _) as [ctx|err] eqn:Hinit.
  2:{ cbn. repeat split; [done..|]. intros e He. discriminate He. }
  assert (Hfresh : Store.ctxs σ !! fresh (dom (Store.ctxs σ)) = None)
    by apply not_elem_of_dom, is_fresh.
  assert (Hext : forall e c, Store.ctxs σ !! e = Some c ->
                   <[fresh (dom (Store.ctxs σ)) := ctx]> (Store.ctxs σ) !! e = Some c).
  { intros e c He. rewrite lookup_insert_ne; [done|]. intros <-. congruence. }
  cbn zeta. destruct (Node.GetNetResource (RuleNodeCtx.Node ctx)); cbn [fst snd].
  - split; [exact Hext|]. split; [|split; [|done]].
    + intros Hn id e He. cbn in He.
      destruct (decide (RuleNode.Id (RuleNodeCtx.SelfDefinition ctx) = id)) as [<-|Hne].
      * rewrite lookup_insert_eq in He. injection He as <-.
        exists ctx. cbn. by rewrite lookup_insert_eq.
      * rewrite lookup_insert_ne in He by done.
        destruct (Hn id e He) as (c & Hc & Hid). exists c. split; [|done].
        cbn. by apply Hext.
    + intros e [= <-]. cbn.
      rewrite (InitNetResourceNodeCtx_SelfDefinition _ _ _ _ Hinit).
      by rewrite lookup_insert_eq.
  - split; [exact Hext|]. split; [|split; [|done]].
    + intros Hn. by apply (EntriesKeyedByOwnId_extend n σ).
    + intros e He. discriminate He.
Qed.

(** The same for [NodeNetPool.New]: a returned entry is pooled under [id]
    when [id] is not empty, and under the id the bytes decode to when [id] is
    empty and nothing is pooled under the empty id. *)
Lemma NodeNetPool_New_spec (n : NodeNetPool.t) id dsl σ :
  let r := NodeNetPool.New n id dsl σ in
  (forall e ctx, Store.ctxs σ !! e = Some ctx -> Store.ctxs r.2 !! e = Some ctx) /\
  (EntriesKeyedByOwnId n σ -> EntriesKeyedByOwnId r.1.2 r.2) /\
  (forall e, r.1.1 = Ok e -> id ≠ "" -> NodeNetPool.entries r.1.2 !! id = Some e) /\
  (forall e, r.1.1 = Ok e -> id = "" -> NodeNetPool.entries n !! "" = None ->
     exists def, Config.Parser (NodeNetPool.Config r.1.2) dsl = Ok def /\
                 NodeNetPool.entries r.1.2 !! RuleNode.Id def = Some e) /\
  (forall e, r.1.1 = Ok e -> exists key, NodeNetPool.entries r.1.2 !! key = Some e).
Proof.
  intros r. subst r. unfold NodeNetPool.New.
  destruct (NodeNetPool.entries n !! id) as [v|] eqn:Hload.
  { cbn. split; [done|]. split; [done|]. split; [|split].
    - by intros e [= <-] _.
    - intros e _ -> Hnone. congruence.
    - intros e [= <-]. by exists id. }
  destruct (Config.Parser (NodeNetPool.Config n) dsl) as [nodeDef|err] eqn:Hparse.
  2:{ cbn. split; [done|]. split; [done|].
      repeat split; intros e He; discriminate He. }
  cbn beta iota zeta. destruct (decide (id ≠ "")) as [Hid|Hid].
  all: match goal with |- context [NodeNetPool.NewFromDef ?m ?d ?s] =>
         pose proof (NodeNetPool_NewFromDef_spec m d s) as Hspec end.
  all: cbn zeta in Hspec; destruct Hspec as (Hext & Hinv & Hkey & Hcfg).
  all: split; [exact Hext|]; split; [|split; [|split]].
  - intros Hn. apply Hinv. by apply (EntriesKeyedByOwnId_extend n σ).
  - intros e He _. exact (Hkey e He).
  - intros e _ ->. by destruct Hid.
  - intros e He. eexists. exact (Hkey e He).
  - intros Hn. apply Hinv. by apply (EntriesKeyedByOwnId_extend n σ).
  - intros e _ Hne. by destruct Hid.
  - intros e He _ _. exists nodeDef. split; [by rewrite Hcfg|exact (Hkey e He)].
  - intros e He. eexists. exact (Hkey e He).
Qed.

Lemma NetPool_New_unfold (n : NetPool.t) nodeType id dsl σ :
  NetPool.New n nodeType id dsl σ =
    let v := default (NewNodeNetPool (NetPool.Config n) nodeType)
                     (NetPool.nodeNetPoolMap n !! nodeType) in
    let r := NodeNetPool.New v id dsl σ in
    (r.1.1, NetPool.with_map n (<[nodeType := r.1.2]> (NetPool.nodeNetPoolMap n)), r.2).
Proof.
  unfold NetPool.New, LoadOrStore.
  destruct (NetPool.nodeNetPoolMap n !! nodeType) as [v|]; cbn.
  - by destruct (NodeNetPool.New v id dsl σ) as [[r v'] σ'].
  - destruct (NodeNetPool.New _ id dsl σ) as [[r v'] σ']. cbn.
    by rewrite insert_insert_eq.
Qed.

Lemma NetPool_NewFromDef_unfold (n : NetPool.t) def σ :
  NetPool.NewFromDef n def σ =
    let v := default (NewNodeNetPool (NetPool.Config n) (RuleNode.Type' def))
                     (NetPool.nodeNetPoolMap n !! RuleNode.Type' def) in
    let r := NodeNetPool.NewFromDef v def σ in
    (r.1.1,
     NetPool.with_map n (<[RuleNode.Type' def := r.1.2]> (NetPool.nodeNetPoolMap n)),
     r.2).
Proof.
  unfold NetPool.NewFromDef, LoadOrStore.
  destruct (NetPool.nodeNetPoolMap n !! RuleNode.Type' def) as [v|]; cbn.
  - by destruct (NodeNetPool.NewFromDef v def σ) as [[r v'] σ'].
  - destruct (NodeNetPool.NewFromDef _ def σ) as [[r v'] σ']. cbn.
    by rewrite insert_insert_eq.
Qed.

Lemma KeyedByOwnId_default (n : NetPool.t) nodeType σ :
  KeyedByOwnId n σ ->
  EntriesKeyedByOwnId
    (default (NewNodeNetPool (NetPool.Config n) nodeType)
             (NetPool.nodeNetPoolMap n !! nodeType)) σ.
Proof.
  intros Hn. destruct (NetPool.nodeNetPoolMap n !! nodeType) as [v|] eqn:Hv; cbn.
  - by apply (Hn nodeType).
  - apply EntriesKeyedByOwnId_fresh.
Qed.

Lemma KeyedByOwnId_update (n : NetPool.t) nodeType v' (σ σ' : Store.t) :
  KeyedByOwnId n σ ->
  (forall e ctx, Store.ctxs σ !! e = Some ctx -> Store.ctxs σ' !! e = Some ctx) ->
  EntriesKeyedByOwnId v' σ' ->
  KeyedByOwnId (NetPool.with_map n (<[nodeType := v']> (NetPool.nodeNetPoolMap n))) σ'.
Proof.
  intros Hn Hext Hv' t v Hv. cbn in Hv.
  destruct (decide (nodeType = t)) as [<-|Hne].
  - rewrite lookup_insert_eq in Hv. by injection Hv as <-.
  - rewrite lookup_insert_ne in Hv by done.
    apply (EntriesKeyedByOwnId_extend v σ); [done|]. by apply (Hn t).
Qed.

Lemma NetPool_Stop_map_empty (n : NetPool.t) (σ : Store.t) :
  NetPool.nodeNetPoolMap (NetPool.Stop n σ).1 = ∅.
Proof.
  unfold NetPool.Stop, Range.
  destruct (Stop_each (map_to_list (NetPool.nodeNetPoolMap n)) n σ) as (Hlook & _).
  apply map_empty. intros k. rewrite Hlook. case_decide as Hin; [done|].
  destruct (NetPool.nodeNetPoolMap n !! k) as [v|] eqn:Hk; [|done].
  exfalso. apply Hin. apply list_elem_of_fmap. exists (k, v). split; [done|].
  by apply elem_of_map_to_list.
Qed.

Lemma InitRuleNodeCtx_SelfDefinition config chainCtx def ctx :
  InitRuleNodeCtx config chainCtx def = Ok ctx ->
  RuleNodeCtx.SelfDefinition ctx = def.
Proof.
  unfold InitRuleNodeCtx.
  destruct (Config.ComponentsRegistry _ _); [|discriminate].
  destruct (processVariables _ _ _); [|discriminate].
  destruct (Component.Init _ _); [|discriminate].
  by intros [= <-].
Qed.

(** What [ReloadSelf] does to the store: nothing unless it returns nil; when
    it does, the context at [rn] has the id the bytes decode to, and every
    other context is as it was. *)
Lemma ReloadSelf_spec (config : Config.t) (rn : loc) (dsl : list byte) (σ : Store.t) :
  ((ReloadSelf config rn dsl σ).1 ≠ Returns None -> (ReloadSelf config rn dsl σ).2 = σ) /\
  ((ReloadSelf config rn dsl σ).1 = Returns None ->
     exists def ctx,
       Config.Parser config dsl = Ok def /\
       Store.ctxs (ReloadSelf config rn dsl σ).2 !! rn = Some ctx /\
       RuleNodeId.Id (GetNodeId ctx) = RuleNode.Id def) /\
  (forall e, e ≠ rn ->
     Store.ctxs (ReloadSelf config rn dsl σ).2 !! e = Store.ctxs σ !! e).
Proof.
  unfold ReloadSelf.
  destruct (Store.ctxs σ !! rn) as [ctx|]; [|by repeat split].
  destruct (Config.Parser config dsl) as [def|err]; [|by repeat split].
  destruct (InitRuleNodeCtx config (RuleNodeCtx.ChainCtx ctx) def) as [new|err] eqn:Hinit;
    [|by repeat split].
  cbn [fst snd Store.ctxs]. split; [done|]. split.
  - intros _. eexists def, _. split; [done|]. split; [apply lookup_insert_eq|].
    cbn. by rewrite (InitRuleNodeCtx_SelfDefinition _ _ _ _ Hinit).
  - intros e He. by rewrite lookup_insert_ne.
Qed.

(** The claim that every entry is keyed by its own id, and is found under
    the decoded id after [New] with an empty id, does not hold.  A reload
    changes the id of a pooled context and leaves the entry under its old
    key: the pool test reloads the entry it pooled under [my_mqtt_client01]
    from bytes whose id is [my_mqtt_client].  And with an entry pooled under
    the empty id, [New] with an empty id returns that entry without decoding
    the bytes, and nothing is found under the id the bytes decode to. *)
Lemma pool_key_is_not_always_own_id :
  (ReloadSelf fixture.config 1%positive fixture.mqttDsl fixture.store1).1 = Returns None /\
  NetPool.Get fixture.pool1 "mqttClient" "my_mqtt_client01" = Some 1%positive /\
  GetNodeId
    <$> Store.ctxs (ReloadSelf fixture.config 1%positive fixture.mqttDsl fixture.store1).2
        !! 1%positive
  = Some (RuleNodeId.mk "my_mqtt_client") /\
  ~ KeyedByOwnId fixture.pool1
      (ReloadSelf fixture.config 1%positive fixture.mqttDsl fixture.store1).2 /\
  fixture.anonymous.1.1 = Ok 1%positive /\
  NetPool.Get fixture.anonymous.1.2 "mqttClient" "" = Some 1%positive /\
  NetPool.New fixture.anonymous.1.2 "mqttClient" "" fixture.mqttDsl fixture.anonymous.2
  = (Ok 1%positive, fixture.anonymous.1.2, fixture.anonymous.2) /\
  fixture.parser fixture.mqttDsl
  = Ok (RuleNode.mk "my_mqtt_client" "mqttClient" "" false ∅) /\
  NetPool.Get fixture.anonymous.1.2 "mqttClient" "my_mqtt_client" = None.
Proof.
  assert (Hid : GetNodeId
                  <$> Store.ctxs (ReloadSelf fixture.config 1%positive fixture.mqttDsl
                                    fixture.store1).2 !! 1%positive
                = Some (RuleNodeId.mk "my_mqtt_client"))
    by (vm_compute; reflexivity).
  split; [vm_compute; reflexivity|]. split; [vm_compute; reflexivity|].
  split; [exact Hid|]. split.
  - intros Hkeyed.
    destruct (Hkeyed "mqttClient" fixture.sub1 ltac:(vm_compute; reflexivity)
                "my_mqtt_client01" 1%positive ltac:(vm_compute; reflexivity))
      as (ctx & Hctx & Hown).
    rewrite Hctx in Hid. cbn in Hid, Hown. injection Hid as Hid.
    rewrite Hid in Hown. discriminate Hown.
  - repeat split; vm_compute; reflexivity.
Qed.

(** C10 (amended). Every entry of the pool is stored under the node id its
    context had when it was pooled.  That the key is the entry's own id holds
    of a new pool and is kept by [New], [NewFromDef], [Del] and [Stop], and
    by a [ReloadSelf] that does not change the id of a pooled context; while
    it holds, every entry is retrievable under its own id.  A [ReloadSelf]
    that returns nil gives the context the id the bytes decode to, whatever
    key it is pooled under, and touches no other context; one that does not
    return nil changes nothing.  After a successful
    [NetPool.New(type, id, dsl)] with a non-empty [id], [Get(type, id)] finds
    the entry that was returned.  With an empty [id] and nothing pooled under
    the empty id, [Get] finds it under the id [dsl] decodes to; with an entry
    pooled under the empty id, that entry is returned and nothing else
    happens. *)
Theorem pool_entries_keyed_by_own_id :
  (forall config σ, KeyedByOwnId (NewNetPool config) σ) /\
  (forall n σ, KeyedByOwnId n σ ->
     (forall nodeType id dsl,
        KeyedByOwnId (NetPool.New n nodeType id dsl σ).1.2
                     (NetPool.New n nodeType id dsl σ).2) /\
     (forall def,
        KeyedByOwnId (NetPool.NewFromDef n def σ).1.2 (NetPool.NewFromDef n def σ).2) /\
     (forall nodeType id,
        KeyedByOwnId (NetPool.Del n nodeType id σ).1 (NetPool.Del n nodeType id σ).2) /\
     KeyedByOwnId (NetPool.Stop n σ).1 (NetPool.Stop n σ).2 /\
     (forall config rn dsl,
        (forall def nodeType id,
           Config.Parser config dsl = Ok def -> NetPool.Get n nodeType id = Some rn ->
           RuleNode.Id def = id) ->
        KeyedByOwnId n (ReloadSelf config rn dsl σ).2) /\
     (forall nodeType v id e,
        NetPool.nodeNetPoolMap n !! nodeType = Some v ->
        NodeNetPool.entries v !! id = Some e ->
        exists ctx, Store.ctxs σ !! e = Some ctx /\
                    NetPool.Get n nodeType (RuleNodeId.Id (GetNodeId ctx)) = Some e)) /\
  (forall config rn dsl σ,
     ((ReloadSelf config rn dsl σ).1 ≠ Returns None ->
      (ReloadSelf config rn dsl σ).2 = σ) /\
     ((ReloadSelf config rn dsl σ).1 = Returns None ->
        exists def ctx,
          Config.Parser config dsl = Ok def /\
          Store.ctxs (ReloadSelf config rn dsl σ).2 !! rn = Some ctx /\
          RuleNodeId.Id (GetNodeId ctx) = RuleNode.Id def) /\
     (forall e, e ≠ rn ->
        Store.ctxs (ReloadSelf config rn dsl σ).2 !! e = Store.ctxs σ !! e)) /\
  (forall n σ nodeType id dsl e n' σ',
     NetPool.New n nodeType id dsl σ = (Ok e, n', σ') ->
     (id ≠ "" -> NetPool.Get n' nodeType id = Some e) /\
     (id = "" -> NetPool.Get n nodeType "" = None ->
        exists v' def,
          NetPool.nodeNetPoolMap n' !! nodeType = Some v' /\
          Config.Parser (NodeNetPool.Config v') dsl = Ok def /\
          NetPool.Get n' nodeType (RuleNode.Id def) = Some e) /\
     (id = "" -> forall e0, NetPool.Get n nodeType "" = Some e0 -> e = e0 /\ σ' = σ) /\
     (KeyedByOwnId n σ ->
        exists ctx, Store.ctxs σ' !! e = Some ctx /\
                    NetPool.Get n' nodeType (RuleNodeId.Id (GetNodeId ctx)) = Some e)).
Proof.
  split; [|split; [|split]].
  - intros config σ t v Hv. cbn in Hv. by rewrite lookup_empty in Hv.
  - intros n σ Hn. split; [|split; [|split; [|split; [|split]]]].
    + intros t id dsl. rewrite NetPool_New_unfold. cbn zeta. cbn [fst snd].
      pose proof (NodeNetPool_New_spec
                    (default (NewNodeNetPool (NetPool.Config n) t)
                             (NetPool.nodeNetPoolMap n !! t)) id dsl σ) as Hspec.
      cbn zeta in Hspec. destruct Hspec as (Hext & Hinv & _).
      apply (KeyedByOwnId_update n t _ σ); [done..|].
      by apply Hinv, KeyedByOwnId_default.
    + intros def. rewrite NetPool_NewFromDef_unfold. cbn zeta. cbn [fst snd].
      pose proof (NodeNetPool_NewFromDef_spec
                    (default (NewNodeNetPool (NetPool.Config n) (RuleNode.Type' def))
                             (NetPool.nodeNetPoolMap n !! RuleNode.Type' def)) def σ)
        as Hspec.
      cbn zeta in Hspec. destruct Hspec as (Hext & Hinv & _).
      apply (KeyedByOwnId_update n _ _ σ); [done..|].
      by apply Hinv, KeyedByOwnId_default.
    + intros t id. unfold NetPool.Del.
      destruct (NetPool.nodeNetPoolMap n !! t) as [v|] eqn:Hv; [|done].
      rewrite Del_unfold. cbn [fst snd].
      apply (KeyedByOwnId_update n t _ σ); [done| |].
      * intros e ctx He. by destruct (NodeNetPool.entries v !! id).
      * intros k e Hk. cbn in Hk. apply lookup_delete_Some in Hk as [_ Hk].
        destruct (Hn t v Hv k e Hk) as (ctx & Hctx & Hid). exists ctx.
        split; [|done]. by destruct (NodeNetPool.entries v !! id).
    + intros t v Hv. rewrite NetPool_Stop_map_empty in Hv. by rewrite lookup_empty in Hv.
    + intros config rn dsl Hsame t v Hv id e He.
      destruct (Hn t v Hv id e He) as (ctx & Hctx & Hid).
      destruct (ReloadSelf_spec config rn dsl σ) as (Hfail & Hdone & Hother).
      destruct (decide (e = rn)) as [->|Hne].
      * assert (Hcase : (ReloadSelf config rn dsl σ).1 = Returns None \/
                        (ReloadSelf config rn dsl σ).1 ≠ Returns None).
        { destruct (ReloadSelf config rn dsl σ).1 as [[err|]|text];
            [by right|by left|by right]. }
        destruct Hcase as [Hnil|Herr].
        -- destruct (Hdone Hnil) as (def & ctx' & Hparse & Hctx' & Hid').
           exists ctx'. split; [done|]. rewrite Hid'.
           apply (Hsame def t id Hparse). unfold NetPool.Get, NodeNetPool.Get.
           by rewrite Hv.
        -- rewrite (Hfail Herr). by exists ctx.
      * exists ctx. by rewrite (Hother e Hne).
    + intros t v id e Hv He. destruct (Hn t v Hv id e He) as (ctx & Hctx & Hid).
      exists ctx. split; [done|]. unfold NetPool.Get, NodeNetPool.Get.
      by rewrite Hv, Hid.
  - intros config rn dsl σ. apply ReloadSelf_spec.
  - intros n σ t id dsl e n' σ' Hcall.
    pose proof Hcall as Hcall'. rewrite NetPool_New_unfold in Hcall.
    cbn zeta in Hcall.
    pose proof (NodeNetPool_New_spec
                  (default (NewNodeNetPool (NetPool.Config n) t)
                           (NetPool.nodeNetPoolMap n !! t)) id dsl σ) as Hspec.
    cbn zeta in Hspec. destruct Hspec as (_ & Hinv & Hkey & Hkey0 & Hsome).
    injection Hcall as Hr <- <-. split; [|split; [|split]].
    + intros Hid. unfold NetPool.Get, NodeNetPool.Get. cbn.
      rewrite lookup_insert_eq. by apply Hkey.
    + intros -> Hnone.
      destruct (Hkey0 e Hr eq_refl) as (def & Hparse & Hdef).
      { unfold NetPool.Get, NodeNetPool.Get in Hnone.
        by destruct (NetPool.nodeNetPoolMap n !! t). }
      eexists _, def. split; [cbn; apply lookup_insert_eq|]. split; [done|].
      unfold NetPool.Get, NodeNetPool.Get. cbn. by rewrite lookup_insert_eq.
    + intros -> e0 Hhit. unfold NetPool.Get, NodeNetPool.Get in Hhit.
      destruct (NetPool.nodeNetPoolMap n !! t) as [v|] eqn:Hv; [|done].
      change (default (NewNodeNetPool (NetPool.Config n) t) (Some v)) with v in Hr |- *.
      rewrite (NodeNetPool_New_hit v "" dsl σ e0 Hhit) in Hr |- *.
      cbn in Hr. by injection Hr as <-.
    + intros Hn. destruct (Hsome e Hr) as (key & Hkeyed).
      destruct (Hinv (KeyedByOwnId_default n t σ Hn) key e Hkeyed) as (ctx & Hctx & Hid).
      exists ctx. split; [done|]. unfold NetPool.Get, NodeNetPool.Get.
      rewrite Hid. cbn. by rewrite lookup_insert_eq.
Qed.

Lemma pool_entries_keyed_by_own_id_witness :
  NetPool.Get fixture.pool1 "mqttClient" "my_mqtt_client01" = Some 1%positive /\
  KeyedByOwnId fixture.pool1 fixture.store1.
Proof.
  destruct pool_entries_keyed_by_own_id as (Hnew & Hkeep & _ & Hget). split.
  - apply (proj1 (Hget (NewNetPool fixture.config) fixture.emptyStore "mqttClient"
                    "my_mqtt_client01" fixture.mqttDsl 1%positive fixture.pool1
                    fixture.store1 ltac:(vm_compute; reflexivity))).
    discriminate.
  - apply (proj1 (Hkeep _ _ (Hnew fixture.config fixture.emptyStore))).
Defined.

(** ** ReloadChild on a node context *)

(** C4. [ReloadChild] on a node context, whose component manages no
    children, returns the "not support this func" error as a value, leaves
    the context as it was, and does not panic. *)
Theorem ReloadChild_not_supported
    (rn : RuleNodeCtx.t) (childId : RuleNodeId.t) (dsl : list byte) :
  (exists err, (ReloadChild rn childId dsl).1 = Returns (Some err) /\
               Error err = "not support this func") /\
  (ReloadChild rn childId dsl).2 = rn /\
  (forall msg, (ReloadChild rn childId dsl).1 <> Panics msg).
Proof.
  split; [|split].
  - exists ErrNotSupport. by split.
  - done.
  - intros msg H. discriminate H.
Qed.

(** The test of [ReloadChild] passes on the model. *)
Example notSupportThisFunc_passes :
  let ctx := RuleNodeCtx.mk None (RuleNode.mk "s1" "log" "" false ∅)
               (Node.mk "log" ∅ None) false in
  notSupportThisFunc (ReloadChild ctx (RuleNodeId.mk "") []).1 = true.
Proof. reflexivity. Qed.

(** ** The lazy connection wrapper: mode selection *)

Import base.

Lemma append_cons (c : ascii) (p s : string) : String c p ++ s = String c (p ++ s).
Proof. reflexivity. Qed.

Lemma append_nil (s : string) : "" ++ s = s.
Proof. reflexivity. Qed.

Lemma HasPrefix_app (p s : string) : HasPrefix (p ++ s) p = true.
Proof.
  induction p as [|c p IH]; [done|].
  rewrite append_cons. cbn -[Ascii.eqb]. by rewrite Ascii.eqb_refl.
Qed.

Lemma slice_from_app (p s : string) : slice_from (String.length p) (p ++ s) = s.
Proof. induction p as [|c p IH]; [done|]. by rewrite append_cons. Qed.

Lemma HasPrefix_split (p s : string) :
  HasPrefix s p = true -> s = p ++ slice_from (String.length p) s.
Proof.
  revert s. induction p as [|c p IH]; intros s H; cbn -[Ascii.eqb] in *; [done|].
  destruct s as [|d s]; [discriminate H|].
  destruct (Ascii.eqb c d) eqn:Hcd; [|discriminate H].
  apply Ascii.eqb_eq in Hcd as ->. rewrite append_cons. cbn. f_equal. by apply IH.
Qed.

(** The resource id is empty exactly when the string lacks the prefix or is
    the bare prefix. *)
Lemma GetNetResourceId_empty (config : Config.t) (server : string) :
  NodeUtils.GetNetResourceId config server = "" <->
  HasPrefix server NodeConfigurationPrefixNetResource = false \/
  server = NodeConfigurationPrefixNetResource.
Proof.
  unfold NodeUtils.GetNetResourceId, NodeUtils.IsNetPool.
  destruct (HasPrefix server NodeConfigurationPrefixNetResource) eqn:Hp.
  - split.
    + intros Hid. right. pose proof (HasPrefix_split _ _ Hp) as Hs.
      rewrite Hid in Hs. exact Hs.
    + intros [H| ->]; [discriminate H|done].
  - split; [by left|done].
Qed.

Lemma GetNetResourceId_prefixed (config : Config.t) (id : string) :
  NodeUtils.GetNetResourceId config (NodeConfigurationPrefixNetResource ++ id) = id.
Proof.
  unfold NodeUtils.GetNetResourceId, NodeUtils.IsNetPool.
  by rewrite HasPrefix_app, slice_from_app.
Qed.

(** The bare prefix [ref://] carries the prefix, and [Init] dials all the
    same: the dial counter goes from 0 to 1. *)
Lemma Init_bare_prefix_dials :
  ~ PrefixMeansPooled fixture.node0 fixture.config "mqttClient" "ref://" fixture.dial 0.
Proof.
  intros H. destruct (H eq_refl) as [_ Hw]. discriminate Hw.
Qed.

(** C6 (amended). [Init] selects the pooled mode if and only if the server
    string is the reserved prefix followed by a non-empty resource id: it
    then records the node type and that id and dials nothing, whatever dial
    function it is given.  For every other string, one lacking the prefix or
    the bare prefix, it keeps the dial function, invokes it exactly once,
    immediately, and returns that dial's error; the connection stays with the
    dial function. *)
Theorem Init_mode_selection {T W : Type}
    (x : NetResourceNode.t T W) (ruleConfig : Config.t) (nodeType server : string)
    (initNetResourceFunc : option (W -> result T * W)) (w : W) :
  (NodeUtils.GetNetResourceId ruleConfig server ≠ "" <->
   exists id, id ≠ "" /\ server = NodeConfigurationPrefixNetResource ++ id) /\
  (forall id, id ≠ "" -> server = NodeConfigurationPrefixNetResource ++ id ->
     NetResourceNode.Init x ruleConfig nodeType server initNetResourceFunc w =
       (Returns None,
        NetResourceNode.mk ruleConfig nodeType id
          (NetResourceNode.InitNetResourceFunc x) (NetResourceNode.Connecting x),
        w)) /\
  (forall f,
     HasPrefix server NodeConfigurationPrefixNetResource = false \/
     server = NodeConfigurationPrefixNetResource ->
     initNetResourceFunc = Some f ->
     NetResourceNode.Init x ruleConfig nodeType server initNetResourceFunc w =
       (Returns (match (f w).1 with Ok _ => None | Err err => Some err end),
        NetResourceNode.mk ruleConfig nodeType (NetResourceNode.NetResourceId x)
          (Some f) (NetResourceNode.Connecting x),
        (f w).2)).
Proof.
  split; [|split].
  - split.
    + intros Hid. exists (NodeUtils.GetNetResourceId ruleConfig server). split; [done|].
      unfold NodeUtils.GetNetResourceId, NodeUtils.IsNetPool in *.
      destruct (HasPrefix server NodeConfigurationPrefixNetResource) eqn:Hp; [|done].
      by apply HasPrefix_split.
    + intros (id & Hid & ->). by rewrite GetNetResourceId_prefixed.
  - intros id Hid ->. unfold NetResourceNode.Init.
    rewrite GetNetResourceId_prefixed. by rewrite decide_False.
  - intros f Hlocal ->. unfold NetResourceNode.Init.
    apply (GetNetResourceId_empty ruleConfig) in Hlocal. rewrite Hlocal.
    rewrite decide_True by done. cbn. by destruct (f w).
Qed.

Lemma Init_mode_selection_witness :
  NetResourceNode.Init fixture.node0 fixture.config "mqttClient" "ref://my_mqtt_client01"
    (Some fixture.dial) 0
  = (Returns None,
     NetResourceNode.mk fixture.config "mqttClient" "my_mqtt_client01" None 0%Z, 0) /\
  NetResourceNode.Init fixture.node0 fixture.config "mqttClient" "127.0.0.1:1883"
    (Some fixture.dial) 0
  = (Returns None,
     NetResourceNode.mk fixture.config "mqttClient" "" (Some fixture.dial) 0%Z, 1).
Proof.
  split.
  - apply (proj1 (proj2 (Init_mode_selection fixture.node0 fixture.config "mqttClient"
                           "ref://my_mqtt_client01" (Some fixture.dial) 0))
             "my_mqtt_client01").
    + discriminate.
    + reflexivity.
  - apply (proj2 (proj2 (Init_mode_selection fixture.node0 fixture.config "mqttClient"
                           "127.0.0.1:1883" (Some fixture.dial) 0))
             fixture.dial).
    + left. reflexivity.
    + reflexivity.
Defined.

(** ** The lazy connection wrapper: GetClient *)

(** C5. [GetClient] in pooled mode ([NetResourceId] not empty) fails with
    [ErrNetPoolNil] when no pool is configured, and otherwise asks the
    configured pool, as it is at the time of the call, for
    [GetNetResource(NodeType, NetResourceId)]: it returns the connection the
    pool gives (a connection of another type than [T] makes the type
    assertion panic) or the pool's error, the not-found error when the entry
    is not pooled; the wrapper has no field to keep a connection in and the
    call leaves the state of the dial function alone.  In local mode it
    returns what the private dial function returns, and fails with
    [ErrClientNotInit] when there is no dial function. *)
Theorem GetClient_contract {T W : Type} (assertT : any -> option T)
    (x : NetResourceNode.t T W) (pools : gmap loc NetPool.t) (σ : Store.t) (w : W) :
  (NetResourceNode.NetResourceId x ≠ "" ->
     (Config.NetPool (NetResourceNode.RuleConfig x) = None ->
        NetResourceNode.GetClient assertT x pools σ w = (Returns (Err ErrNetPoolNil), w)) /\
     (forall pool netPool,
        Config.NetPool (NetResourceNode.RuleConfig x) = Some pool ->
        pools !! pool = Some netPool ->
        (forall p client,
           NetPool.GetNetResource netPool (NetResourceNode.NodeType x)
             (NetResourceNode.NetResourceId x) σ = Returns (Ok p) ->
           assertT p = Some client ->
           NetResourceNode.GetClient assertT x pools σ w = (Returns (Ok client), w)) /\
        (forall p,
           NetPool.GetNetResource netPool (NetResourceNode.NodeType x)
             (NetResourceNode.NetResourceId x) σ = Returns (Ok p) ->
           assertT p = None ->
           exists msg, NetResourceNode.GetClient assertT x pools σ w = (Panics msg, w)) /\
        (forall err,
           NetPool.GetNetResource netPool (NetResourceNode.NodeType x)
             (NetResourceNode.NetResourceId x) σ = Returns (Err err) ->
           NetResourceNode.GetClient assertT x pools σ w = (Returns (Err err), w)) /\
        (NetPool.Get netPool (NetResourceNode.NodeType x)
           (NetResourceNode.NetResourceId x) = None ->
         NetResourceNode.GetClient assertT x pools σ w
         = (Returns (Err (ErrNotFound (NetResourceNode.NetResourceId x))), w)))) /\
  (NetResourceNode.NetResourceId x = "" ->
     (forall f, NetResourceNode.InitNetResourceFunc x = Some f ->
        NetResourceNode.GetClient assertT x pools σ w = (Returns (f w).1, (f w).2)) /\
     (NetResourceNode.InitNetResourceFunc x = None ->
        NetResourceNode.GetClient assertT x pools σ w = (Returns (Err ErrClientNotInit), w))).
Proof.
  split.
  - intros Hid. unfold NetResourceNode.GetClient. rewrite decide_True by done. split.
    + by intros ->.
    + intros pool netPool -> ->. repeat split.
      * by intros p client -> ->.
      * intros p -> ->. by eexists.
      * by intros err ->.
      * intros Hget. unfold NetPool.GetNetResource, NodeNetPool.GetNetResource.
        unfold NetPool.Get in Hget.
        destruct (NetPool.nodeNetPoolMap netPool !! NetResourceNode.NodeType x); [|done].
        by rewrite Hget.
  - intros Hid. unfold NetResourceNode.GetClient.
    rewrite decide_False by (intros H; by apply H). split.
    + intros f ->. by destruct (f w).
    + by intros ->.
Qed.

Lemma GetClient_contract_witness :
  let x := NetResourceNode.mk fixture.config "mqttClient" "my_mqtt_client01" None 0%Z in
  NetResourceNode.GetClient fixture.assertClient x fixture.pools1 fixture.store1 0
  = (Returns (Ok 1%positive), 0) /\
  NetResourceNode.GetClient fixture.assertClient x
    (<[1%positive := (NetPool.Stop fixture.pool1 fixture.store1).1]> fixture.pools1)
    (NetPool.Stop fixture.pool1 fixture.store1).2 0
  = (Returns (Err (ErrNotFound "my_mqtt_client01")), 0).
Proof.
  intros x. split.
  - apply (proj1 (proj2 (proj1 (GetClient_contract fixture.assertClient x fixture.pools1
                                  fixture.store1 0) ltac:(discriminate))
                          1%positive fixture.pool1 eq_refl eq_refl)
             (Dyn "*mqtt.Client" 1%positive) 1%positive).
    + vm_compute. reflexivity.
    + reflexivity.
  - apply (proj2 (proj2 (proj2 (proj2 (proj1
             (GetClient_contract fixture.assertClient x
                (<[1%positive := (NetPool.Stop fixture.pool1 fixture.store1).1]> fixture.pools1)
                (NetPool.Stop fixture.pool1 fixture.store1).2 0) ltac:(discriminate))
             1%positive (NetPool.Stop fixture.pool1 fixture.store1).1 eq_refl
             ltac:(vm_compute; reflexivity))))).
    vm_compute. reflexivity.
Defined.

(** ** The lazy connection wrapper: the connect guard *)

Lemma guardRun_app {T W : Type} (x : NetResourceNode.t T W) (ops1 ops2 : list _) :
  NetResourceNode.guardRun x (ops1 ++ ops2) =
    (((NetResourceNode.guardRun x ops1).1
      ++ (NetResourceNode.guardRun (NetResourceNode.guardRun x ops1).2 ops2).1)%list,
     (NetResourceNode.guardRun (NetResourceNode.guardRun x ops1).2 ops2).2).
Proof.
  revert x. induction ops1 as [|op ops1 IH]; intros x; cbn.
  - by destruct (NetResourceNode.guardRun x ops2).
  - destruct (NetResourceNode.guardStep x op) as [r x1]. rewrite IH.
    destruct (NetResourceNode.guardRun x1 ops1) as [rs1 x2]. cbn.
    by destruct (NetResourceNode.guardRun x2 ops2).
Qed.

Lemma guardRun_length {T W : Type} (x : NetResourceNode.t T W) (ops : list _) :
  length (NetResourceNode.guardRun x ops).1 = length ops.
Proof.
  revert x. induction ops as [|op ops IH]; intros x; cbn; [done|].
  destruct (NetResourceNode.guardStep x op) as [r x1]. specialize (IH x1).
  destruct (NetResourceNode.guardRun x1 ops) as [rs x2]. cbn in *. by rewrite IH.
Qed.

(** While nobody calls [Connected], a flag that is not idle stays as it is. *)
Lemma guardRun_busy {T W : Type} (x : NetResourceNode.t T W) (ops : list _) :
  NetResourceNode.Connecting x ≠ 0%Z ->
  NetResourceNode.OpConnected ∉ ops ->
  (NetResourceNode.guardRun x ops).2 = x.
Proof.
  revert x. induction ops as [|op ops IH]; intros x Hbusy Hops; cbn; [done|].
  assert (Hstep : (NetResourceNode.guardStep x op).2 = x).
  { destruct op; cbn.
    - unfold NetResourceNode.Connect. by rewrite decide_False.
    - done.
    - exfalso. apply Hops, list_elem_of_here. }
  destruct (NetResourceNode.guardStep x op) as [r x1]. cbn in Hstep. subst x1.
  specialize (IH x Hbusy).
  destruct (NetResourceNode.guardRun x ops) as [rs x2]. cbn in *. apply IH.
  intros Hin. by apply Hops, list_elem_of_further.
Qed.

(** C8. [Connect] returns true and sets the flag to 1 exactly when the flag
    was 0, and returns false and changes nothing otherwise; [IsConnecting]
    tells whether the flag is 1 and changes nothing; [Connected] sets the
    flag to 0.  Hence in every run of guard operations, from the idle state
    or any other, once a [Connect] has returned true, a later [Connect] with
    no [Connected] in between returns false. *)
Theorem connect_guard_single_flight {T W : Type} (x : NetResourceNode.t T W) :
  (NetResourceNode.Connecting x = 0%Z ->
     NetResourceNode.Connect x =
       (true, NetResourceNode.mk (NetResourceNode.RuleConfig x) (NetResourceNode.NodeType x)
                (NetResourceNode.NetResourceId x) (NetResourceNode.InitNetResourceFunc x)
                1%Z)) /\
  (NetResourceNode.Connecting x ≠ 0%Z -> NetResourceNode.Connect x = (false, x)) /\
  ((NetResourceNode.Connect x).1 = true <-> NetResourceNode.Connecting x = 0%Z) /\
  (NetResourceNode.IsConnecting x = true <-> NetResourceNode.Connecting x = 1%Z) /\
  NetResourceNode.guardStep x NetResourceNode.OpIsConnecting
    = (Some (NetResourceNode.IsConnecting x), x) /\
  NetResourceNode.Connected x =
    NetResourceNode.mk (NetResourceNode.RuleConfig x) (NetResourceNode.NodeType x)
      (NetResourceNode.NetResourceId x) (NetResourceNode.InitNetResourceFunc x) 0%Z /\
  (forall pre mid post,
     NetResourceNode.OpConnected ∉ mid ->
     let rs := (NetResourceNode.guardRun x
                  (pre ++ NetResourceNode.OpConnect :: mid
                       ++ NetResourceNode.OpConnect :: post)).1 in
     rs !! length pre = Some (Some true) ->
     rs !! (length pre + S (length mid)) = Some (Some false)).
Proof.
  assert (Hiff : forall y : NetResourceNode.t T W,
            (NetResourceNode.Connect y).1 = true <-> NetResourceNode.Connecting y = 0%Z).
  { intros y. unfold NetResourceNode.Connect. case_decide; cbn; split; done. }
  split; [|split; [|split; [|split; [|split; [|split]]]]].
  - intros H. unfold NetResourceNode.Connect. by rewrite decide_True.
  - intros H. unfold NetResourceNode.Connect. by rewrite decide_False.
  - apply Hiff.
  - unfold NetResourceNode.IsConnecting. apply bool_decide_eq_true.
  - done.
  - done.
  - intros pre mid post Hmid rs. subst rs.
    rewrite guardRun_app. cbn [fst].
    pose proof (guardRun_length x pre) as Hlen.
    rewrite (lookup_app_r _ _ (length pre)) by lia.
    rewrite (lookup_app_r _ _ (length pre + S (length mid))) by lia.
    rewrite Hlen.
    replace (length pre - length pre) with 0 by lia.
    replace (length pre + S (length mid) - length pre) with (S (length mid)) by lia.
    set (x1 := (NetResourceNode.guardRun x pre).2).
    cbn [NetResourceNode.guardRun NetResourceNode.guardStep].
    destruct (NetResourceNode.Connect x1) as [b x2] eqn:Hconnect.
    rewrite guardRun_app.
    pose proof (guardRun_length x2 mid) as Hlen2.
    destruct (NetResourceNode.guardRun x2 mid) as [rsm x3] eqn:Hrun. cbn [fst snd] in *.
    destruct (NetResourceNode.guardRun x3 (NetResourceNode.OpConnect :: post))
      as [rsp x4] eqn:Hrun2.
    cbn [fst snd lookup list_lookup]. intros [= ->].
    change ((rsm ++ rsp)%list !! length mid = Some (Some false)).
    rewrite (lookup_app_r _ _ (length mid)) by lia. rewrite Hlen2, Nat.sub_diag.
    assert (Hbusy : NetResourceNode.Connecting x2 ≠ 0%Z).
    { pose proof (proj1 (Hiff x1)) as H0. rewrite Hconnect in H0.
      specialize (H0 eq_refl). unfold NetResourceNode.Connect in Hconnect.
      rewrite decide_True in Hconnect by done. by injection Hconnect as <-. }
    pose proof (guardRun_busy x2 mid Hbusy Hmid) as Hsame.
    rewrite Hrun in Hsame. cbn in Hsame. subst x3.
    cbn [NetResourceNode.guardRun NetResourceNode.guardStep] in Hrun2.
    unfold NetResourceNode.Connect in Hrun2. rewrite decide_False in Hrun2 by done.
    destruct (NetResourceNode.guardRun x2 post) as [rs' x5].
    by injection Hrun2 as <- _.
Qed.

Lemma connect_guard_single_flight_witness :
  (NetResourceNode.guardRun fixture.node0
     [NetResourceNode.OpConnected; NetResourceNode.OpConnect;
      NetResourceNode.OpIsConnecting; NetResourceNode.OpConnect;
      NetResourceNode.OpConnected; NetResourceNode.OpConnect]).1 !! 3
  = Some (Some false).
Proof.
  apply (proj2 (proj2 (proj2 (proj2 (proj2 (proj2
           (connect_guard_single_flight fixture.node0))))))
           [NetResourceNode.OpConnected] [NetResourceNode.OpIsConnecting]
           [NetResourceNode.OpConnected; NetResourceNode.OpConnect]).
  - intros H. apply list_elem_of_singleton in H. discriminate H.
  - reflexivity.
Defined.

(** ** Variable resolution *)



(** Outside a placeholder, a character other than [$] is copied. *)
Lemma scan_copy (lookup : string -> option string) (c : ascii) (s : string) :
  Ascii.eqb c "$" = false ->
  scan lookup None (String c s) = String c <$> scan lookup None s.
Proof. intros Hc. cbn -[Ascii.eqb]. rewrite Hc. by destruct s. Qed.

Lemma scan_plain (lookup : string -> option string) (pre rest : string) :
  noChar "$" pre = true ->
  scan lookup None (pre ++ rest) = String.append pre <$> scan lookup None rest.
Proof.
  induction pre as [|c pre IH]; intros Hpre.
  - rewrite append_nil. by destruct (scan lookup None rest).
  - cbn -[Ascii.eqb] in Hpre. apply andb_true_iff in Hpre as [Hc Hpre].
    apply negb_true_iff in Hc.
    rewrite append_cons, (scan_copy _ _ _ Hc), (IH Hpre).
    by destruct (scan lookup None rest).
Qed.












Lemma cut_first (c : ascii) (before after : string) :
  noChar c before = true ->
  engine.cut c (before ++ String c after) = Some (before, after).
Proof.
  induction before as [|d before IH]; intros Hb.
  - rewrite append_nil. cbn -[Ascii.eqb]. by rewrite Ascii.eqb_refl.
  - cbn -[Ascii.eqb] in Hb. apply andb_true_iff in Hb as [Hd Hb].
    apply negb_true_iff in Hd. rewrite append_cons. cbn -[Ascii.eqb].
    by rewrite Hd, (IH Hb).
Qed.

Lemma cut_None_noChar (c : ascii) (s : string) :
  engine.cut c s = None <-> noChar c s = true.
Proof.
  induction s as [|d s IH]; cbn -[Ascii.eqb]; [done|].
  destruct (Ascii.eqb d c); cbn.
  - split; discriminate.
  - destruct (engine.cut c s) as [[a b]|].
    + split; [discriminate|]. intros H. apply IH in H. discriminate H.
    + split; [|done]. intros _. by apply IH.
Qed.







(** The assertions of the engine's ProcessVariables test, on the model. *)
Example processVariables_test :
  let parse := fixture.parser in
  let registry := fixture.registry in
  let chain := RuleChainCtx.mk {["ip" := "127.0.0.1"]} {["bb" := "xx"]} in
  processVariables (Config.mk parse registry (Some ∅) None) None
    {["name" := VStr "${global.name}"]}
    = Ok {["name" := VStr "${global.name}"]} /\
  processVariables (Config.mk parse registry (Some {["name" := "lala"]}) None) None
    {["name" := VStr "${global.name}"; "age" := VNum 18]}
    = Ok {["name" := VStr "lala"; "age" := VNum 18]} /\
  processVariables (Config.mk parse registry (Some {["name" := "lala"]}) None) (Some chain)
    {["name" := VStr "${global.name}"; "ip" := VStr "${vars.ip}"]}
    = Ok {["name" := VStr "lala"; "ip" := VStr "127.0.0.1"]}.
Proof. repeat split; vm_compute; reflexivity. Qed.

(** The assertions of the pool test, on the model: two creations, two
    lookups, a deletion, a deletion under an unknown type, and the failed
    creation of a [jsFilter], which leaves an empty sub-pool behind. *)
Example NetPool_test :
  let pool := NewNetPool fixture.config in
  let σ := fixture.emptyStore in
  let '(r1, pool1, σ1) := NetPool.New pool "mqttClient" "my_mqtt_client01" fixture.mqttDsl σ in
  let '(r2, pool2, σ2) := NetPool.New pool1 "mqttClient" "my_mqtt_client02" fixture.mqttDsl σ1 in
  let '(pool3, σ3) := NetPool.Del pool2 "mqttClient" "my_mqtt_client02" σ2 in
  let '(pool4, σ4) := NetPool.Del pool3 "net" "my_mqtt_client02" σ3 in
  let '(r5, pool5, σ5) := NetPool.New pool4 "jsFilter" "my_jsFilter01" fixture.jsFilterDsl σ4 in
  size (NetPool.GetAll pool) = 0 /\
  r1 = Ok 1%positive /\ r2 = Ok 2%positive /\
  NetPool.Get pool2 "mqttClient" "my_mqtt_client01" = Some 1%positive /\
  NetPool.Get pool2 "mqttClient" "my_mqtt_client02" = Some 2%positive /\
  length <$> NetPool.GetAll pool2 !! "mqttClient" = Some 2 /\
  length <$> NetPool.GetAll pool3 !! "mqttClient" = Some 1 /\
  length <$> NetPool.GetAll pool4 !! "mqttClient" = Some 1 /\
  NetPool.GetNetResource pool4 "mqttClient" "my_mqtt_client01" σ4
    = Returns (Ok (Dyn "*mqtt.Client" 1%positive)) /\
  NetPool.GetNetResource pool4 "mqttClient" "my_mqtt_client02" σ4
    = Returns (Err (ErrNotFound "my_mqtt_client02")) /\
  r5 = Err ErrNotImplemented /\
  size (NetPool.GetAll pool5) = 2.
Proof. vm_compute. repeat split; reflexivity. Qed.

(** * Further properties of the pool *)

Import poolinv.

Lemma Pooled_Get (n : NetPool.t) nodeType id e :
  Pooled n nodeType id e <-> NetPool.Get n nodeType id = Some e.
Proof.
  unfold Pooled, NetPool.Get, NodeNetPool.Get. split.
  - intros (v & -> & He). exact He.
  - destruct (NetPool.nodeNetPoolMap n !! nodeType) as [v|]; [|done].
    intros He. by exists v.
Qed.

Lemma NetPool_Del_unfold (n : NetPool.t) nodeType id σ :
  NetPool.Del n nodeType id σ =
    match NetPool.nodeNetPoolMap n !! nodeType with
    | Some v =>
        (NetPool.with_map n
           (<[nodeType := NodeNetPool.with_entries v (delete id (NodeNetPool.entries v))]>
              (NetPool.nodeNetPoolMap n)),
         match NodeNetPool.entries v !! id with
         | Some e => emit (EvDestroy e) σ
         | None => σ
         end)
    | None => (n, σ)
    end.
Proof.
  unfold NetPool.Del. destruct (NetPool.nodeNetPoolMap n !! nodeType) as [v|]; [|done].
  by rewrite Del_unfold.
Qed.

(** X1. [NetPool.Del] of a pooled entry calls its [Destroy] once and removes
    that one key: afterwards [Get] and [GetNetResource] for the key find
    nothing, every other key holds what it held, the node contexts are
    untouched, and the sub-pool itself stays registered under its type. *)
Theorem Del_removes_exactly_one
    (n : NetPool.t) (nodeType id : string) (e : loc) (σ : Store.t) :
  NetPool.Get n nodeType id = Some e ->
  NetPool.Get (NetPool.Del n nodeType id σ).1 nodeType id = None /\
  NetPool.GetNetResource (NetPool.Del n nodeType id σ).1 nodeType id
    (NetPool.Del n nodeType id σ).2 = Returns (Err (ErrNotFound id)) /\
  (forall nodeType' id', (nodeType', id') ≠ (nodeType, id) ->
     NetPool.Get (NetPool.Del n nodeType id σ).1 nodeType' id'
     = NetPool.Get n nodeType' id') /\
  dom (NetPool.nodeNetPoolMap (NetPool.Del n nodeType id σ).1)
    = dom (NetPool.nodeNetPoolMap n) /\
  Store.ctxs (NetPool.Del n nodeType id σ).2 = Store.ctxs σ /\
  Store.trace (NetPool.Del n nodeType id σ).2 = (Store.trace σ ++ [EvDestroy e])%list.
Proof.
  intros Hget. apply Pooled_Get in Hget as (v & Hv & He).
  rewrite NetPool_Del_unfold, Hv, He. cbn [fst snd].
  split; [|split; [|split; [|split; [|split]]]].
  - unfold NetPool.Get, NodeNetPool.Get. cbn. rewrite lookup_insert_eq. cbn.
    apply lookup_delete_eq.
  - unfold NetPool.GetNetResource, NodeNetPool.GetNetResource, NodeNetPool.Get. cbn.
    rewrite lookup_insert_eq. cbn. by rewrite lookup_delete_eq.
  - intros t' id' Hne. unfold NetPool.Get, NodeNetPool.Get. cbn.
    destruct (decide (nodeType = t')) as [<-|Ht].
    + rewrite lookup_insert_eq, Hv. cbn. apply lookup_delete_ne. congruence.
    + by rewrite lookup_insert_ne.
  - cbn. rewrite dom_insert_L.
    apply subseteq_union_1_L, singleton_subseteq_l. by apply elem_of_dom_2 with v.
  - done.
  - done.
Qed.

Lemma Del_removes_exactly_one_witness :
  NetPool.Get (NetPool.Del fixture.pool1 "mqttClient" "my_mqtt_client01" fixture.store1).1
    "mqttClient" "my_mqtt_client01" = None.
Proof.
  apply (proj1 (Del_removes_exactly_one fixture.pool1 "mqttClient" "my_mqtt_client01"
                  1%positive fixture.store1 ltac:(vm_compute; reflexivity))).
Defined.

(** X2. [NetPool.Del] of a key that is not pooled, because its id or its node
    type is unknown, changes nothing and calls nothing; so deleting twice is
    deleting once, and no entry is destroyed twice by [Del]. *)
Theorem Del_absent_is_noop (n : NetPool.t) (nodeType id : string) (σ : Store.t) :
  (NetPool.Get n nodeType id = None -> NetPool.Del n nodeType id σ = (n, σ)) /\
  NetPool.Del (NetPool.Del n nodeType id σ).1 nodeType id (NetPool.Del n nodeType id σ).2
  = NetPool.Del n nodeType id σ.
Proof.
  assert (Hnoop : forall m τ, NetPool.Get m nodeType id = None ->
                              NetPool.Del m nodeType id τ = (m, τ)).
  { intros m τ Hget. rewrite NetPool_Del_unfold.
    unfold NetPool.Get, NodeNetPool.Get in Hget.
    destruct (NetPool.nodeNetPoolMap m !! nodeType) as [v|] eqn:Hv; [|done].
    rewrite Hget, delete_id, with_entries_id, insert_id, with_map_id; done. }
  split; [apply Hnoop|].
  destruct (NetPool.Get n nodeType id) as [e|] eqn:Hget.
  - destruct (NetPool.Del n nodeType id σ) as [n' σ'] eqn:Hdel. cbn [fst snd].
    apply Hnoop.
    apply Pooled_Get in Hget as (v & Hv & He).
    rewrite NetPool_Del_unfold, Hv in Hdel. injection Hdel as <- _.
    unfold NetPool.Get, NodeNetPool.Get. cbn. rewrite lookup_insert_eq. cbn.
    apply lookup_delete_eq.
  - rewrite (Hnoop n σ Hget). cbn [fst snd]. by apply Hnoop.
Qed.

Lemma Del_absent_is_noop_witness :
  NetPool.Del fixture.pool1 "net" "my_mqtt_client02" fixture.store1
  = (fixture.pool1, fixture.store1).
Proof.
  apply (proj1 (Del_absent_is_noop fixture.pool1 "net" "my_mqtt_client02" fixture.store1)).
  vm_compute. reflexivity.
Defined.

(** ** GetAll *)

Lemma foldl_insert_notin {V W : Type} (g : V -> W) (l : list (string * V)) :
  forall (acc : gmap string W) k,
  k ∉ l.*1 ->
  foldl (fun acc kv => <[kv.1 := g kv.2]> acc) acc l !! k = acc !! k.
Proof.
  induction l as [|[k1 x1] l IH]; intros acc k Hk; [done|].
  cbn [foldl fst snd]. cbn [fmap list_fmap fst] in Hk.
  apply not_elem_of_cons in Hk as [Hne Hk].
  rewrite (IH _ _ Hk). by rewrite lookup_insert_ne.
Qed.

Lemma foldl_insert_in {V W : Type} (g : V -> W) (l : list (string * V)) :
  forall (acc : gmap string W) k x,
  NoDup l.*1 -> (k, x) ∈ l ->
  foldl (fun acc kv => <[kv.1 := g kv.2]> acc) acc l !! k = Some (g x).
Proof.
  induction l as [|[k1 x1] l IH]; intros acc k x Hnd Hin.
  - by apply elem_of_nil in Hin.
  - cbn [fmap list_fmap fst] in Hnd. apply NoDup_cons in Hnd as [Hk1 Hnd].
    cbn [foldl fst snd]. apply elem_of_cons in Hin as [Heq|Hin].
    + injection Heq as -> ->. rewrite (foldl_insert_notin _ _ _ _ Hk1).
      apply lookup_insert_eq.
    + by apply IH.
Qed.

Lemma foldl_snoc_values {V : Type} (l : list (string * V)) (acc : list V) :
  foldl (fun items kv => (items ++ [kv.2])%list) acc l = (acc ++ l.*2)%list.
Proof.
  revert acc. induction l as [|[k x] l IH]; intros acc; cbn.
  - by rewrite app_nil_r.
  - rewrite IH. by rewrite <- app_assoc.
Qed.

Lemma NodeNetPool_GetAll_values (v : NodeNetPool.t) :
  NodeNetPool.GetAll v = (map_to_list (NodeNetPool.entries v)).*2.
Proof.
  unfold NodeNetPool.GetAll, Range.
  exact (foldl_snoc_values (map_to_list (NodeNetPool.entries v)) []).
Qed.

(** X3. [GetAll] is a snapshot of the whole pool: its keys are the node types
    that have a sub-pool, a sub-pool without entries included; the items of a
    type are the entries of its sub-pool, each once. *)
Theorem GetAll_snapshot (n : NetPool.t) :
  (forall nodeType,
     NetPool.GetAll n !! nodeType
     = NodeNetPool.GetAll <$> NetPool.nodeNetPoolMap n !! nodeType) /\
  dom (NetPool.GetAll n) = dom (NetPool.nodeNetPoolMap n) /\
  (forall v e, e ∈ NodeNetPool.GetAll v <-> exists id, NodeNetPool.entries v !! id = Some e) /\
  (forall v, length (NodeNetPool.GetAll v) = size (NodeNetPool.entries v)).
Proof.
  assert (Hlook : forall nodeType,
            NetPool.GetAll n !! nodeType
            = NodeNetPool.GetAll <$> NetPool.nodeNetPoolMap n !! nodeType).
  { intros t. unfold NetPool.GetAll, Range.
    destruct (NetPool.nodeNetPoolMap n !! t) as [v|] eqn:Hv; cbn.
    - apply (foldl_insert_in NodeNetPool.GetAll (map_to_list (NetPool.nodeNetPoolMap n))
               ∅ t v).
      + apply NoDup_fst_map_to_list.
      + by apply elem_of_map_to_list.
    - rewrite (foldl_insert_notin NodeNetPool.GetAll
                 (map_to_list (NetPool.nodeNetPoolMap n)) ∅ t); [done|].
      intros ((k & x) & Hk & Hin)%list_elem_of_fmap. cbn in Hk. subst k.
      apply elem_of_map_to_list in Hin. congruence. }
  split; [exact Hlook|]. split; [|split].
  - apply set_eq. intros t. rewrite !elem_of_dom, Hlook.
    destruct (NetPool.nodeNetPoolMap n !! t); cbn; split; intros [? ?]; by eauto.
  - intros v e. rewrite NodeNetPool_GetAll_values, list_elem_of_fmap. split.
    + intros ((id & e') & -> & Hin). exists id. by apply elem_of_map_to_list.
    + intros (id & Hid). exists (id, e). split; [done|]. by apply elem_of_map_to_list.
  - intros v. by rewrite NodeNetPool_GetAll_values, length_fmap, length_map_to_list.
Qed.

(** ** What a creation call leaves behind *)

Lemma NodeNetPool_NewFromDef_cases (n : NodeNetPool.t) def σ :
  let r := NodeNetPool.NewFromDef n def σ in
  (r.1.2 = n /\
   (forall e, r.1.1 = Ok e -> exists id, NodeNetPool.entries n !! id = Some e) /\
   StoreExtends σ r.2) \/
  (exists ctx cap id,
     Store.ctxs σ !! fresh (dom (Store.ctxs σ)) = None /\
     r.1.1 = Ok (fresh (dom (Store.ctxs σ))) /\
     r.1.2 = NodeNetPool.with_entries n
               (<[id := fresh (dom (Store.ctxs σ))]> (NodeNetPool.entries n)) /\
     Store.ctxs r.2 = <[fresh (dom (Store.ctxs σ)) := ctx]> (Store.ctxs σ) /\
     Node.GetNetResource (RuleNodeCtx.Node ctx) = Some cap).
Proof.
  intros r. subst r.
  assert (Hfresh : Store.ctxs σ !! fresh (dom (Store.ctxs σ)) = None)
    by apply not_elem_of_dom, is_fresh.
  destruct (NodeNetPool.entries n !! RuleNode.Id def) as [v|] eqn:Hload.
  { rewrite (NodeNetPool_NewFromDef_hit _ _ _ _ Hload). left. cbn.
    split; [done|]. split; [|by intros ? ? ?]. intros e [= <-]. by eexists. }
  rewrite (NewFromDef_miss _ _ _ Hload).
  destruct (InitNetResourceNodeCtx _ _ _) as [ctx|err].
  2:{ left. cbn. split; [done|]. split; [|by intros ? ? ?]. intros e He. discriminate He. }
  cbn zeta. destruct (Node.GetNetResource (RuleNodeCtx.Node ctx)) as [cap|] eqn:Hcap.
  - right. exists ctx, cap, (RuleNodeId.Id (GetNodeId ctx)). by cbn.
  - left. cbn. split; [done|]. split; [intros e He; discriminate He|].
    intros e c He. cbn. rewrite lookup_insert_ne; [done|]. intros <-. congruence.
Qed.

Lemma NodeNetPool_New_cases (n : NodeNetPool.t) id dsl σ :
  let r := NodeNetPool.New n id dsl σ in
  (r.1.2 = n /\
   (forall e, r.1.1 = Ok e -> exists id, NodeNetPool.entries n !! id = Some e) /\
   StoreExtends σ r.2) \/
  (exists ctx cap id,
     Store.ctxs σ !! fresh (dom (Store.ctxs σ)) = None /\
     r.1.1 = Ok (fresh (dom (Store.ctxs σ))) /\
     r.1.2 = NodeNetPool.with_entries n
               (<[id := fresh (dom (Store.ctxs σ))]> (NodeNetPool.entries n)) /\
     Store.ctxs r.2 = <[fresh (dom (Store.ctxs σ)) := ctx]> (Store.ctxs σ) /\
     Node.GetNetResource (RuleNodeCtx.Node ctx) = Some cap).
Proof.
  intros r. subst r. unfold NodeNetPool.New.
  destruct (NodeNetPool.entries n !! id) as [v|] eqn:Hload.
  { left. cbn. split; [done|]. split; [|by intros ? ? ?]. intros e [= <-]. by eexists. }
  destruct (Config.Parser (NodeNetPool.Config n) dsl) as [nodeDef|err].
  2:{ left. cbn. split; [done|]. split; [|by intros ? ? ?]. intros e He. discriminate He. }
  cbn beta iota zeta.
  match goal with |- context [NodeNetPool.NewFromDef ?m ?d ?s] =>
    exact (NodeNetPool_NewFromDef_cases m d s) end.
Qed.

Lemma NetPool_New_outcome (n : NetPool.t) nodeType id dsl σ :
  CreationOutcome n nodeType σ (NetPool.New n nodeType id dsl σ).
Proof.
  rewrite NetPool_New_unfold. cbn zeta. fold (subPool n nodeType).
  destruct (NodeNetPool_New_cases (subPool n nodeType) id dsl σ)
    as [(Hsame & Hret & Hext)|(ctx & cap & k & Hfresh & Hret & Hsub & Hctxs & Hcap)].
  - split; [done|]. left. cbn [fst snd]. by rewrite Hsame.
  - split; [done|]. right. exists ctx, cap, k. cbn [fst snd]. by rewrite Hsub.
Qed.

Lemma NetPool_NewFromDef_outcome (n : NetPool.t) def σ :
  CreationOutcome n (RuleNode.Type' def) σ (NetPool.NewFromDef n def σ).
Proof.
  rewrite NetPool_NewFromDef_unfold. cbn zeta. fold (subPool n (RuleNode.Type' def)).
  destruct (NodeNetPool_NewFromDef_cases (subPool n (RuleNode.Type' def)) def σ)
    as [(Hsame & Hret & Hext)|(ctx & cap & k & Hfresh & Hret & Hsub & Hctxs & Hcap)].
  - split; [done|]. left. cbn [fst snd]. by rewrite Hsame.
  - split; [done|]. right. exists ctx, cap, k. cbn [fst snd]. by rewrite Hsub.
Qed.

Lemma subPool_entries (n : NetPool.t) nodeType id e :
  NodeNetPool.entries (subPool n nodeType) !! id = Some e <-> Pooled n nodeType id e.
Proof.
  unfold subPool, Pooled.
  destruct (NetPool.nodeNetPoolMap n !! nodeType) as [v|]; cbn.
  - split; [intros He; by exists v|]. by intros (v' & [= <-] & He).
  - rewrite lookup_empty. split; [done|]. by intros (v' & Hv & _).
Qed.

(** The keys of the pool after a creation call. *)
Lemma Pooled_after_creation (n : NetPool.t) nodeType σ R :
  CreationOutcome n nodeType σ R ->
  (forall t id e, Pooled R.1.2 t id e <-> Pooled n t id e) \/
  (exists ctx cap k,
     Store.ctxs σ !! fresh (dom (Store.ctxs σ)) = None /\
     R.1.1 = Ok (fresh (dom (Store.ctxs σ))) /\
     Store.ctxs R.2 = <[fresh (dom (Store.ctxs σ)) := ctx]> (Store.ctxs σ) /\
     Node.GetNetResource (RuleNodeCtx.Node ctx) = Some cap /\
     forall t id e,
       Pooled R.1.2 t id e <->
       (t = nodeType /\ id = k /\ e = fresh (dom (Store.ctxs σ))) \/
       ((t, id) ≠ (nodeType, k) /\ Pooled n t id e)).
Proof.
  intros (_ & [(Hmap & _ & _)|(ctx & cap & k & Hfresh & Hret & Hmap & Hctxs & Hcap)]).
  - left. intros t id e. unfold Pooled at 1. rewrite Hmap.
    destruct (decide (nodeType = t)) as [<-|Hne].
    + rewrite lookup_insert_eq, <- subPool_entries. split.
      * by intros (v & [= <-] & He).
      * intros He. by eexists.
    + by rewrite lookup_insert_ne.
  - right. exists ctx, cap, k. repeat (split; [done|]).
    intros t id e. unfold Pooled at 1. rewrite Hmap.
    destruct (decide (nodeType = t)) as [<-|Hne].
    + rewrite lookup_insert_eq. split.
      * intros (v & [= <-] & He). cbn in He.
        destruct (decide (k = id)) as [<-|Hk].
        -- rewrite lookup_insert_eq in He. injection He as <-. by left.
        -- rewrite lookup_insert_ne in He by done. right.
           split; [congruence|]. by apply subPool_entries.
      * intros [(_ & -> & ->)|(Hne & He)].
        -- eexists. split; [done|]. cbn. apply lookup_insert_eq.
        -- eexists. split; [done|]. cbn. rewrite lookup_insert_ne by congruence.
           by apply subPool_entries.
    + rewrite lookup_insert_ne by done. split.
      * intros Hp. right. split; [congruence|done].
      * intros [(-> & _)|(_ & Hp)]; [done|exact Hp].
Qed.

Lemma creation_extends (n : NetPool.t) nodeType σ R :
  CreationOutcome n nodeType σ R -> StoreExtends σ R.2.
Proof.
  intros (_ & [(_ & _ & Hext)|(ctx & cap & k & Hfresh & _ & _ & Hctxs & _)]); [done|].
  intros e c He. rewrite Hctxs, lookup_insert_ne; [done|]. intros <-. congruence.
Qed.

Lemma Get_eq_of_Pooled (n n' : NetPool.t) t id t' id' :
  (forall e, Pooled n' t' id' e <-> Pooled n t id e) ->
  NetPool.Get n' t' id' = NetPool.Get n t id.
Proof.
  intros H. apply option_eq. intros e. rewrite <- !Pooled_Get. apply H.
Qed.

Lemma creation_registers (n : NetPool.t) nodeType σ R :
  CreationOutcome n nodeType σ R ->
  is_Some (NetPool.nodeNetPoolMap R.1.2 !! nodeType) /\
  dom (NetPool.nodeNetPoolMap R.1.2) = {[nodeType]} ∪ dom (NetPool.nodeNetPoolMap n).
Proof.
  intros (_ & [(Hmap & _ & _)|(ctx & cap & k & _ & Hret & Hmap & _ & _)]).
  - rewrite Hmap. split; [by rewrite lookup_insert_eq|apply dom_insert_L].
  - rewrite Hmap. split; [by rewrite lookup_insert_eq|apply dom_insert_L].
Qed.

Lemma creation_error_keeps (n : NetPool.t) nodeType σ R err :
  CreationOutcome n nodeType σ R -> R.1.1 = Err err ->
  forall t id, NetPool.Get R.1.2 t id = NetPool.Get n t id.
Proof.
  intros Hout Herr t id. apply Get_eq_of_Pooled.
  destruct (Pooled_after_creation _ _ _ _ Hout) as [Hkeys|(? & ? & ? & _ & Hok & _)];
    [apply Hkeys|congruence].
Qed.

Lemma GetAll_dom (n : NetPool.t) :
  dom (NetPool.GetAll n) = dom (NetPool.nodeNetPoolMap n).
Proof.
  apply set_eq. intros t. rewrite !elem_of_dom. unfold NetPool.GetAll, Range.
  destruct (NetPool.nodeNetPoolMap n !! t) as [v|] eqn:Hv.
  - rewrite (foldl_insert_in NodeNetPool.GetAll (map_to_list (NetPool.nodeNetPoolMap n))
               ∅ t v); [by split; eauto|apply NoDup_fst_map_to_list|].
    by apply elem_of_map_to_list.
  - rewrite (foldl_insert_notin NodeNetPool.GetAll
               (map_to_list (NetPool.nodeNetPoolMap n)) ∅ t).
    + rewrite lookup_empty. split; intros [? ?]; done.
    + intros ((k & x) & Hk & Hin)%list_elem_of_fmap. cbn in Hk. subst k.
      apply elem_of_map_to_list in Hin. congruence.
Qed.

(** X4. A creation call registers the sub-pool of its node type whether it
    succeeds or not: after [New(nodeType, ...)] or [NewFromDef(def)] the type
    is a key of the pool (and of [GetAll]).  A call that returns an error
    leaves every key of the pool holding what it held. *)
Theorem creation_registers_sub_pool (n : NetPool.t) (σ : Store.t) :
  (forall nodeType id dsl,
     is_Some (NetPool.nodeNetPoolMap (NetPool.New n nodeType id dsl σ).1.2 !! nodeType) /\
     dom (NetPool.GetAll (NetPool.New n nodeType id dsl σ).1.2)
     = {[nodeType]} ∪ dom (NetPool.nodeNetPoolMap n) /\
     (forall err, (NetPool.New n nodeType id dsl σ).1.1 = Err err ->
        forall t id', NetPool.Get (NetPool.New n nodeType id dsl σ).1.2 t id'
                      = NetPool.Get n t id')) /\
  (forall def,
     is_Some (NetPool.nodeNetPoolMap (NetPool.NewFromDef n def σ).1.2 !! RuleNode.Type' def) /\
     dom (NetPool.GetAll (NetPool.NewFromDef n def σ).1.2)
     = {[RuleNode.Type' def]} ∪ dom (NetPool.nodeNetPoolMap n) /\
     (forall err, (NetPool.NewFromDef n def σ).1.1 = Err err ->
        forall t id', NetPool.Get (NetPool.NewFromDef n def σ).1.2 t id'
                      = NetPool.Get n t id')).
Proof.
  split.
  - intros t id dsl. pose proof (NetPool_New_outcome n t id dsl σ) as Hout.
    destruct (creation_registers _ _ _ _ Hout) as (Hsome & Hd).
    split; [done|]. split; [by rewrite GetAll_dom|].
    intros err He. by apply (creation_error_keeps n t σ _ err).
  - intros def. pose proof (NetPool_NewFromDef_outcome n def σ) as Hout.
    destruct (creation_registers _ _ _ _ Hout) as (Hsome & Hd).
    split; [done|]. split; [by rewrite GetAll_dom|].
    intros err He. by apply (creation_error_keeps n (RuleNode.Type' def) σ _ err).
Qed.

Lemma creation_registers_sub_pool_witness :
  NetPool.Get (NetPool.New fixture.pool1 "jsFilter" "my_jsFilter01" fixture.jsFilterDsl
                 fixture.store1).1.2 "mqttClient" "my_mqtt_client01"
  = NetPool.Get fixture.pool1 "mqttClient" "my_mqtt_client01".
Proof.
  apply (proj2 (proj2 (proj1 (creation_registers_sub_pool fixture.pool1 fixture.store1)
                         "jsFilter" "my_jsFilter01" fixture.jsFilterDsl))
           ErrNotImplemented ltac:(vm_compute; reflexivity)
           "mqttClient" "my_mqtt_client01").
Defined.

(** ** Invariants of the pool *)

Lemma Pooled_after_Del (n : NetPool.t) nodeType id σ t id' e :
  Pooled (NetPool.Del n nodeType id σ).1 t id' e <->
  (t, id') ≠ (nodeType, id) /\ Pooled n t id' e.
Proof.
  rewrite NetPool_Del_unfold. unfold Pooled.
  destruct (NetPool.nodeNetPoolMap n !! nodeType) as [v|] eqn:Hv; cbn [fst].
  - cbn. destruct (decide (nodeType = t)) as [<-|Hne].
    + rewrite lookup_insert_eq, Hv. split.
      * intros (v' & [= <-] & He). cbn in He.
        apply lookup_delete_Some in He as [Hid He]. split; [congruence|]. by exists v.
      * intros (Hne & v' & [= <-] & He). eexists. split; [done|]. cbn.
        rewrite lookup_delete_ne; [done|congruence].
    + rewrite lookup_insert_ne by done. split.
      * intros Hp. split; [congruence|done].
      * by intros (_ & Hp).
  - split.
    + intros (v & Hv' & He). split; [|by exists v]. intros [= -> ->]. congruence.
    + by intros (_ & Hp).
Qed.

Lemma Del_ctxs (n : NetPool.t) nodeType id σ :
  Store.ctxs (NetPool.Del n nodeType id σ).2 = Store.ctxs σ.
Proof.
  rewrite NetPool_Del_unfold.
  destruct (NetPool.nodeNetPoolMap n !! nodeType) as [v|]; [|done].
  cbn. by destruct (NodeNetPool.entries v !! id).
Qed.

Lemma Pooled_after_Stop (n : NetPool.t) σ t id e :
  ~ Pooled (NetPool.Stop n σ).1 t id e.
Proof. intros (v & Hv & _). by rewrite NetPool_Stop_map_empty, lookup_empty in Hv. Qed.

Lemma Stop_ctxs (n : NetPool.t) σ :
  Store.ctxs (NetPool.Stop n σ).2 = Store.ctxs σ.
Proof.
  unfold NetPool.Stop, Range.
  by destruct (Stop_each (map_to_list (NetPool.nodeNetPoolMap n)) n σ) as (_ & Hctxs & _).
Qed.

Lemma creation_keeps_net_resources (n : NetPool.t) nodeType σ R :
  PooledAreNetResources n σ -> CreationOutcome n nodeType σ R ->
  PooledAreNetResources R.1.2 R.2.
Proof.
  intros Hn Hout t id e Hp. pose proof (creation_extends _ _ _ _ Hout) as Hext.
  destruct (Pooled_after_creation _ _ _ _ Hout)
    as [Hkeys|(ctx & cap & k & Hfresh & _ & Hctxs & Hcap & Hkeys)].
  - apply Hkeys in Hp. destruct (Hn t id e Hp) as (c & r & Hc & Hr).
    exists c, r. split; [by apply Hext|done].
  - apply Hkeys in Hp as [(-> & -> & ->)|(_ & Hp)].
    + exists ctx, cap. split; [|done]. rewrite Hctxs. apply lookup_insert_eq.
    + destruct (Hn t id e Hp) as (c & r & Hc & Hr).
      exists c, r. split; [by apply Hext|done].
Qed.

(** X5. Every entry of the pool points to a live context whose node
    implements [types.NetResource]: this holds of a new pool and is kept by
    [New], [NewFromDef], [Del] and [Stop].  In such a pool [GetNetResource]
    of a pooled key does not panic and does not answer "not net resource
    node" for want of the capability: it returns what the node's own
    [GetNetResource] returns. *)
Theorem pooled_entries_are_net_resources :
  (forall config σ, PooledAreNetResources (NewNetPool config) σ) /\
  (forall n σ, PooledAreNetResources n σ ->
     (forall nodeType id dsl,
        PooledAreNetResources (NetPool.New n nodeType id dsl σ).1.2
                              (NetPool.New n nodeType id dsl σ).2) /\
     (forall def,
        PooledAreNetResources (NetPool.NewFromDef n def σ).1.2
                              (NetPool.NewFromDef n def σ).2) /\
     (forall nodeType id,
        PooledAreNetResources (NetPool.Del n nodeType id σ).1
                              (NetPool.Del n nodeType id σ).2) /\
     PooledAreNetResources (NetPool.Stop n σ).1 (NetPool.Stop n σ).2 /\
     (forall nodeType id e,
        NetPool.Get n nodeType id = Some e ->
        exists ctx r,
          Store.ctxs σ !! e = Some ctx /\
          Node.GetNetResource (RuleNodeCtx.Node ctx) = Some r /\
          NetPool.GetNetResource n nodeType id σ = Returns r)).
Proof.
  split.
  - intros config σ t id e (v & Hv & _). cbn in Hv. by rewrite lookup_empty in Hv.
  - intros n σ Hn. split; [|split; [|split; [|split]]].
    + intros t id dsl.
      apply (creation_keeps_net_resources n t σ); [done|apply NetPool_New_outcome].
    + intros def.
      apply (creation_keeps_net_resources n (RuleNode.Type' def) σ);
        [done|apply NetPool_NewFromDef_outcome].
    + intros t id t' id' e Hp. apply Pooled_after_Del in Hp as [_ Hp].
      rewrite Del_ctxs. by apply (Hn t' id').
    + intros t id e Hp. by apply Pooled_after_Stop in Hp.
    + intros t id e Hget. pose proof Hget as Hp. apply Pooled_Get in Hp.
      destruct (Hn t id e Hp) as (ctx & r & Hctx & Hr). exists ctx, r.
      split; [done|]. split; [done|].
      destruct Hp as (v & Hv & He).
      unfold NetPool.GetNetResource, NodeNetPool.GetNetResource, NodeNetPool.Get,
        NetResourceCtx.GetNetResource.
      by rewrite Hv, He, Hctx, Hr.
Qed.

Lemma pooled_entries_are_net_resources_witness :
  NetPool.GetNetResource fixture.pool1 "mqttClient" "my_mqtt_client01" fixture.store1
  = Returns (Ok (Dyn "*mqtt.Client" 1%positive)).
Proof.
  destruct pooled_entries_are_net_resources as (Hnew & Hkeep).
  destruct (Hkeep _ _ (Hnew fixture.config fixture.emptyStore)) as (HNew & _).
  specialize (HNew "mqttClient" "my_mqtt_client01" fixture.mqttDsl).
  destruct (Hkeep _ _ HNew) as (_ & _ & _ & _ & Hres).
  destruct (Hres "mqttClient" "my_mqtt_client01" 1%positive ltac:(vm_compute; reflexivity))
    as (ctx & r & Hctx & Hr & Hcall).
  vm_compute in Hctx. injection Hctx as <-. vm_compute in Hr. injection Hr as <-.
  exact Hcall.
Defined.

Lemma creation_keeps_NoAlias (n : NetPool.t) nodeType σ R :
  NoAlias n σ -> CreationOutcome n nodeType σ R -> NoAlias R.1.2 R.2.
Proof.
  intros [Hlive Hinj] Hout. pose proof (creation_extends _ _ _ _ Hout) as Hext.
  destruct (Pooled_after_creation _ _ _ _ Hout)
    as [Hkeys|(ctx & cap & k & Hfresh & _ & Hctxs & _ & Hkeys)].
  - split.
    + intros t id e Hp. apply Hkeys in Hp. destruct (Hlive t id e Hp) as [c Hc].
      exists c. by apply Hext.
    + intros t1 id1 t2 id2 e H1 H2. apply Hkeys in H1. apply Hkeys in H2.
      by apply (Hinj t1 id1 t2 id2 e).
  - assert (Hold : forall t id e, Pooled n t id e -> e ≠ fresh (dom (Store.ctxs σ))).
    { intros t id e Hp ->. destruct (Hlive _ _ _ Hp) as [c Hc]. congruence. }
    split.
    + intros t id e Hp. apply Hkeys in Hp as [(-> & -> & ->)|(_ & Hp)].
      * exists ctx. rewrite Hctxs. apply lookup_insert_eq.
      * destruct (Hlive t id e Hp) as [c Hc]. exists c. by apply Hext.
    + intros t1 id1 t2 id2 e H1 H2.
      apply Hkeys in H1 as [(-> & -> & ->)|(_ & H1)];
        apply Hkeys in H2 as [(-> & -> & He)|(_ & H2)].
      * done.
      * by destruct (Hold _ _ _ H2).
      * subst e. by destruct (Hold _ _ _ H1).
      * by apply (Hinj t1 id1 t2 id2 e).
Qed.

(** X6. No context is pooled under two keys, and every pooled entry points
    to a live context: this holds of a new pool and is kept by [New],
    [NewFromDef], [Del] and [Stop].  A creation call that constructs a
    context pools it at a pointer no other key holds, so destroying the entry
    of one key never destroys the entry of another. *)
Theorem pooled_entries_do_not_alias :
  (forall config σ, NoAlias (NewNetPool config) σ) /\
  (forall n σ, NoAlias n σ ->
     (forall nodeType id dsl,
        NoAlias (NetPool.New n nodeType id dsl σ).1.2 (NetPool.New n nodeType id dsl σ).2) /\
     (forall def,
        NoAlias (NetPool.NewFromDef n def σ).1.2 (NetPool.NewFromDef n def σ).2) /\
     (forall nodeType id,
        NoAlias (NetPool.Del n nodeType id σ).1 (NetPool.Del n nodeType id σ).2) /\
     NoAlias (NetPool.Stop n σ).1 (NetPool.Stop n σ).2 /\
     (forall nodeType id e nodeType' id',
        NetPool.Get n nodeType id = Some e ->
        (nodeType', id') ≠ (nodeType, id) ->
        NetPool.Get n nodeType' id' ≠ Some e /\
        NetPool.Get (NetPool.Del n nodeType id σ).1 nodeType' id'
        = NetPool.Get n nodeType' id' /\
        forall e', NetPool.Get n nodeType' id' = Some e' ->
                   EvDestroy e' ∉ drop (length (Store.trace σ))
                                       (Store.trace (NetPool.Del n nodeType id σ).2))).
Proof.
  split.
  - intros config σ. split.
    + intros t id e (v & Hv & _). cbn in Hv. by rewrite lookup_empty in Hv.
    + intros t1 id1 t2 id2 e (v & Hv & _). cbn in Hv. by rewrite lookup_empty in Hv.
  - intros n σ Hn. split; [|split; [|split; [|split]]].
    + intros t id dsl. apply (creation_keeps_NoAlias n t σ); [done|apply NetPool_New_outcome].
    + intros def. apply (creation_keeps_NoAlias n (RuleNode.Type' def) σ);
        [done|apply NetPool_NewFromDef_outcome].
    + intros t id. destruct Hn as [Hlive Hinj]. split.
      * intros t' id' e Hp. apply Pooled_after_Del in Hp as [_ Hp].
        rewrite Del_ctxs. by apply (Hlive t' id').
      * intros t1 id1 t2 id2 e H1 H2.
        apply Pooled_after_Del in H1 as [_ H1]. apply Pooled_after_Del in H2 as [_ H2].
        by apply (Hinj t1 id1 t2 id2 e).
    + split.
      * intros t id e Hp. by apply Pooled_after_Stop in Hp.
      * intros t1 id1 t2 id2 e Hp. by apply Pooled_after_Stop in Hp.
    + intros t id e t' id' Hget Hne. destruct Hn as [_ Hinj].
      assert (Hother : NetPool.Get n t' id' ≠ Some e).
      { intros Hget'. apply Pooled_Get in Hget, Hget'.
        destruct (Hinj _ _ _ _ _ Hget Hget') as [-> ->]. by apply Hne. }
      split; [done|]. split.
      * apply Get_eq_of_Pooled. intros e'. rewrite Pooled_after_Del.
        split; [by intros [_ Hp]|by intros Hp].
      * intros e' Hget'. pose proof Hget as Hp. apply Pooled_Get in Hp as (v & Hv & He).
        rewrite NetPool_Del_unfold, Hv, He. cbn [snd emit Store.trace].
        rewrite drop_app_length. intros Hin%list_elem_of_singleton.
        injection Hin as ->. by apply Hother.
Qed.

Lemma pooled_entries_do_not_alias_witness :
  NetPool.Get fixture.pool1 "mqttClient" "other" ≠ Some 1%positive.
Proof.
  destruct pooled_entries_do_not_alias as (Hnew & Hkeep).
  destruct (Hkeep _ _ (Hnew fixture.config fixture.emptyStore)) as (HNew & _).
  specialize (HNew "mqttClient" "my_mqtt_client01" fixture.mqttDsl).
  destruct (Hkeep _ _ HNew) as (_ & _ & _ & _ & Hother).
  apply (Hother "mqttClient" "my_mqtt_client01" 1%positive "mqttClient" "other").
  - vm_compute. reflexivity.
  - discriminate.
Defined.

Lemma creation_keeps_TypeKeyed (n : NetPool.t) nodeType σ R :
  TypeKeyed n -> CreationOutcome n nodeType σ R -> TypeKeyed R.1.2.
Proof.
  intros Hn (Hcfg & Hcases) t v Hv. rewrite Hcfg.
  assert (Hsub : NodeNetPool.NodeType (subPool n nodeType) = nodeType /\
                 NodeNetPool.Config (subPool n nodeType) = NetPool.Config n).
  { unfold subPool. destruct (NetPool.nodeNetPoolMap n !! nodeType) as [w|] eqn:Hw; cbn.
    - by apply Hn.
    - done. }
  destruct Hcases as [(Hmap & _ & _)|(ctx & cap & k & _ & _ & Hmap & _ & _)];
    rewrite Hmap in Hv.
  - destruct (decide (nodeType = t)) as [<-|Hne].
    + rewrite lookup_insert_eq in Hv. by injection Hv as <-.
    + rewrite lookup_insert_ne in Hv by done. by apply Hn.
  - destruct (decide (nodeType = t)) as [<-|Hne].
    + rewrite lookup_insert_eq in Hv. by injection Hv as <-.
    + rewrite lookup_insert_ne in Hv by done. by apply Hn.
Qed.

(** X7. Each sub-pool is stored under its own node type and carries the
    configuration of the pool: this holds of a new pool and is kept by
    [New], [NewFromDef], [Del] and [Stop].  So the parser that [New] decodes
    the definition bytes with is the parser of the pool's configuration. *)
Theorem sub_pools_keyed_by_type :
  (forall config, TypeKeyed (NewNetPool config)) /\
  (forall n σ, TypeKeyed n ->
     (forall nodeType id dsl, TypeKeyed (NetPool.New n nodeType id dsl σ).1.2) /\
     (forall def, TypeKeyed (NetPool.NewFromDef n def σ).1.2) /\
     (forall nodeType id, TypeKeyed (NetPool.Del n nodeType id σ).1) /\
     TypeKeyed (NetPool.Stop n σ).1 /\
     (forall nodeType id dsl err,
        NetPool.Get n nodeType id = None ->
        Config.Parser (NetPool.Config n) dsl = Err err ->
        (NetPool.New n nodeType id dsl σ).1.1 = Err err)).
Proof.
  split.
  - intros config t v Hv. cbn in Hv. by rewrite lookup_empty in Hv.
  - intros n σ Hn. split; [|split; [|split; [|split]]].
    + intros t id dsl. apply (creation_keeps_TypeKeyed n t σ); [done|apply NetPool_New_outcome].
    + intros def. apply (creation_keeps_TypeKeyed n (RuleNode.Type' def) σ);
        [done|apply NetPool_NewFromDef_outcome].
    + intros t id. rewrite NetPool_Del_unfold.
      destruct (NetPool.nodeNetPoolMap n !! t) as [w|] eqn:Hw; cbn [fst]; [|done].
      intros t' v Hv. cbn in Hv |- *.
      destruct (decide (t = t')) as [<-|Hne].
      * rewrite lookup_insert_eq in Hv. injection Hv as <-. cbn. by apply Hn.
      * rewrite lookup_insert_ne in Hv by done. by apply Hn.
    + intros t v Hv. by rewrite NetPool_Stop_map_empty, lookup_empty in Hv.
    + intros t id dsl err Hget Hparse. rewrite NetPool_New_unfold. cbn zeta. cbn [fst].
      fold (subPool n t).
      assert (Hcfg : NodeNetPool.Config (subPool n t) = NetPool.Config n).
      { unfold subPool. destruct (NetPool.nodeNetPoolMap n !! t) as [w|] eqn:Hw; cbn.
        - by destruct (Hn t w Hw).
        - done. }
      assert (Hmiss : NodeNetPool.entries (subPool n t) !! id = None).
      { apply eq_None_not_Some. intros [e He]. apply subPool_entries, Pooled_Get in He.
        congruence. }
      unfold NodeNetPool.New. by rewrite Hmiss, Hcfg, Hparse.
Qed.

Lemma sub_pools_keyed_by_type_witness :
  (NetPool.New (NewNetPool fixture.config) "mqttClient" "a" (list_byte_of_string "x")
     fixture.emptyStore).1.1
  = Err (ErrOther "unexpected end of JSON input").
Proof.
  destruct sub_pools_keyed_by_type as (Hnew & Hkeep).
  destruct (Hkeep _ fixture.emptyStore (Hnew fixture.config)) as (_ & _ & _ & _ & Hparse).
  apply Hparse; reflexivity.
Defined.

(** ** Stop, twice *)

(** X8. [Stop] on a pool without sub-pools changes nothing and calls nothing,
    so stopping a stopped pool is a no-op: no entry is destroyed twice. *)
Theorem Stop_twice_is_Stop_once (n : NetPool.t) (σ : Store.t) :
  (NetPool.nodeNetPoolMap n = ∅ -> NetPool.Stop n σ = (n, σ)) /\
  NetPool.Stop (NetPool.Stop n σ).1 (NetPool.Stop n σ).2 = NetPool.Stop n σ.
Proof.
  assert (Hempty : forall m τ, NetPool.nodeNetPoolMap m = ∅ -> NetPool.Stop m τ = (m, τ)).
  { intros m τ Hm. unfold NetPool.Stop, Range. by rewrite Hm, map_to_list_empty. }
  split; [apply Hempty|].
  pose proof (NetPool_Stop_map_empty n σ) as Hm.
  destruct (NetPool.Stop n σ) as [n' σ']. cbn [fst snd] in *. by apply Hempty.
Qed.

Lemma Stop_twice_is_Stop_once_witness :
  NetPool.Stop (NewNetPool fixture.config) fixture.store1
  = (NewNetPool fixture.config, fixture.store1).
Proof.
  apply (proj1 (Stop_twice_is_Stop_once (NewNetPool fixture.config) fixture.store1)).
  reflexivity.
Defined.

(** ** Creation of an entry that is not pooled *)

Lemma NodeNetPool_New_miss (n : NodeNetPool.t) id dsl σ :
  NodeNetPool.entries n !! id = None -> id ≠ "" ->
  NodeNetPool.New n id dsl σ =
    match Config.Parser (NodeNetPool.Config n) dsl with
    | Err err => (Err err, n, emit (EvDecode dsl) σ)
    | Ok nodeDef =>
        let def := RuleNode.mk id (RuleNode.Type' nodeDef) (RuleNode.Name nodeDef)
                     (RuleNode.DebugMode nodeDef) (RuleNode.Configuration nodeDef) in
        match InitNetResourceNodeCtx (NodeNetPool.Config n) None def with
        | Ok ctx =>
            let l := fresh (dom (Store.ctxs σ)) in
            let σ' := Store.mk (<[l := ctx]> (Store.ctxs σ))
                               (Store.trace σ ++ [EvDecode dsl; EvInit def]) in
            match Node.GetNetResource (RuleNodeCtx.Node ctx) with
            | None => (Err ErrNotImplemented, n, σ')
            | Some _ =>
                (Ok l,
                 NodeNetPool.with_entries n
                   (<[RuleNodeId.Id (GetNodeId ctx) := l]> (NodeNetPool.entries n)),
                 σ')
            end
        | Err err =>
            (Err err, n,
             Store.mk (Store.ctxs σ) (Store.trace σ ++ [EvDecode dsl; EvInit def]))
        end
    end.
Proof.
  intros Hmiss Hid. unfold NodeNetPool.New. rewrite Hmiss.
  destruct (Config.Parser (NodeNetPool.Config n) dsl) as [nodeDef|err]; [|done].
  cbn beta iota zeta. rewrite decide_True by done.
  rewrite NewFromDef_miss by done.
  destruct (InitNetResourceNodeCtx _ _ _) as [ctx|err]; cbn.
  - destruct (Node.GetNetResource _); by rewrite <- app_assoc.
  - unfold emit. cbn. by rewrite <- app_assoc.
Qed.

Lemma subPool_miss (n : NetPool.t) nodeType id :
  NetPool.Get n nodeType id = None ->
  NodeNetPool.entries (subPool n nodeType) !! id = None.
Proof.
  intros Hget. apply eq_None_not_Some. intros [e He].
  apply subPool_entries, Pooled_Get in He. congruence.
Qed.

Lemma subPool_Config (n : NetPool.t) nodeType :
  TypeKeyed n -> NodeNetPool.Config (subPool n nodeType) = NetPool.Config n.
Proof.
  intros Hn. unfold subPool.
  destruct (NetPool.nodeNetPoolMap n !! nodeType) as [w|] eqn:Hw; cbn; [|done].
  by destruct (Hn nodeType w Hw).
Qed.

(** X9. [New] for a key that is not pooled, with a non-empty id, calls the
    parser first.  When the bytes do not decode, the parser's error is
    returned and nothing else is called.  When they decode, the context
    constructor is called next, once, on the decoded definition with only
    its id replaced by [id]: the decoded type, name, debug mode and
    configuration are used as they are, and the decoded type is not compared
    with [nodeType].  No other collaborator is called, whatever the
    outcome. *)
Theorem New_miss_decodes_then_constructs
    (n : NetPool.t) (nodeType id : string) (dsl : list byte) (σ : Store.t) :
  TypeKeyed n ->
  NetPool.Get n nodeType id = None ->
  id ≠ "" ->
  (forall err, Config.Parser (NetPool.Config n) dsl = Err err ->
     (NetPool.New n nodeType id dsl σ).1.1 = Err err /\
     (NetPool.New n nodeType id dsl σ).2 = emit (EvDecode dsl) σ) /\
  (forall nodeDef, Config.Parser (NetPool.Config n) dsl = Ok nodeDef ->
     Store.trace (NetPool.New n nodeType id dsl σ).2
     = (Store.trace σ
        ++ [EvDecode dsl;
            EvInit (RuleNode.mk id (RuleNode.Type' nodeDef) (RuleNode.Name nodeDef)
                      (RuleNode.DebugMode nodeDef) (RuleNode.Configuration nodeDef))])%list).
Proof.
  intros Hn Hget Hid. rewrite NetPool_New_unfold. cbn zeta. cbn [fst snd].
  fold (subPool n nodeType).
  rewrite (NodeNetPool_New_miss _ _ _ _ (subPool_miss _ _ _ Hget) Hid).
  rewrite (subPool_Config _ _ Hn). split.
  - by intros err ->.
  - intros nodeDef ->. cbn zeta.
    destruct (InitNetResourceNodeCtx _ _ _) as [ctx|err]; [|done].
    by destruct (Node.GetNetResource _).
Qed.

Lemma TypeKeyed_empty (config : Config.t) : TypeKeyed (NewNetPool config).
Proof. intros t v Hv. cbn in Hv. by rewrite lookup_empty in Hv. Qed.

Lemma TypeKeyed_pool1 : TypeKeyed fixture.pool1.
Proof.
  apply (creation_keeps_TypeKeyed (NewNetPool fixture.config) "mqttClient"
           fixture.emptyStore).
  - apply TypeKeyed_empty.
  - apply NetPool_New_outcome.
Qed.

Lemma New_miss_decodes_then_constructs_witness :
  Store.trace (NetPool.New fixture.pool1 "mqttClient" "my_jsFilter01" fixture.jsFilterDsl
                 fixture.store1).2
  = (Store.trace fixture.store1
     ++ [EvDecode fixture.jsFilterDsl;
         EvInit (RuleNode.mk "my_jsFilter01" "jsFilter" "" false ∅)])%list.
Proof.
  apply (proj2 (New_miss_decodes_then_constructs fixture.pool1 "mqttClient" "my_jsFilter01"
                  fixture.jsFilterDsl fixture.store1 TypeKeyed_pool1
                  ltac:(vm_compute; reflexivity) ltac:(discriminate))
           (RuleNode.mk "my_jsFilter" "jsFilter" "" false ∅)).
  vm_compute. reflexivity.
Defined.

(** X10. [New] with an empty id is get-or-create under the id the bytes
    decode to: when nothing is pooled under the empty id and an entry is
    pooled under the decoded id, the call decodes the bytes, constructs
    nothing, and returns that entry; the pool is left as it was. *)
Theorem New_empty_id_returns_entry_of_decoded_id
    (n : NetPool.t) (nodeType : string) (dsl : list byte) (σ : Store.t)
    (nodeDef : RuleNode.t) (e : loc) :
  TypeKeyed n ->
  NetPool.Get n nodeType "" = None ->
  Config.Parser (NetPool.Config n) dsl = Ok nodeDef ->
  NetPool.Get n nodeType (RuleNode.Id nodeDef) = Some e ->
  NetPool.New n nodeType "" dsl σ = (Ok e, n, emit (EvDecode dsl) σ).
Proof.
  intros Hn Hnone Hparse Hget. rewrite NetPool_New_unfold. cbn zeta.
  fold (subPool n nodeType).
  pose proof (subPool_miss _ _ _ Hnone) as Hmiss.
  apply Pooled_Get in Hget. pose proof Hget as (v & Hv & _).
  apply subPool_entries in Hget.
  unfold NodeNetPool.New. rewrite Hmiss, (subPool_Config _ _ Hn), Hparse.
  cbn beta iota zeta. rewrite decide_False by (intros H; by apply H).
  rewrite (NodeNetPool_NewFromDef_hit _ _ _ _ Hget). cbn [fst snd].
  unfold subPool. rewrite Hv. cbn. by rewrite insert_id, with_map_id.
Qed.

Lemma New_empty_id_returns_entry_of_decoded_id_witness :
  NetPool.New fixture.pool1 "mqttClient" ""
    (list_byte_of_string "jsFilter/my_mqtt_client01") fixture.store1
  = (Ok 1%positive, fixture.pool1,
     emit (EvDecode (list_byte_of_string "jsFilter/my_mqtt_client01")) fixture.store1).
Proof.
  apply (New_empty_id_returns_entry_of_decoded_id fixture.pool1 "mqttClient"
           (list_byte_of_string "jsFilter/my_mqtt_client01") fixture.store1
           (RuleNode.mk "my_mqtt_client01" "jsFilter" "" false ∅) 1%positive
           TypeKeyed_pool1).
  - vm_compute. reflexivity.
  - vm_compute. reflexivity.
  - vm_compute. reflexivity.
Defined.

(** X11. An entry that was deleted is constructed anew: after [Del] of a
    pooled key with a non-empty id, [New] for the same key is no longer the
    idempotent lookup.  It calls the parser, after the [Destroy] of the old
    entry, and an entry it returns is a context at a fresh pointer, not the
    destroyed one. *)
Theorem Del_then_New_constructs_anew
    (n : NetPool.t) (nodeType id : string) (dsl : list byte) (σ : Store.t) (e : loc) :
  NetPool.Get n nodeType id = Some e ->
  is_Some (Store.ctxs σ !! e) ->
  id ≠ "" ->
  let D := NetPool.Del n nodeType id σ in
  let R := NetPool.New D.1 nodeType id dsl D.2 in
  (exists rest,
     Store.trace R.2 = (Store.trace σ ++ [EvDestroy e; EvDecode dsl] ++ rest)%list) /\
  (forall e', R.1.1 = Ok e' ->
     e' ≠ e /\ Store.ctxs σ !! e' = None /\ is_Some (Store.ctxs R.2 !! e')).
Proof.
  intros Hget Hlive Hid D R.
  assert (HD : NetPool.Get D.1 nodeType id = None).
  { apply eq_None_not_Some. intros [e' He']. apply Pooled_Get, Pooled_after_Del in He'.
    by destruct He' as [Hne _]. }
  assert (HDtrace : Store.trace D.2 = (Store.trace σ ++ [EvDestroy e])%list).
  { subst D. apply Pooled_Get in Hget as (v & Hv & He).
    by rewrite NetPool_Del_unfold, Hv, He. }
  assert (HDctxs : Store.ctxs D.2 = Store.ctxs σ) by apply Del_ctxs.
  subst R. rewrite NetPool_New_unfold. cbn zeta. cbn [fst snd].
  fold (subPool D.1 nodeType).
  rewrite (NodeNetPool_New_miss _ _ _ _ (subPool_miss _ _ _ HD) Hid).
  destruct (Config.Parser _ dsl) as [nodeDef|err].
  - cbn zeta. destruct (InitNetResourceNodeCtx _ _ _) as [ctx|err].
    + destruct (Node.GetNetResource _); cbn [fst snd Store.trace Store.ctxs].
      * split.
        -- eexists. rewrite HDtrace, <- app_assoc. reflexivity.
        -- intros e' [= <-]. rewrite HDctxs.
           assert (Hfresh : Store.ctxs σ !! fresh (dom (Store.ctxs σ)) = None)
             by apply not_elem_of_dom, is_fresh.
           split; [|split; [done|]].
           ++ intros Heq. rewrite Heq in Hfresh. rewrite Hfresh in Hlive.
              by destruct Hlive.
           ++ rewrite lookup_insert_eq. by eexists.
      * split.
        -- eexists. rewrite HDtrace, <- app_assoc. reflexivity.
        -- intros e' He'. discriminate He'.
    + cbn [fst snd Store.trace]. split.
      * eexists. rewrite HDtrace, <- app_assoc. reflexivity.
      * intros e' He'. discriminate He'.
  - cbn [fst snd]. split.
    + exists []. unfold emit. cbn. by rewrite HDtrace, <- app_assoc.
    + intros e' He'. discriminate He'.
Qed.

Lemma Del_then_New_constructs_anew_witness :
  (NetPool.New (NetPool.Del fixture.pool1 "mqttClient" "my_mqtt_client01" fixture.store1).1
     "mqttClient" "my_mqtt_client01" fixture.mqttDsl
     (NetPool.Del fixture.pool1 "mqttClient" "my_mqtt_client01" fixture.store1).2).1.1
  ≠ Ok 1%positive.
Proof.
  intros Hcall.
  destruct (Del_then_New_constructs_anew fixture.pool1 "mqttClient" "my_mqtt_client01"
              fixture.mqttDsl fixture.store1 1%positive
              ltac:(vm_compute; reflexivity) ltac:(vm_compute; eauto) ltac:(discriminate))
    as (_ & Hfresh).
  destruct (Hfresh 1%positive Hcall) as (Hne & _). by apply Hne.
Defined.

(** * Further properties of the lazy connection wrapper *)

Lemma GetClient_pooled_keeps_world {T W : Type} (assertT : any -> option T)
    (x : NetResourceNode.t T W) pools σ (w : W) :
  NetResourceNode.NetResourceId x ≠ "" ->
  (NetResourceNode.GetClient assertT x pools σ w).2 = w.
Proof.
  intros Hid. unfold NetResourceNode.GetClient. rewrite decide_True by done.
  destruct (Config.NetPool _); [|done].
  destruct (pools !! _); [|done].
  destruct (NetPool.GetNetResource _ _ _ _) as [[conn|err]|msg]; [|done..].
  by destruct (assertT conn).
Qed.

Lemma Init_pooled {T W : Type} (x : NetResourceNode.t T W) ruleConfig nodeType id
    initNetResourceFunc (w : W) :
  id ≠ "" ->
  NetResourceNode.Init x ruleConfig nodeType (NodeConfigurationPrefixNetResource ++ id)
    initNetResourceFunc w
  = (Returns None,
     NetResourceNode.mk ruleConfig nodeType id (NetResourceNode.InitNetResourceFunc x)
       (NetResourceNode.Connecting x),
     w).
Proof.
  intros Hid. unfold NetResourceNode.Init.
  rewrite GetNetResourceId_prefixed. by rewrite decide_False.
Qed.

Lemma Init_local {T W : Type} (x : NetResourceNode.t T W) ruleConfig nodeType server
    (f : W -> result T * W) (w : W) :
  HasPrefix server NodeConfigurationPrefixNetResource = false \/
  server = NodeConfigurationPrefixNetResource ->
  NetResourceNode.Init x ruleConfig nodeType server (Some f) w
  = (Returns (match (f w).1 with Ok _ => None | Err err => Some err end),
     NetResourceNode.mk ruleConfig nodeType (NetResourceNode.NetResourceId x) (Some f)
       (NetResourceNode.Connecting x),
     (f w).2).
Proof.
  intros Hlocal. unfold NetResourceNode.Init.
  apply (GetNetResourceId_empty ruleConfig) in Hlocal. rewrite Hlocal.
  rewrite decide_True by done. cbn. by destruct (f w).
Qed.

(** X13. [Init] with a pool reference checks nothing: it returns nil and
    dials nothing whether or not a pool is configured and whether or not the
    pool holds the resource.  The error shows at [GetClient]:
    [ErrNetPoolNil] without a pool, the pool's not-found error when the
    resource is not pooled; and [GetClient] never runs the dial function in
    this mode. *)
Theorem Init_pooled_defers_errors {T W : Type} (assertT : any -> option T)
    (x : NetResourceNode.t T W) (ruleConfig : Config.t) (nodeType id : string)
    (initNetResourceFunc : option (W -> result T * W)) (w : W)
    (pools : gmap loc NetPool.t) (σ : Store.t) :
  id ≠ "" ->
  let I := NetResourceNode.Init x ruleConfig nodeType
             (NodeConfigurationPrefixNetResource ++ id) initNetResourceFunc w in
  I.1.1 = Returns None /\ I.2 = w /\
  (forall w', (NetResourceNode.GetClient assertT I.1.2 pools σ w').2 = w') /\
  (Config.NetPool ruleConfig = None ->
   NetResourceNode.GetClient assertT I.1.2 pools σ w = (Returns (Err ErrNetPoolNil), w)) /\
  (forall pool netPool,
     Config.NetPool ruleConfig = Some pool -> pools !! pool = Some netPool ->
     NetPool.Get netPool nodeType id = None ->
     NetResourceNode.GetClient assertT I.1.2 pools σ w
     = (Returns (Err (ErrNotFound id)), w)).
Proof.
  intros Hid I. subst I. rewrite (Init_pooled _ _ _ _ _ _ Hid). cbn [fst snd].
  split; [done|]. split; [done|]. split; [|split].
  - intros w'. by apply GetClient_pooled_keeps_world.
  - intros Hnil. unfold NetResourceNode.GetClient. cbn.
    rewrite decide_True by done. by rewrite Hnil.
  - intros pool netPool Hpool Hpools Hget. unfold NetResourceNode.GetClient. cbn.
    rewrite decide_True by done. rewrite Hpool, Hpools.
    unfold NetPool.GetNetResource, NodeNetPool.GetNetResource.
    unfold NetPool.Get in Hget.
    destruct (NetPool.nodeNetPoolMap netPool !! nodeType); [|done]. by rewrite Hget.
Qed.

Lemma Init_pooled_defers_errors_witness :
  NetResourceNode.GetClient fixture.assertClient
    (NetResourceNode.Init fixture.node0 (Config.mk fixture.parser fixture.registry None None)
       "mqttClient" "ref://nowhere" (Some fixture.dial) 0).1.2
    fixture.pools1 fixture.store1 0
  = (Returns (Err ErrNetPoolNil), 0).
Proof.
  apply (proj1 (proj2 (proj2 (proj2
           (Init_pooled_defers_errors fixture.assertClient fixture.node0
              (Config.mk fixture.parser fixture.registry None None) "mqttClient" "nowhere"
              (Some fixture.dial) 0 fixture.pools1 fixture.store1 ltac:(discriminate)))))).
  reflexivity.
Defined.

(** X14. The wrapper keeps no connection.  After [Init] in local mode on a
    wrapper without a resource id, [GetClient] calls the dial function again
    and returns the result of that second call: whether the connection is
    dialed once or twice is up to the dial function. *)
Theorem Init_local_then_GetClient_dials_again {T W : Type} (assertT : any -> option T)
    (x : NetResourceNode.t T W) (ruleConfig : Config.t) (nodeType server : string)
    (f : W -> result T * W) (w : W) (pools : gmap loc NetPool.t) (σ : Store.t) :
  NetResourceNode.NetResourceId x = "" ->
  HasPrefix server NodeConfigurationPrefixNetResource = false \/
  server = NodeConfigurationPrefixNetResource ->
  let I := NetResourceNode.Init x ruleConfig nodeType server (Some f) w in
  I.2 = (f w).2 /\
  NetResourceNode.GetClient assertT I.1.2 pools σ I.2
  = (Returns (f (f w).2).1, (f (f w).2).2).
Proof.
  intros Hid Hlocal I. subst I. rewrite (Init_local _ _ _ _ _ _ Hlocal). cbn [fst snd].
  split; [done|]. unfold NetResourceNode.GetClient. cbn. rewrite Hid.
  rewrite decide_False by (intros H; by apply H). by destruct (f (f w).2).
Qed.

Lemma Init_local_then_GetClient_dials_again_witness :
  NetResourceNode.GetClient fixture.assertClient
    (NetResourceNode.Init fixture.node0 fixture.config "mqttClient" "127.0.0.1:1883"
       (Some fixture.dial) 0).1.2
    fixture.pools1 fixture.store1
    (NetResourceNode.Init fixture.node0 fixture.config "mqttClient" "127.0.0.1:1883"
       (Some fixture.dial) 0).2
  = (Returns (Ok 7%positive), 2).
Proof.
  apply (proj2 (Init_local_then_GetClient_dials_again fixture.assertClient fixture.node0
                  fixture.config "mqttClient" "127.0.0.1:1883" fixture.dial 0
                  fixture.pools1 fixture.store1 eq_refl (or_introl eq_refl))).
Defined.

(** X15. [Init] in local mode does not clear the resource id.  A wrapper that
    was in pooled mode and is initialised again with a literal server string
    runs the dial function once and stays in pooled mode: [GetClient] goes on
    to ask the pool for the old resource id and never calls the dial
    function. *)
Theorem reInit_local_stays_pooled {T W : Type} (assertT : any -> option T)
    (x : NetResourceNode.t T W) (ruleConfig : Config.t) (nodeType server : string)
    (f : W -> result T * W) (w : W) :
  NetResourceNode.NetResourceId x ≠ "" ->
  HasPrefix server NodeConfigurationPrefixNetResource = false \/
  server = NodeConfigurationPrefixNetResource ->
  let I := NetResourceNode.Init x ruleConfig nodeType server (Some f) w in
  I.2 = (f w).2 /\
  NetResourceNode.NetResourceId I.1.2 = NetResourceNode.NetResourceId x /\
  (forall pools σ w', (NetResourceNode.GetClient assertT I.1.2 pools σ w').2 = w') /\
  (forall pools σ w',
     Config.NetPool ruleConfig = None ->
     NetResourceNode.GetClient assertT I.1.2 pools σ w' = (Returns (Err ErrNetPoolNil), w')).
Proof.
  intros Hid Hlocal I. subst I. rewrite (Init_local _ _ _ _ _ _ Hlocal). cbn [fst snd].
  split; [done|]. split; [done|]. split.
  - intros pools σ w'. by apply GetClient_pooled_keeps_world.
  - intros pools σ w' Hnil. unfold NetResourceNode.GetClient. cbn.
    rewrite decide_True by done. by rewrite Hnil.
Qed.

Lemma reInit_local_stays_pooled_witness :
  let pooled := NetResourceNode.mk fixture.config "mqttClient" "my_mqtt_client01" None 0%Z in
  NetResourceNode.GetClient fixture.assertClient
    (NetResourceNode.Init pooled (Config.mk fixture.parser fixture.registry None None)
       "mqttClient" "127.0.0.1:1883" (Some fixture.dial) 0).1.2
    fixture.pools1 fixture.store1 1
  = (Returns (Err ErrNetPoolNil), 1).
Proof.
  intros pooled.
  apply (proj2 (proj2 (proj2
           (reInit_local_stays_pooled fixture.assertClient pooled
              (Config.mk fixture.parser fixture.registry None None) "mqttClient"
              "127.0.0.1:1883" fixture.dial 0 ltac:(discriminate) (or_introl eq_refl))))).
  reflexivity.
Defined.

Lemma guardRun_flag {T W : Type} (x : NetResourceNode.t T W) (ops : list _) :
  NetResourceNode.Connecting x = 0%Z \/ NetResourceNode.Connecting x = 1%Z ->
  let x' := (NetResourceNode.guardRun x ops).2 in
  (NetResourceNode.Connecting x' = 0%Z \/ NetResourceNode.Connecting x' = 1%Z) /\
  NetResourceNode.RuleConfig x' = NetResourceNode.RuleConfig x /\
  NetResourceNode.NodeType x' = NetResourceNode.NodeType x /\
  NetResourceNode.NetResourceId x' = NetResourceNode.NetResourceId x /\
  NetResourceNode.InitNetResourceFunc x' = NetResourceNode.InitNetResourceFunc x.
Proof.
  revert x. induction ops as [|op ops IH]; intros x Hflag; cbn; [done|].
  assert (Hstep : let y := (NetResourceNode.guardStep x op).2 in
            (NetResourceNode.Connecting y = 0%Z \/ NetResourceNode.Connecting y = 1%Z) /\
            NetResourceNode.RuleConfig y = NetResourceNode.RuleConfig x /\
            NetResourceNode.NodeType y = NetResourceNode.NodeType x /\
            NetResourceNode.NetResourceId y = NetResourceNode.NetResourceId x /\
            NetResourceNode.InitNetResourceFunc y = NetResourceNode.InitNetResourceFunc x).
  { destruct op; cbn.
    - unfold NetResourceNode.Connect. case_decide; cbn; [|done]. split; [by right|done].
    - done.
    - split; [by left|done]. }
  destruct (NetResourceNode.guardStep x op) as [r x1]. cbn in Hstep.
  destruct Hstep as (Hflag1 & Hc & Ht & Hi & Hf). specialize (IH x1 Hflag1).
  destruct (NetResourceNode.guardRun x1 ops) as [rs x2]. cbn in *.
  destruct IH as (? & -> & -> & -> & ->). done.
Qed.

(** X16. The guard flag takes the values 0 and 1 only, in every run of guard
    operations that starts from one of them, and the operations touch nothing
    else of the wrapper.  In such a run [IsConnecting] tells exactly whether
    the next [Connect] would fail.  [Connected] is unconditional: whoever
    calls it, the next [Connect] succeeds. *)
Theorem guard_flag_protocol {T W : Type} (x : NetResourceNode.t T W) :
  (NetResourceNode.Connect (NetResourceNode.Connected x)).1 = true /\
  (forall ops,
     NetResourceNode.Connecting x = 0%Z \/ NetResourceNode.Connecting x = 1%Z ->
     let x' := (NetResourceNode.guardRun x ops).2 in
     (NetResourceNode.Connecting x' = 0%Z \/ NetResourceNode.Connecting x' = 1%Z) /\
     (NetResourceNode.Connect x').1 = negb (NetResourceNode.IsConnecting x') /\
     NetResourceNode.RuleConfig x' = NetResourceNode.RuleConfig x /\
     NetResourceNode.NodeType x' = NetResourceNode.NodeType x /\
     NetResourceNode.NetResourceId x' = NetResourceNode.NetResourceId x /\
     NetResourceNode.InitNetResourceFunc x' = NetResourceNode.InitNetResourceFunc x).
Proof.
  split; [done|]. intros ops Hflag x'.
  destruct (guardRun_flag x ops Hflag) as (Hflag' & Hrest). fold x' in Hflag', Hrest.
  split; [done|]. split; [|done].
  unfold NetResourceNode.Connect, NetResourceNode.IsConnecting.
  destruct Hflag' as [-> | ->]; reflexivity.
Qed.

Lemma guard_flag_protocol_witness :
  let x' := (NetResourceNode.guardRun fixture.node0
               [NetResourceNode.OpConnect; NetResourceNode.OpConnect]).2 in
  (NetResourceNode.Connect x').1 = negb (NetResourceNode.IsConnecting x').
Proof.
  intros x'.
  apply (proj2 (guard_flag_protocol fixture.node0)
           [NetResourceNode.OpConnect; NetResourceNode.OpConnect] (or_introl eq_refl)).
Defined.

(** * The environment of a message *)

Import nodeUtils.

(** X17. With metadata merged in, the metadata wins: every metadata key of
    the message is a key of the environment with the metadata's string as
    its value, also when it is spelled like one of the built-in keys (id,
    ts, data, msg, ...), whose own value is then lost; every other key holds
    what [GetEvn] gives it. *)
Theorem GetEvnAndMetadata_metadata_shadows
    (keys : Keys.t) (Unmarshal : string -> option Value) (msg : RuleMsg.t) :
  (forall k,
     GetEvnAndMetadata keys Unmarshal msg !! k
     = match RuleMsg.Metadata msg !! k with
       | Some v => Some (EString v)
       | None => GetEvn keys Unmarshal msg !! k
       end) /\
  dom (GetEvnAndMetadata keys Unmarshal msg)
  = dom (GetEvn keys Unmarshal msg) ∪ dom (RuleMsg.Metadata msg).
Proof.
  assert (Hlook : forall k,
            GetEvnAndMetadata keys Unmarshal msg !! k
            = match RuleMsg.Metadata msg !! k with
              | Some v => Some (EString v)
              | None => GetEvn keys Unmarshal msg !! k
              end).
  { intros k. unfold GetEvnAndMetadata, GetEvn, getEvnAndMetadata. cbn zeta.
    destruct (RuleMsg.Metadata msg !! k) as [v|] eqn:Hk.
    - apply (foldl_insert_in EString (map_to_list (RuleMsg.Metadata msg)) _ k v).
      + apply NoDup_fst_map_to_list.
      + by apply elem_of_map_to_list.
    - apply (foldl_insert_notin EString (map_to_list (RuleMsg.Metadata msg))).
      intros ((k' & x) & Heq & Hin)%list_elem_of_fmap. cbn in Heq. subst k'.
      apply elem_of_map_to_list in Hin. congruence. }
  split; [exact Hlook|].
  apply set_eq. intros k. rewrite elem_of_union, !elem_of_dom, Hlook.
  destruct (RuleMsg.Metadata msg !! k) as [v|].
  - split; [intros _; right; by eexists|intros _; by eexists].
  - split; [by left|]. intros [H|[? H]]; [done|discriminate H].
Qed.

(** X18. Without metadata the environment has the eight built-in keys and no
    other.  When the keys are pairwise distinct, [data] is the raw payload
    whatever its type; [msg] is the decoded payload when the data type is
    JSON and the payload decodes, and the raw payload otherwise, so a
    payload that is not valid JSON is no error; [msgType] and [type] both
    hold the message type. *)
Theorem GetEvn_contents
    (keys : Keys.t) (Unmarshal : string -> option Value) (msg : RuleMsg.t) :
  dom (GetEvn keys Unmarshal msg)
  = list_to_set [Keys.IdKey keys; Keys.TsKey keys; Keys.DataKey keys; Keys.MsgKey keys;
                 Keys.MetadataKey keys; Keys.MsgTypeKey keys; Keys.TypeKey keys;
                 Keys.DataTypeKey keys] /\
  (NoDup [Keys.IdKey keys; Keys.TsKey keys; Keys.DataKey keys; Keys.MsgKey keys;
          Keys.MetadataKey keys; Keys.MsgTypeKey keys; Keys.TypeKey keys;
          Keys.DataTypeKey keys] ->
   GetEvn keys Unmarshal msg !! Keys.IdKey keys = Some (EString (RuleMsg.Id msg)) /\
   GetEvn keys Unmarshal msg !! Keys.TsKey keys = Some (EInt64 (RuleMsg.Ts msg)) /\
   GetEvn keys Unmarshal msg !! Keys.DataKey keys = Some (EString (RuleMsg.Data msg)) /\
   GetEvn keys Unmarshal msg !! Keys.MetadataKey keys
   = Some (EMetadata (RuleMsg.Metadata msg)) /\
   GetEvn keys Unmarshal msg !! Keys.MsgTypeKey keys = Some (EString (RuleMsg.Type' msg)) /\
   GetEvn keys Unmarshal msg !! Keys.TypeKey keys = Some (EString (RuleMsg.Type' msg)) /\
   GetEvn keys Unmarshal msg !! Keys.DataTypeKey keys
   = Some (EDataType (RuleMsg.DataType msg)) /\
   (forall v, RuleMsg.DataType msg = Keys.JSON keys ->
              Unmarshal (RuleMsg.Data msg) = Some v ->
              GetEvn keys Unmarshal msg !! Keys.MsgKey keys = Some (EJson v)) /\
   (RuleMsg.DataType msg ≠ Keys.JSON keys \/ Unmarshal (RuleMsg.Data msg) = None ->
    GetEvn keys Unmarshal msg !! Keys.MsgKey keys = Some (EString (RuleMsg.Data msg)))).
Proof.
  unfold GetEvn, getEvnAndMetadata. cbn zeta. split.
  - rewrite !dom_insert_L, dom_empty_L. apply set_eq. intros k. cbn.
    rewrite !elem_of_union, !elem_of_singleton, !elem_of_empty. tauto.
  - intros Hnd.
    repeat match goal with
           | H : NoDup (_ :: _) |- _ => apply NoDup_cons in H as [? ?]
           end.
    repeat match goal with
           | H : _ ∉ _ :: _ |- _ => apply not_elem_of_cons in H as [? ?]
           end.
    repeat split.
    all: try (intros v Hjson Hv; rewrite Hjson, String.eqb_refl, Hv).
    all: try (intros [Hne|Hnone];
              [apply String.eqb_neq in Hne; rewrite Hne
              |rewrite Hnone; destruct (String.eqb _ _)]).
    all: repeat (first [apply lookup_insert_eq
                       |rewrite lookup_insert_ne by congruence]).
Qed.

Lemma GetEvn_contents_witness :
  let keys := Keys.mk "id" "ts" "data" "msg" "metadata" "msgType" "type" "dataType" "JSON" in
  let msg := RuleMsg.mk 0 "m1" "JSON" "TELEMETRY_MSG" "{"
               {["productType" := "test01"; "id" := "shadow"]} in
  GetEvn keys (fun _ => None) msg !! "msg" = Some (EString "{") /\
  GetEvnAndMetadata keys (fun _ => None) msg !! "id" = Some (EString "shadow").
Proof.
  intros keys msg. split.
  - apply (proj2 (GetEvn_contents keys (fun _ => None) msg)).
    + compute_done.
    + by right.
  - reflexivity.
Defined.

(** * The REST call node *)

Import external.

(** The loop of [readFromStream] tells the events of the lines. *)
Lemma readLines_events (lib : Lib.t) (lines : list string) : forall msg,
  (readLines lib msg lines).1
  = TellSuccess <$> eventMsgs msg (omap (eventOf lib) lines) /\
  (readLines lib msg lines).2
  = default msg (last (eventMsgs msg (omap (eventOf lib) lines))).
Proof.
  induction lines as [|line lines IH]; intros msg; [done|].
  cbn [readLines omap list_omap].
  destruct (decide (line = "")) as [Hempty|Hne].
  { assert (Hev : eventOf lib line = None) by (unfold eventOf; by rewrite decide_True).
    rewrite Hev. apply IH. }
  destruct (HasPrefix line ":") eqn:Hp.
  { assert (Hev : eventOf lib line = None)
      by (unfold eventOf; by rewrite decide_False, Hp).
    rewrite Hev. apply IH. }
  unfold SplitN2. destruct (engine.cut ":" line) as [[before after]|] eqn:Hcut.
  - assert (Hev : eventOf lib line
                  = Some (Lib.TrimSpace lib before, Lib.TrimSpace lib after))
      by (unfold eventOf; by rewrite decide_False, Hp, Hcut).
    rewrite Hev. cbn [length nth]. rewrite decide_False by (intros H; by apply H).
    cbn [eventMsgs].
    set (msg1 := SetData (PutValue msg eventTypeMetadataKey (Lib.TrimSpace lib before))
                   (Lib.TrimSpace lib after)).
    destruct (IH msg1) as [Htells Hlast].
    destruct (readLines lib msg1 lines) as [ts msg']. cbn [fst snd] in *.
    split; [by rewrite Htells|]. rewrite Hlast, last_cons.
    by destruct (last (eventMsgs msg1 (omap (eventOf lib) lines))).
  - assert (Hev : eventOf lib line = None)
      by (unfold eventOf; by rewrite decide_False, Hp, Hcut).
    rewrite Hev. cbn [length]. rewrite decide_True by done. apply IH.
Qed.

(** X19. [readFromStream] tells one success for each event line, in the order
    of the lines, and nothing for an empty line, a comment line (one that
    starts with a colon) or a line without colon.  The event of a line is
    split at its first colon only, so the data may hold colons itself; each
    told message carries the data of its line and the event type of its line
    in the metadata, on top of what the lines before left.  An error of the
    scanner that is no EOF is told last, as a failure on the message of the
    last event. *)
Theorem readFromStream_tells_events
    (lib : Lib.t) (msg : RuleMsg.t) (resp : Response.t (Lib.Body lib)) :
  let lines := (Lib.Scan lib (Response.Body resp)).1 in
  let msgs := eventMsgs msg (omap (eventOf lib) lines) in
  readFromStream lib msg resp
  = ((TellSuccess <$> msgs)
     ++ match (Lib.Scan lib (Response.Body resp)).2 with
        | Some err =>
            if Lib.isEOF lib err then []
            else [TellFailure (default msg (last msgs)) err]
        | None => []
        end)%list /\
  length msgs <= length lines /\
  (forall before after,
     before ≠ "" -> HasPrefix before ":" = false -> noChar ":" before = true ->
     eventOf lib (before ++ String ":" after)
     = Some (Lib.TrimSpace lib before, Lib.TrimSpace lib after)) /\
  (forall line,
     eventOf lib line = None <->
     line = "" \/ HasPrefix line ":" = true \/ noChar ":" line = true).
Proof.
  intros lines msgs. subst lines msgs. split; [|split; [|split]].
  - unfold readFromStream.
    destruct (Lib.Scan lib (Response.Body resp)) as [lines scanErr]. cbn [fst snd].
    destruct (readLines_events lib lines msg) as [Htells Hlast].
    destruct (readLines lib msg lines) as [ts msg']. cbn [fst snd] in *. subst ts msg'.
    destruct scanErr as [err|]; [|by rewrite app_nil_r].
    destruct (Lib.isEOF lib err); cbn; [by rewrite app_nil_r|done].
  - generalize (Lib.Scan lib (Response.Body resp)).1. intros lines.
    assert (Hlen : forall m evs, length (eventMsgs m evs) = length evs).
    { intros m evs. revert m. induction evs as [|[a b] evs IH]; intros m; cbn; [done|].
      by rewrite IH. }
    rewrite Hlen. induction lines as [|line lines IH]; cbn; [done|].
    destruct (eventOf lib line); cbn; lia.
  - intros before after Hne Hp Hb. unfold eventOf.
    rewrite decide_False.
    + destruct before as [|c before]; [done|]. rewrite append_cons.
      cbn -[Ascii.eqb engine.cut] in Hp |- *. rewrite Hp.
      rewrite <- append_cons. by rewrite (cut_first _ _ _ Hb).
    + destruct before; [done|]. rewrite append_cons. discriminate.
  - intros line. unfold eventOf.
    destruct (decide (line = "")) as [->|Hne]; [split; [by left|done]|].
    destruct (HasPrefix line ":") eqn:Hp; [split; [by right; left|done]|].
    destruct (engine.cut ":" line) as [[a b]|] eqn:Hcut.
    + split; [discriminate|]. intros [?|[?|Hnc]]; [done..|].
      apply cut_None_noChar in Hnc. congruence.
    + split; [|done]. intros _. right. right. by apply cut_None_noChar.
Qed.

Lemma readFromStream_tells_events_witness :
  readFromStream restfixture.lib restfixture.msg
    (Response.mk "200 OK" 200%Z [": comment"; ""; "event: add"; "data: a:b"; "noise"])
  = [TellSuccess (SetData (PutValue restfixture.msg "eventType" "event") "add");
     TellSuccess (SetData (PutValue (PutValue restfixture.msg "eventType" "event")
                             "eventType" "data") "a:b")] /\
  eventOf restfixture.lib "data: a:b" = Some ("data", "a:b").
Proof.
  destruct (readFromStream_tells_events restfixture.lib restfixture.msg
              (Response.mk "200 OK" 200%Z
                 [": comment"; ""; "event: add"; "data: a:b"; "noise"]))
    as (Hrun & _ & Hevent & _).
  split.
  - rewrite Hrun. vm_compute. reflexivity.
  - apply (Hevent "data" " a:b"); [discriminate|reflexivity..].
Defined.

(** [OnMsg] goes one of its seven ways. *)
Lemma OnMsg_case (lib : Lib.t) (x : RestApiCallNode.t lib) (msg : RuleMsg.t) :
  OnMsgCase lib x msg (OnMsg lib x msg).
Proof.
  unfold OnMsg. cbn zeta.
  match goal with
  | |- context [match ?r with Ok _ => _ | Err _ => _ end] => destruct r as [req|err]
  end; [|constructor].
  match goal with
  | |- context [Lib.Do lib ?c ?r] => destruct (Lib.Do lib c r) as [response err|resp]
  end; [constructor|].
  destruct (RestApiCallNode.isStream x) eqn:Hstream.
  - destruct (decide (Response.StatusCode resp = 200%Z)) as [Hcode|Hcode].
    + by constructor.
    + pose proof (CaseStreamStatus lib x msg resp Hstream Hcode) as Hcase.
      unfold withStatus in *. by destruct (Lib.ReadAll lib (Response.Body resp)).
  - destruct (Lib.ReadAll lib (Response.Body resp)) as [b [err|]] eqn:Hread.
    + by apply (CaseRead lib x msg resp b err).
    + destruct (decide (Response.StatusCode resp = 200%Z)) as [Hcode|Hcode].
      * by apply (CaseSuccess lib x msg resp b).
      * by apply (CaseStatus lib x msg resp b).
Qed.

Lemma tells_ETell (ts : list Tell) (rest : list Effect) :
  tells ((ETell <$> ts) ++ rest) = (ts ++ tells rest)%list.
Proof.
  unfold tells. induction ts as [|t ts IH]; cbn; [done|]. by rewrite IH.
Qed.

(** [OnMsg] by what the libraries answer: the request, the client, the
    reader of the body. *)
Lemma OnMsg_unfold (lib : Lib.t) (x : RestApiCallNode.t lib) (msg : RuleMsg.t) :
  OnMsg lib x msg =
    match requestOf lib x msg with
    | Err err => [ETell (TellFailure msg err)]
    | Ok req =>
        match Lib.Do lib (RestApiCallNode.httpClient x) req with
        | DoErr response err =>
            ETell (TellFailure (PutValue msg errorBodyMetadataKey (Error err)) err)
            :: match response with Some _ => [EClose] | None => [] end
        | DoOk resp =>
            ((if RestApiCallNode.isStream x then
                if decide (Response.StatusCode resp = 200%Z) then
                  ETell <$> readFromStream lib (withStatus lib msg resp) resp
                else
                  [ETell (TellNext
                            (PutValue (withStatus lib msg resp) errorBodyMetadataKey
                               (Lib.ReadAll lib (Response.Body resp)).1)
                            [Lib.Failure lib])]
              else
                match Lib.ReadAll lib (Response.Body resp) with
                | (b, Some err) =>
                    [ETell (TellFailure (PutValue msg errorBodyMetadataKey (Error err)) err)]
                | (b, None) =>
                    if decide (Response.StatusCode resp = 200%Z) then
                      [ETell (TellSuccess (SetData (withStatus lib msg resp) b))]
                    else
                      [ETell (TellFailure
                                (PutValue (withStatus lib msg resp) errorBodyMetadataKey b)
                                (ErrOther b))]
                end) ++ [EClose])%list
        end
    end.
Proof.
  unfold OnMsg, requestOf, withStatus. cbn zeta.
  match goal with
  | |- context [match ?r with Ok _ => _ | Err _ => _ end] => destruct r as [req|err]
  end; [|done].
  match goal with
  | |- context [Lib.Do lib ?c ?r] => destruct (Lib.Do lib c r) as [response err|resp]
  end; [done|].
  destruct (RestApiCallNode.isStream x); [|done].
  destruct (decide (Response.StatusCode resp = 200%Z)); [done|].
  by destruct (Lib.ReadAll lib (Response.Body resp)).
Qed.

(** X20. A node that does not stream calls the rule context exactly once for
    a message, whatever the request, the client and the body do, and the call
    is a [TellSuccess] or a [TellFailure], never a [TellNext]: a message is
    never dropped and never told twice.  It is a [TellSuccess] exactly when
    the request was built, the client answered without error, the body was
    read and the status is 200. *)
Theorem OnMsg_plain_tells_once
    (lib : Lib.t) (x : RestApiCallNode.t lib) (msg : RuleMsg.t) :
  RestApiCallNode.isStream x = false ->
  ((exists m, tells (OnMsg lib x msg) = [TellSuccess m]) \/
   (exists m err, tells (OnMsg lib x msg) = [TellFailure m err])) /\
  ((exists m, tells (OnMsg lib x msg) = [TellSuccess m]) <->
   (exists req resp b,
      requestOf lib x msg = Ok req /\
      Lib.Do lib (RestApiCallNode.httpClient x) req = DoOk resp /\
      Lib.ReadAll lib (Response.Body resp) = (b, None) /\
      Response.StatusCode resp = 200%Z)).
Proof.
  intros Hplain. rewrite OnMsg_unfold, Hplain.
  destruct (requestOf lib x msg) as [req|err] eqn:Hreq.
  2:{ split; [right; by eexists _, _|].
      split; [by intros (m & Hm)|by intros (? & ? & ? & ? & _)]. }
  destruct (Lib.Do lib (RestApiCallNode.httpClient x) req) as [response err|resp] eqn:Hdo.
  { assert (Ht : tells (ETell (TellFailure (PutValue msg errorBodyMetadataKey (Error err))
                                 err)
                        :: match response with Some _ => [EClose] | None => [] end)
                 = [TellFailure (PutValue msg errorBodyMetadataKey (Error err)) err])
      by (by destruct response).
    rewrite Ht. split; [right; by eexists _, _|].
    split; [by intros (m & Hm)|].
    intros (req' & resp' & b & [= <-] & Hdo' & _). congruence. }
  destruct (Lib.ReadAll lib (Response.Body resp)) as [b [err|]] eqn:Hread.
  { split; [right; by eexists _, _|].
    split; [by intros (m & Hm)|].
    intros (req' & resp' & b' & [= <-] & Hdo' & Hread' & _).
    rewrite Hdo in Hdo'. injection Hdo' as <-. congruence. }
  destruct (decide (Response.StatusCode resp = 200%Z)) as [Hcode|Hcode].
  - split; [left; by eexists|]. split; [|by eexists].
    intros _. by exists req, resp, b.
  - split; [right; by eexists _, _|].
    split; [by intros (m & Hm)|].
    intros (req' & resp' & b' & [= <-] & Hdo' & _ & H200).
    rewrite Hdo in Hdo'. injection Hdo' as <-. by destruct Hcode.
Qed.

Lemma OnMsg_plain_tells_once_witness :
  exists m, tells (OnMsg restfixture.lib (restfixture.node "http://ok" false)
                     restfixture.msg) = [TellSuccess m].
Proof.
  apply (proj2 (OnMsg_plain_tells_once restfixture.lib (restfixture.node "http://ok" false)
                  restfixture.msg eq_refl)).
  exists "http://ok", (Response.mk "200 OK" 200%Z ["done"]), "done".
  repeat split; reflexivity.
Defined.

(** X21. The body of a response is closed once, after the last call on the
    rule context, and only when there is a response.  When the request
    cannot be built, or the client returns an error and no response, [OnMsg]
    tells one failure and closes nothing; when the client returns an error
    with a response, the failure is followed by one [Close]; when the client
    returns a response and no error, the calls on the rule context are
    followed by one [Close]. *)
Theorem OnMsg_closes_body_last
    (lib : Lib.t) (x : RestApiCallNode.t lib) (msg : RuleMsg.t) :
  match requestOf lib x msg with
  | Err err => OnMsg lib x msg = [ETell (TellFailure msg err)]
  | Ok req =>
      match Lib.Do lib (RestApiCallNode.httpClient x) req with
      | DoErr None err =>
          exists m, OnMsg lib x msg = [ETell (TellFailure m err)]
      | DoErr (Some _) err =>
          exists m, OnMsg lib x msg = [ETell (TellFailure m err); EClose]
      | DoOk _ =>
          exists ts, OnMsg lib x msg = ((ETell <$> ts) ++ [EClose])%list
      end
  end.
Proof.
  rewrite OnMsg_unfold. destruct (requestOf lib x msg) as [req|err]; [|done].
  destruct (Lib.Do lib (RestApiCallNode.httpClient x) req) as [[response|] err|resp];
    [by eexists|by eexists|].
  destruct (RestApiCallNode.isStream x).
  - destruct (decide (Response.StatusCode resp = 200%Z)); [by eexists|by eexists [_]].
  - destruct (Lib.ReadAll lib (Response.Body resp)) as [b [err|]]; [by eexists [_]|].
    destruct (decide (Response.StatusCode resp = 200%Z)); by eexists [_].
Qed.

Lemma Framed_refl (msg : RuleMsg.t) : Framed msg msg.
Proof. by repeat split. Qed.

Lemma Framed_PutValue (msg m : RuleMsg.t) (key value : string) :
  key ∈ [statusMetadataKey; statusCodeMetadataKey; errorBodyMetadataKey;
         eventTypeMetadataKey] ->
  Framed msg m -> Framed msg (PutValue m key value).
Proof.
  intros Hkey (Hid & Hts & Hty & Hdt & Hmd). repeat split; try done.
  intros k Hk. cbn. rewrite lookup_insert_ne; [by apply Hmd|]. by intros ->.
Qed.

Lemma Framed_SetData (msg m : RuleMsg.t) (data : string) :
  Framed msg m -> Framed msg (SetData m data).
Proof. intros (Hid & Hts & Hty & Hdt & Hmd). by repeat split. Qed.

Lemma Framed_withStatus (lib : Lib.t) (msg : RuleMsg.t) resp :
  Framed msg (withStatus lib msg resp).
Proof.
  unfold withStatus. apply Framed_PutValue; [compute_done|].
  apply Framed_PutValue; [compute_done|]. apply Framed_refl.
Qed.

Lemma eventMsgs_Framed (msg0 : RuleMsg.t) (events : list (string * string)) :
  forall msg m, Framed msg0 msg -> m ∈ eventMsgs msg events -> Framed msg0 m.
Proof.
  induction events as [|[ty data] events IH]; intros msg m Hmsg Hin; cbn in Hin.
  - by apply elem_of_nil in Hin.
  - assert (Hstep : Framed msg0 (SetData (PutValue msg eventTypeMetadataKey ty) data)).
    { apply Framed_SetData, Framed_PutValue; [compute_done|done]. }
    apply elem_of_cons in Hin as [->|Hin]; [done|]. by apply (IH _ _ Hstep).
Qed.

Lemma eventMsgs_keeps (key : string) (events : list (string * string)) :
  key ≠ eventTypeMetadataKey ->
  forall msg m, m ∈ eventMsgs msg events ->
    RuleMsg.Metadata m !! key = RuleMsg.Metadata msg !! key.
Proof.
  intros Hkey. induction events as [|[ty data] events IH]; intros msg m Hin; cbn in Hin.
  - by apply elem_of_nil in Hin.
  - apply elem_of_cons in Hin as [->|Hin].
    + cbn. by rewrite lookup_insert_ne.
    + rewrite (IH _ _ Hin). cbn. by rewrite lookup_insert_ne.
Qed.

(** The messages [readFromStream] tells: those of the events, and for a
    failure the last of them, or the message it was given. *)
Lemma readFromStream_told (lib : Lib.t) (msg : RuleMsg.t) resp (t : Tell) :
  t ∈ readFromStream lib msg resp ->
  (exists m, t = TellSuccess m /\
     m ∈ eventMsgs msg (omap (eventOf lib) (Lib.Scan lib (Response.Body resp)).1)) \/
  (exists m err, t = TellFailure m err /\
     (m = msg \/
      m ∈ eventMsgs msg (omap (eventOf lib) (Lib.Scan lib (Response.Body resp)).1))).
Proof.
  unfold readFromStream.
  destruct (Lib.Scan lib (Response.Body resp)) as [lines scanErr]. cbn [fst].
  destruct (readLines_events lib lines msg) as [Htells Hlast].
  destruct (readLines lib msg lines) as [ts msg']. cbn [fst snd] in *. subst ts msg'.
  set (msgs := eventMsgs msg (omap (eventOf lib) lines)).
  intros Hin.
  assert (Hsucc : t ∈ TellSuccess <$> msgs ->
                  exists m, t = TellSuccess m /\ m ∈ msgs).
  { intros (m & -> & Hm)%list_elem_of_fmap. by exists m. }
  destruct scanErr as [err|]; [|left; by apply Hsucc].
  destruct (Lib.isEOF lib err); cbn in Hin; [left; by apply Hsucc|].
  apply elem_of_app in Hin as [Hin|Hin]; [left; by apply Hsucc|].
  apply list_elem_of_singleton in Hin as ->. right. eexists _, _. split; [done|].
  destruct (last msgs) as [m|] eqn:Hl; cbn; [|by left].
  right. by apply last_Some_elem_of.
Qed.

(** X22. [OnMsg] touches nothing of the message but its payload and four
    metadata keys: every message it tells has the id, the timestamp, the type
    and the data type of the message it was given, and the same metadata
    under every key other than [status], [statusCode], [errorBody] and
    [eventType]; no metadata is removed.  A node that does not stream
    replaces the payload only in the message it tells as a success. *)
Theorem OnMsg_frame
    (lib : Lib.t) (x : RestApiCallNode.t lib) (msg : RuleMsg.t) (t : Tell) :
  t ∈ tells (OnMsg lib x msg) ->
  Framed msg (told t) /\
  (RestApiCallNode.isStream x = false -> (forall m, t ≠ TellSuccess m) ->
   RuleMsg.Data (told t) = RuleMsg.Data msg).
Proof.
  intros Hin.
  assert (Herr : forall v, Framed msg (PutValue msg errorBodyMetadataKey v)).
  { intros v. apply Framed_PutValue; [compute_done|apply Framed_refl]. }
  destruct (OnMsg_case lib x msg) as [err|response err|resp Hs _|resp Hs _|resp b err Hs _
                                     |resp b Hs _ _|resp b Hs _ _].
  - apply list_elem_of_singleton in Hin as ->. split; [apply Framed_refl|done].
  - assert (Ht : t = TellFailure (PutValue msg errorBodyMetadataKey (Error err)) err).
    { destruct response; cbn in Hin; by apply list_elem_of_singleton in Hin. }
    subst t. split; [apply Herr|done].
  - rewrite tells_ETell, app_nil_r in Hin. split; [|congruence].
    destruct (readFromStream_told _ _ _ _ Hin) as [(m & -> & Hm)|(m & err & -> & Hm)].
    + apply (eventMsgs_Framed msg _ _ m (Framed_withStatus lib msg resp) Hm).
    + destruct Hm as [->|Hm]; [apply Framed_withStatus|].
      apply (eventMsgs_Framed msg _ _ m (Framed_withStatus lib msg resp) Hm).
  - apply list_elem_of_singleton in Hin as ->. split; [|congruence].
    apply Framed_PutValue; [compute_done|apply Framed_withStatus].
  - apply list_elem_of_singleton in Hin as ->. split; [apply Herr|done].
  - apply list_elem_of_singleton in Hin as ->. split.
    + apply Framed_SetData, Framed_withStatus.
    + intros _ Hno. by destruct (Hno _ eq_refl).
  - apply list_elem_of_singleton in Hin as ->. split; [|done].
    apply Framed_PutValue; [compute_done|apply Framed_withStatus].
Qed.

Lemma OnMsg_frame_witness :
  Framed restfixture.msg
    (SetData (PutValue (PutValue restfixture.msg "status" "200 OK") "statusCode" "200")
       "done").
Proof.
  apply (proj1 (OnMsg_frame restfixture.lib (restfixture.node "http://ok" false)
                  restfixture.msg
                  (TellSuccess
                     (SetData (PutValue (PutValue restfixture.msg "status" "200 OK")
                                 "statusCode" "200") "done"))
                  ltac:(vm_compute; apply list_elem_of_here))).
Defined.

Lemma withStatus_metadata (lib : Lib.t) (msg : RuleMsg.t) resp :
  RuleMsg.Metadata (withStatus lib msg resp) !! statusCodeMetadataKey
    = Some (Lib.Itoa lib (Response.StatusCode resp)) /\
  RuleMsg.Metadata (withStatus lib msg resp) !! statusMetadataKey
    = Some (Response.Status resp).
Proof.
  unfold withStatus. cbn. split; [apply lookup_insert_eq|].
  rewrite lookup_insert_ne by discriminate. apply lookup_insert_eq.
Qed.

(** X23. A success is told for a response of status 200 only: for every
    message [OnMsg] tells as a success, the events of a stream included, the
    request was built and the client answered it with a response of status
    200, and the message has the status line of that response under
    [status] and the text of 200 under [statusCode]. *)
Theorem OnMsg_success_has_status_200
    (lib : Lib.t) (x : RestApiCallNode.t lib) (msg m : RuleMsg.t) :
  TellSuccess m ∈ tells (OnMsg lib x msg) ->
  exists req resp,
    requestOf lib x msg = Ok req /\
    Lib.Do lib (RestApiCallNode.httpClient x) req = DoOk resp /\
    Response.StatusCode resp = 200%Z /\
    RuleMsg.Metadata m !! statusCodeMetadataKey = Some (Lib.Itoa lib 200%Z) /\
    RuleMsg.Metadata m !! statusMetadataKey = Some (Response.Status resp).
Proof.
  rewrite OnMsg_unfold. intros Hin.
  destruct (requestOf lib x msg) as [req|err];
    [|by apply list_elem_of_singleton in Hin].
  destruct (Lib.Do lib (RestApiCallNode.httpClient x) req) as [response err|resp] eqn:Hdo.
  { destruct response; cbn in Hin; by apply list_elem_of_singleton in Hin. }
  exists req, resp. split; [done|]. split; [done|].
  destruct (withStatus_metadata lib msg resp) as [Hcode Hstatus].
  destruct (RestApiCallNode.isStream x).
  - destruct (decide (Response.StatusCode resp = 200%Z)) as [H200|H200];
      [|by apply list_elem_of_singleton in Hin].
    rewrite tells_ETell, app_nil_r in Hin.
    destruct (readFromStream_told _ _ _ _ Hin) as [(m' & [= <-] & Hm)|(? & ? & Heq & _)];
      [|discriminate Heq].
    rewrite (eventMsgs_keeps statusCodeMetadataKey _ ltac:(discriminate) _ _ Hm).
    rewrite (eventMsgs_keeps statusMetadataKey _ ltac:(discriminate) _ _ Hm).
    by rewrite Hcode, Hstatus, H200.
  - destruct (Lib.ReadAll lib (Response.Body resp)) as [b [err|]];
      [by apply list_elem_of_singleton in Hin|].
    destruct (decide (Response.StatusCode resp = 200%Z)) as [H200|H200];
      [|by apply list_elem_of_singleton in Hin].
    apply list_elem_of_singleton in Hin. injection Hin as ->.
    change (RuleMsg.Metadata (SetData (withStatus lib msg resp) b))
      with (RuleMsg.Metadata (withStatus lib msg resp)).
    by rewrite Hcode, Hstatus, H200.
Qed.

Lemma OnMsg_success_has_status_200_witness :
  RuleMsg.Metadata
    (SetData (PutValue (PutValue (PutValue (PutValue restfixture.msg "status" "200 OK")
                                    "statusCode" "200") "eventType" "event")
                "eventType" "data") "a:b")
  !! "statusCode" = Some "200".
Proof.
  destruct (OnMsg_success_has_status_200 restfixture.lib
              (restfixture.node "http://sse" true) restfixture.msg _
              ltac:(vm_compute; apply list_elem_of_further, list_elem_of_here))
    as (req & resp & _ & _ & _ & Hcode & _).
  exact Hcode.
Defined.

(** X24. A failure of a node that does not stream tells its cause.  When the
    request cannot be built, the failure carries the error of the request on
    the message as it was given.  In every other case the request was built
    and the message has the text of the told error under [errorBody]; the
    error is the client's when the client fails, the reader's when the body
    cannot be read, and else one made of the body, for a status other than
    200. *)
Theorem OnMsg_plain_failure_has_errorBody
    (lib : Lib.t) (x : RestApiCallNode.t lib) (msg m : RuleMsg.t) (err : error) :
  RestApiCallNode.isStream x = false ->
  TellFailure m err ∈ tells (OnMsg lib x msg) ->
  (requestOf lib x msg = Err err /\ m = msg) \/
  (exists req,
     requestOf lib x msg = Ok req /\
     RuleMsg.Metadata m !! errorBodyMetadataKey = Some (Error err) /\
     match Lib.Do lib (RestApiCallNode.httpClient x) req with
     | DoErr _ err' => err = err'
     | DoOk resp =>
         match Lib.ReadAll lib (Response.Body resp) with
         | (_, Some err') => err = err'
         | (b, None) => Response.StatusCode resp ≠ 200%Z /\ err = ErrOther b
         end
     end).
Proof.
  intros Hplain. rewrite OnMsg_unfold, Hplain. intros Hin.
  destruct (requestOf lib x msg) as [req|err'].
  2:{ apply list_elem_of_singleton in Hin. injection Hin as -> ->. by left. }
  right. exists req. split; [done|].
  destruct (Lib.Do lib (RestApiCallNode.httpClient x) req) as [response err'|resp].
  { assert (Ht : TellFailure m err
                 = TellFailure (PutValue msg errorBodyMetadataKey (Error err')) err').
    { destruct response; cbn in Hin; by apply list_elem_of_singleton in Hin. }
    injection Ht as -> ->. split; [|done]. cbn. apply lookup_insert_eq. }
  destruct (Lib.ReadAll lib (Response.Body resp)) as [b [err'|]].
  { apply list_elem_of_singleton in Hin. injection Hin as -> ->.
    split; [|done]. cbn. apply lookup_insert_eq. }
  destruct (decide (Response.StatusCode resp = 200%Z)) as [H200|H200];
    [by apply list_elem_of_singleton in Hin|].
  apply list_elem_of_singleton in Hin. injection Hin as -> ->.
  split; [|done]. cbn. apply lookup_insert_eq.
Qed.

Lemma OnMsg_plain_failure_has_errorBody_witness :
  RuleMsg.Metadata
    (PutValue (PutValue (PutValue restfixture.msg "status" "404 Not Found")
                 "statusCode" "404") "errorBody" "no such page")
  !! "errorBody" = Some "no such page".
Proof.
  destruct (OnMsg_plain_failure_has_errorBody restfixture.lib
              (restfixture.node "http://missing" false) restfixture.msg
              (PutValue (PutValue (PutValue restfixture.msg "status" "404 Not Found")
                           "statusCode" "404") "errorBody" "no such page")
              (ErrOther "no such page") eq_refl
              ltac:(vm_compute; apply list_elem_of_here)) as [[Hreq _]|(req & _ & Hbody & _)].
  - discriminate Hreq.
  - exact Hbody.
Defined.



